(** * Figma token sync: extraction, normalisation and serialisation

    A shallow embedding of [src/extractors/figma-extractor.ts] and
    [src/transformers/token-transformer.ts], with the properties the
    specification states about them.

    JavaScript strings are sequences of UTF-16 code units ([list N]); the
    regular expressions of the source carry no [u] flag and therefore work on
    code units.  The numbers read from the remote answers are finite binary64
    values and are carried as rationals ([Q]); the one arithmetic operation of
    the source, the product [channel * 255], is rounded to binary64 and may
    overflow to an infinity.  [NaN] and infinite inputs are not represented.
    Plain objects used as dictionaries ([Record<string, T>]) are
    association lists in insertion order, enumerated the way
    [Object.entries] does. *)

From Stdlib Require Import String Ascii.
From Stdlib Require Import List NArith ZArith QArith Qround Qpower Bool.
From Stdlib Require PrimFloat FloatOps SpecFloat Uint63.
From Stdlib Require Import Lia Lqa Permutation Sorted.
Import ListNotations.

Set Implicit Arguments.

(* ================================================================== *)
(** ** Strings *)

Definition jsstring := list N.

(** An ASCII literal of the source as a sequence of code units. *)
Definition lit (s : string) : jsstring :=
  map N_of_ascii (list_ascii_of_string s).

Definition jsstring_eqb (a b : jsstring) : bool :=
  if list_eq_dec N.eq_dec a b then true else false.

(** The built-in conversions whose full tables live in the JavaScript
    engine: Unicode lower-casing of a string that is not pure ASCII, the
    decimal rendering of a number that is not an integer of magnitude below
    2^53 (the shortest digits that read back as the same binary64 value), and
    the base-16 rendering of an integer of magnitude 2^53 or more. *)
Class JsHost := {
  unicode_lower : jsstring -> jsstring;
  shortest_toString : Q -> jsstring;
  large_toString16 : Z -> jsstring
}.

(** A host used to run the model on concrete inputs. *)
Definition plain_host : JsHost :=
  {| unicode_lower := fun s => s;
     shortest_toString := fun _ => lit "?";
     large_toString16 := fun _ => lit "?" |}.

Definition hyphen : N := 45.
Definition slash : N := 47.

Definition is_hyphen (c : N) : bool := N.eqb c hyphen.
Definition is_slash (c : N) : bool := N.eqb c slash.

Definition is_ascii (c : N) : bool := N.ltb c 128.
Definition is_upper_ascii (c : N) : bool := N.leb 65 c && N.leb c 90.
Definition lower_ascii (c : N) : N :=
  if is_upper_ascii c then N.add c 32 else c.

(** The character class [\s] of ECMAScript: WhiteSpace and LineTerminator. *)
Definition is_js_space (c : N) : bool :=
  (N.leb 9 c && N.leb c 13)
  || N.eqb c 32 || N.eqb c 160 || N.eqb c 5760
  || (N.leb 8192 c && N.leb c 8202)
  || N.eqb c 8232 || N.eqb c 8233 || N.eqb c 8239 || N.eqb c 8287
  || N.eqb c 12288 || N.eqb c 65279.

(** The class [[a-z0-9-]]. *)
Definition is_key_char (c : N) : bool :=
  (N.leb 97 c && N.leb c 122) || (N.leb 48 c && N.leb c 57) || is_hyphen c.

(** [s.replace(/C/g, rep)] for a one-character class [C]. *)
Definition replace_each (p : N -> bool) (rep : jsstring) (s : jsstring)
  : jsstring :=
  flat_map (fun c => if p c then rep else [c]) s.

(** [s.replace(/C+/g, rep)]: a left-to-right scan; [inrun] records that the
    previous code unit belonged to the match being consumed. *)
Fixpoint replace_runs_from (inrun : bool) (p : N -> bool) (rep : jsstring)
  (s : jsstring) : jsstring :=
  match s with
  | [] => []
  | c :: s' =>
      if p c
      then (if inrun then [] else rep) ++ replace_runs_from true p rep s'
      else c :: replace_runs_from false p rep s'
  end.

Definition replace_runs := replace_runs_from false.

(** The alternative [-$] of [/^-|-$/g], tried at every index after the
    first: it matches the last code unit when that is a hyphen. *)
Fixpoint drop_final_hyphen (s : jsstring) : jsstring :=
  match s with
  | [] => []
  | c :: s' =>
      match s' with
      | [] => if is_hyphen c then [] else [c]
      | _ :: _ => c :: drop_final_hyphen s'
      end
  end.

(** [s.replace(/^-|-$/g, '')]: at index 0 the alternative [^-] is tried
    first and consumes a leading hyphen; the scan then goes on behind it. *)
Definition replace_edge_hyphens (s : jsstring) : jsstring :=
  match s with
  | [] => []
  | c :: s' => if is_hyphen c then drop_final_hyphen s'
               else drop_final_hyphen (c :: s')
  end.

(* ================================================================== *)
(** ** Numbers *)

(** [Math.round]: the nearest integer, a tie going towards plus infinity. *)
Definition Math_round (x : Q) : Z := Qfloor (x + (1 # 2)).

(** A binary64 value that is not [NaN]; the sign of a zero plays no part in
    what the source prints. *)
Inductive binary64 : Type :=
| Finite (q : Q)
| Infinity (negative : bool).

(** The largest [k] with [2^k <= x], for a positive [x]. *)
Definition Qlog2 (x : Q) : Z :=
  let k := (Z.log2 (Qnum x) - Z.log2 (Zpos (Qden x)))%Z in
  if Qle_bool (2 ^ k) x then k else (k - 1)%Z.

(** The exponent of the unit in the last place at a positive [x]: 53
    significant bits, and no bit below 2^-1074. *)
Definition ulp_exponent (x : Q) : Z := Z.max (Qlog2 x - 52) (-1074).

(** The nearest integer, a tie going to the even one. *)
Definition round_half_even (x : Q) : Z :=
  let f := Qfloor x in
  match Qcompare (x - inject_Z f) (1 # 2) with
  | Lt => f
  | Gt => (f + 1)%Z
  | Eq => if Z.even f then f else (f + 1)%Z
  end.

(** A positive real rounded to binary64; [None] when the rounded value reaches
    2^1024. *)
Definition round64_magnitude (x : Q) : option Q :=
  let e := ulp_exponent x in
  let v := inject_Z (round_half_even (x * 2 ^ (- e))) * 2 ^ e in
  if Qle_bool (2 ^ 1024) v then None else Some (Qred v).

(** Round to nearest, ties to even: the rounding of every binary64
    operation. *)
Definition round64 (x : Q) : binary64 :=
  match Qcompare x 0 with
  | Eq => Finite 0
  | Gt => match round64_magnitude x with
          | Some v => Finite v
          | None => Infinity false
          end
  | Lt => match round64_magnitude (- x) with
          | Some v => Finite (- v)
          | None => Infinity true
          end
  end.

(** [a * b] on two finite numbers. *)
Definition fmul (a b : Q) : binary64 := round64 (a * b).

(** What [Math.round] returns on a binary64 value. *)
Inductive rounded : Type :=
| Whole (z : Z)
| Unbounded (negative : bool).

Definition Math_round_of (x : binary64) : rounded :=
  match x with
  | Finite q => Whole (Math_round q)
  | Infinity negative => Unbounded negative
  end.

Fixpoint dec_chars (u : Decimal.uint) : jsstring :=
  match u with
  | Decimal.Nil => []
  | Decimal.D0 u => 48%N :: dec_chars u
  | Decimal.D1 u => 49%N :: dec_chars u
  | Decimal.D2 u => 50%N :: dec_chars u
  | Decimal.D3 u => 51%N :: dec_chars u
  | Decimal.D4 u => 52%N :: dec_chars u
  | Decimal.D5 u => 53%N :: dec_chars u
  | Decimal.D6 u => 54%N :: dec_chars u
  | Decimal.D7 u => 55%N :: dec_chars u
  | Decimal.D8 u => 56%N :: dec_chars u
  | Decimal.D9 u => 57%N :: dec_chars u
  end.

Fixpoint hex_chars (u : Hexadecimal.uint) : jsstring :=
  match u with
  | Hexadecimal.Nil => []
  | Hexadecimal.D0 u => 48%N :: hex_chars u
  | Hexadecimal.D1 u => 49%N :: hex_chars u
  | Hexadecimal.D2 u => 50%N :: hex_chars u
  | Hexadecimal.D3 u => 51%N :: hex_chars u
  | Hexadecimal.D4 u => 52%N :: hex_chars u
  | Hexadecimal.D5 u => 53%N :: hex_chars u
  | Hexadecimal.D6 u => 54%N :: hex_chars u
  | Hexadecimal.D7 u => 55%N :: hex_chars u
  | Hexadecimal.D8 u => 56%N :: hex_chars u
  | Hexadecimal.D9 u => 57%N :: hex_chars u
  | Hexadecimal.Da u => 97%N :: hex_chars u
  | Hexadecimal.Db u => 98%N :: hex_chars u
  | Hexadecimal.Dc u => 99%N :: hex_chars u
  | Hexadecimal.Dd u => 100%N :: hex_chars u
  | Hexadecimal.De u => 101%N :: hex_chars u
  | Hexadecimal.Df u => 102%N :: hex_chars u
  end.

(** [n.toString()] and [n.toString(16)] for an integer-valued number. *)
Definition int_toString (z : Z) : jsstring :=
  (if Z.ltb z 0 then [hyphen] else []) ++ dec_chars (N.to_uint (Z.abs_N z)).

Definition int_toString16 (z : Z) : jsstring :=
  (if Z.ltb z 0 then [hyphen] else []) ++ hex_chars (N.to_hex_uint (Z.abs_N z)).

(** [s.padStart(n, c)] for a one-character filler [c]. *)
Definition padStart (n : nat) (c : N) (s : jsstring) : jsstring :=
  repeat c (n - length s) ++ s.

(** The text of an infinity, in every radix. *)
Definition Infinity_text (negative : bool) : jsstring :=
  (if negative then [hyphen] else []) ++ lit "Infinity".

(* ================================================================== *)
(** ** Plain objects used as dictionaries *)

(** [Record<string, V>]: the own properties in insertion order. *)
Definition Dict (V : Type) := list (jsstring * V).

Definition proto_key : jsstring := lit "__proto__".

Definition is_digit (c : N) : bool := N.leb 48 c && N.leb c 57.

Definition digits_value (s : jsstring) : N :=
  fold_left (fun acc c => N.add (N.mul 10 acc) (N.sub c 48)) s 0%N.

(** A property key that is an array index: a canonical decimal numeral not
    above 2^32 - 2.  Such keys are enumerated first, in numeric order. *)
Definition array_index (k : jsstring) : option N :=
  match k with
  | [] => None
  | c :: rest =>
      if forallb is_digit k
         && (negb (N.eqb c 48) || match rest with [] => true | _ => false end)
         && N.leb (digits_value k) 4294967294
      then Some (digits_value k) else None
  end.

Definition is_array_index (k : jsstring) : bool :=
  match array_index k with Some _ => true | None => false end.

Section Records.
Variable V : Type.

Fixpoint rget (k : jsstring) (r : Dict V) : option V :=
  match r with
  | [] => None
  | (k', v) :: r' => if jsstring_eqb k' k then Some v else rget k r'
  end.

Fixpoint rupdate (k : jsstring) (v : V) (r : Dict V) : Dict V :=
  match r with
  | [] => [(k, v)]
  | (k', v') :: r' =>
      if jsstring_eqb k' k then (k', v) :: r' else (k', v') :: rupdate k v r'
  end.

(** [r[k] = v] on an object created by a literal: an existing key keeps its
    place, a new key goes last; the key [__proto__] reaches the inherited
    accessor and creates no own property. *)
Definition rset (k : jsstring) (v : V) (r : Dict V) : Dict V :=
  if jsstring_eqb k proto_key then r else rupdate k v r.

Fixpoint insert_index (x : N * (jsstring * V)) (l : list (N * (jsstring * V)))
  : list (N * (jsstring * V)) :=
  match l with
  | [] => [x]
  | y :: l' => if N.leb (fst x) (fst y) then x :: l else y :: insert_index x l'
  end.

Fixpoint index_entries (r : Dict V) : list (N * (jsstring * V)) :=
  match r with
  | [] => []
  | kv :: r' =>
      match array_index (fst kv) with
      | Some i => insert_index (i, kv) (index_entries r')
      | None => index_entries r'
      end
  end.

(** [Object.entries(r)]: array-index keys in ascending order, then the other
    keys in insertion order. *)
Definition entries (r : Dict V) : list (jsstring * V) :=
  map snd (index_entries r)
  ++ filter (fun kv => negb (is_array_index (fst kv))) r.

Definition keys (r : Dict V) : list jsstring := map fst (entries r).

End Records.

(* ================================================================== *)
(** ** The remote document and the published styles *)

Record FigmaColor := mkFigmaColor {
  col_r : Q;
  col_g : Q;
  col_b : Q;
  col_a : option Q
}.

Record Paint := mkPaint {
  paint_color : option FigmaColor;
  paint_opacity : option Q
}.

Record FigmaTextStyle := mkFigmaTextStyle {
  ts_fontFamily : jsstring;
  ts_fontSize : Q;
  ts_fontWeight : Q;
  ts_letterSpacing : Q;
  ts_lineHeightPx : Q
}.

Record Offset := mkOffset { off_x : Q; off_y : Q }.

Record FigmaEffect := mkFigmaEffect {
  eff_type : jsstring;
  eff_color : option FigmaColor;
  eff_offset : option Offset;
  eff_radius : Q;
  eff_spread : option Q
}.

Record BoundingBox := mkBoundingBox {
  bb_x : Q; bb_y : Q; bb_width : Q; bb_height : Q
}.

(** A node of the document tree.  Every node has a name; the other fields
    are optional. *)
#[local] Unset Elimination Schemes.
Inductive Node := mkNode {
  node_name : jsstring;
  node_styles : option (Dict jsstring);
  node_children : option (list Node);
  node_fills : option (list Paint);
  node_style : option FigmaTextStyle;
  node_effects : option (list FigmaEffect);
  node_absoluteBoundingBox : option BoundingBox
}.
#[local] Set Elimination Schemes.

Record Style := mkStyle {
  style_key : jsstring;
  style_name : jsstring;
  style_type : jsstring;
  style_description : option jsstring;
  style_node_id : jsstring
}.

Record Variable_ := mkVariable {
  var_resolvedType : jsstring;
  var_name : jsstring;
  var_description : option jsstring;
  var_valuesByMode : option (Dict FigmaColor)
}.

Record FileData := mkFileData {
  fd_name : jsstring;
  fd_document : Node;
  fd_variables : option (Dict Variable_)
}.

(* ================================================================== *)
(** ** Tokens *)

Record ColorToken := mkColorToken {
  ct_name : jsstring;
  ct_value : jsstring;
  ct_opacity : option Q;
  ct_description : option jsstring;
  ct_figmaId : option jsstring
}.

Inductive LineHeight :=
| LhNumber (q : Q)
| LhKeyword (s : jsstring).

Record TypographyToken := mkTypographyToken {
  tt_name : jsstring;
  tt_fontFamily : jsstring;
  tt_fontSize : Q;
  tt_fontWeight : Q;
  tt_lineHeight : LineHeight;
  tt_letterSpacing : Q;
  tt_description : option jsstring;
  tt_figmaId : option jsstring
}.

Record SpacingToken := mkSpacingToken {
  st_name : jsstring;
  st_value : Q;
  st_description : option jsstring
}.

Inductive EffectKind := shadow | blur | glow.

Record EffectValue := mkEffectValue {
  ev_color : option jsstring;
  ev_offsetX : option Q;
  ev_offsetY : option Q;
  ev_blur : option Q;
  ev_spread : option Q
}.

Record EffectToken := mkEffectToken {
  et_name : jsstring;
  et_type : EffectKind;
  et_value : EffectValue;
  et_description : option jsstring;
  et_figmaId : option jsstring
}.

Record Metadata := mkMetadata {
  md_version : jsstring;
  md_lastSynced : jsstring;
  md_figmaFileKey : option jsstring;
  md_figmaFileName : option jsstring
}.

Record DesignTokens := mkDesignTokens {
  colors : Dict ColorToken;
  typography : Dict TypographyToken;
  spacing : Dict SpacingToken;
  effects : Dict EffectToken;
  metadata : Metadata
}.

(* ================================================================== *)
(** ** The style resolvers *)

Definition own_style_match (node : Node) (styleId : jsstring) : bool :=
  match node_styles node with
  | Some styles =>
      existsb (fun kv => jsstring_eqb (snd kv) styleId) (entries styles)
  | None => false
  end.

(** [findNodeByStyleId], figma-extractor.ts lines 237-252. *)
Fixpoint findNodeByStyleId (node : Node) (styleId : jsstring) : option Node :=
  if own_style_match node styleId then Some node
  else
    match node_children node with
    | Some children =>
        (fix scan (l : list Node) : option Node :=
           match l with
           | [] => None
           | child :: l' =>
               match findNodeByStyleId child styleId with
               | Some found => Some found
               | None => scan l'
               end
           end) children
    | None => None
    end.

(* ================================================================== *)
(** ** Values handed to [JSON.stringify] *)

#[local] Unset Elimination Schemes.
Inductive jsval :=
| JUndefined
| JNum (q : Q)
| JStr (s : jsstring)
| JArr (items : list jsval)
| JObj (props : list (jsstring * jsval)).
#[local] Set Elimination Schemes.

Definition dq : jsstring := [34%N].
Definition nl : jsstring := [10%N].
Definition backslash : jsstring := [92%N].

(** [lines.join(sep)]. *)
Fixpoint join (sep : jsstring) (l : list jsstring) : jsstring :=
  match l with
  | [] => []
  | x :: l' =>
      match l' with
      | [] => x
      | _ :: _ => x ++ sep ++ join sep l'
      end
  end.

Definition is_high_surrogate (c : N) : bool := N.leb 55296 c && N.leb c 56319.
Definition is_low_surrogate (c : N) : bool := N.leb 56320 c && N.leb c 57343.

Definition unicode_escape (c : N) : jsstring :=
  backslash ++ lit "u" ++ padStart 4 48%N (int_toString16 (Z.of_N c)).

(** The body of QuoteJSONString. *)
Fixpoint json_escape (s : jsstring) : jsstring :=
  match s with
  | [] => []
  | c :: s' =>
      if N.eqb c 8 then backslash ++ lit "b" ++ json_escape s'
      else if N.eqb c 9 then backslash ++ lit "t" ++ json_escape s'
      else if N.eqb c 10 then backslash ++ lit "n" ++ json_escape s'
      else if N.eqb c 12 then backslash ++ lit "f" ++ json_escape s'
      else if N.eqb c 13 then backslash ++ lit "r" ++ json_escape s'
      else if N.eqb c 34 then backslash ++ dq ++ json_escape s'
      else if N.eqb c 92 then backslash ++ backslash ++ json_escape s'
      else if N.ltb c 32 then unicode_escape c ++ json_escape s'
      else if is_high_surrogate c then
        match s' with
        | d :: s'' =>
            if is_low_surrogate d then c :: d :: json_escape s''
            else unicode_escape c ++ json_escape s'
        | [] => unicode_escape c
        end
      else if is_low_surrogate c then unicode_escape c ++ json_escape s'
      else c :: json_escape s'
  end.

Definition json_quote (s : jsstring) : jsstring := dq ++ json_escape s ++ dq.

(** An object member whose value serialises to [undefined] is left out. *)
Definition json_member (m : jsstring * option jsstring) : list jsstring :=
  match snd m with
  | Some text => [json_quote (fst m) ++ lit ": " ++ text]
  | None => []
  end.

Definition json_bracket (opening closing stepback indent : jsstring)
  (parts : list jsstring) : jsstring :=
  match parts with
  | [] => opening ++ closing
  | _ :: _ =>
      opening ++ nl ++ indent ++ join (lit "," ++ nl ++ indent) parts
        ++ nl ++ stepback ++ closing
  end.

Section Host.
Context {host : JsHost}.

(** [String.prototype.toLowerCase]. *)
Definition toLowerCase (s : jsstring) : jsstring :=
  if forallb is_ascii s then map lower_ascii s else unicode_lower s.

(** [tokenizeName], figma-extractor.ts lines 269-277. *)
Definition tokenizeName (name : jsstring) : jsstring :=
  replace_edge_hyphens
    (replace_runs is_hyphen [hyphen]
       (replace_each (fun c => negb (is_key_char c)) []
          (replace_runs is_js_space [hyphen]
             (replace_each is_slash [hyphen]
                (toLowerCase name))))).

(** [n.toString()] as used by template literals. *)
Definition Number_toString (q : Q) : jsstring :=
  let n := Qnum (Qred q) in
  if Pos.eqb (Qden (Qred q)) 1 && Z.ltb (Z.abs n) (2 ^ 53)
  then int_toString n else shortest_toString q.

(** [n.toString()] and [n.toString(16)] on the result of [Math.round]. *)
Definition rounded_toString (n : rounded) : jsstring :=
  match n with
  | Whole z => Number_toString (inject_Z z)
  | Unbounded negative => Infinity_text negative
  end.

Definition rounded_toString16 (n : rounded) : jsstring :=
  match n with
  | Whole z =>
      if Z.ltb (Z.abs z) (2 ^ 53) then int_toString16 z
      else large_toString16 z
  | Unbounded negative => Infinity_text negative
  end.

(** [findNodeByName], figma-extractor.ts lines 254-267. *)
Fixpoint findNodeByName (node : Node) (name : jsstring) : option Node :=
  if jsstring_eqb (toLowerCase (node_name node)) (toLowerCase name)
  then Some node
  else
    match node_children node with
    | Some children =>
        (fix scan (l : list Node) : option Node :=
           match l with
           | [] => None
           | child :: l' =>
               match findNodeByName child name with
               | Some found => Some found
               | None => scan l'
               end
           end) children
    | None => None
    end.

(** [n.toString(16).padStart(2, '0')]. *)
Definition hex_byte (n : rounded) : jsstring :=
  padStart 2 48%N (rounded_toString16 n).

(** [figmaColorToHex], figma-extractor.ts lines 279-284. *)
Definition figmaColorToHex (color : FigmaColor) : jsstring :=
  let r := Math_round_of (fmul (col_r color) 255) in
  let g := Math_round_of (fmul (col_g color) 255) in
  let b := Math_round_of (fmul (col_b color) 255) in
  lit "#" ++ hex_byte r ++ hex_byte g ++ hex_byte b.

(** [figmaColorToRgba], figma-extractor.ts lines 286-292. *)
Definition figmaColorToRgba (color : FigmaColor) : jsstring :=
  let r := Math_round_of (fmul (col_r color) 255) in
  let g := Math_round_of (fmul (col_g color) 255) in
  let b := Math_round_of (fmul (col_b color) 255) in
  let a := match col_a color with Some a => a | None => 1 end in
  lit "rgba(" ++ rounded_toString r ++ lit ", " ++ rounded_toString g
    ++ lit ", " ++ rounded_toString b ++ lit ", " ++ Number_toString a
    ++ lit ")".

(** [mapEffectType], figma-extractor.ts lines 294-305. *)
Definition mapEffectType (figmaType : jsstring) : EffectKind :=
  if jsstring_eqb figmaType (lit "DROP_SHADOW") then shadow
  else if jsstring_eqb figmaType (lit "INNER_SHADOW") then shadow
  else if jsstring_eqb figmaType (lit "LAYER_BLUR") then blur
  else if jsstring_eqb figmaType (lit "BACKGROUND_BLUR") then blur
  else shadow.

Definition has_type (t : string) (s : Style) : bool :=
  jsstring_eqb (style_type s) (lit t).

(** The value a color variable contributes:
    [variable.valuesByMode?.[Object.keys(variable.valuesByMode)[0]]]. *)
Definition first_mode_value (variable : Variable_) : option FigmaColor :=
  match var_valuesByMode variable with
  | Some modes =>
      match keys modes with
      | [] => None
      | mode :: _ => rget mode modes
      end
  | None => None
  end.

(** One turn of the loop of [extractColorVariables]. *)
Definition colorVariableStep (colors : Dict ColorToken)
  (entry : jsstring * Variable_) : Dict ColorToken :=
  let (id, variable) := entry in
  if jsstring_eqb (var_resolvedType variable) (lit "COLOR") then
    let name := tokenizeName (var_name variable) in
    match first_mode_value variable with
    | Some value =>
        rset name
          {| ct_name := var_name variable;
             ct_value := figmaColorToHex value;
             ct_opacity := None;
             ct_description := var_description variable;
             ct_figmaId := Some id |} colors
    | None => colors
    end
  else colors.

(** [extractColorVariables], figma-extractor.ts lines 215-234; the object it
    mutates is passed in and returned. *)
Definition extractColorVariables (fileData : FileData)
  (colors : Dict ColorToken) : Dict ColorToken :=
  match fd_variables fileData with
  | Some variables => fold_left colorVariableStep (entries variables) colors
  | None => colors
  end.

(** One turn of the style loop of [extractColors]. *)
Definition colorStyleStep (fileData : FileData) (colors : Dict ColorToken)
  (style : Style) : Dict ColorToken :=
  match findNodeByStyleId (fd_document fileData) (style_node_id style) with
  | Some node =>
      match node_fills node with
      | Some (fill :: _) =>
          match paint_color fill with
          | Some color =>
              let name := tokenizeName (style_name style) in
              rset name
                {| ct_name := style_name style;
                   ct_value := figmaColorToHex color;
                   ct_opacity :=
                     Some (match paint_opacity fill with
                           | Some o => o
                           | None => 1
                           end);
                   ct_description := style_description style;
                   ct_figmaId := Some (style_key style) |} colors
          | None => colors
          end
      | _ => colors
      end
  | None => colors
  end.

(** [extractColors], figma-extractor.ts lines 96-122. *)
Definition extractColors (fileData : FileData) (styles : list Style)
  : Dict ColorToken :=
  let colorStyles := filter (has_type "FILL") styles in
  let colors := fold_left (colorStyleStep fileData) colorStyles [] in
  extractColorVariables fileData colors.

Definition typographyStyleStep (fileData : FileData)
  (typography : Dict TypographyToken) (style : Style)
  : Dict TypographyToken :=
  match findNodeByStyleId (fd_document fileData) (style_node_id style) with
  | Some node =>
      match node_style node with
      | Some textStyle =>
          let name := tokenizeName (style_name style) in
          rset name
            {| tt_name := style_name style;
               tt_fontFamily := ts_fontFamily textStyle;
               tt_fontSize := ts_fontSize textStyle;
               tt_fontWeight := ts_fontWeight textStyle;
               tt_lineHeight := LhNumber (ts_lineHeightPx textStyle);
               tt_letterSpacing := ts_letterSpacing textStyle;
               tt_description := style_description style;
               tt_figmaId := Some (style_key style) |} typography
      | None => typography
      end
  | None => typography
  end.

(** [extractTypography], figma-extractor.ts lines 124-149. *)
Definition extractTypography (fileData : FileData) (styles : list Style)
  : Dict TypographyToken :=
  let textStyles := filter (has_type "TEXT") styles in
  fold_left (typographyStyleStep fileData) textStyles [].

Definition defaultScale : list Z :=
  [0; 4; 8; 12; 16; 20; 24; 32; 40; 48; 64; 80; 96; 128]%Z.

Definition spacingChildStep (spacing : Dict SpacingToken) (child : Node)
  : Dict SpacingToken :=
  match node_absoluteBoundingBox child with
  | Some box =>
      let name := tokenizeName (node_name child) in
      rset name
        {| st_name := node_name child;
           st_value := inject_Z (Math_round (bb_width box));
           st_description := Some (lit "Spacing unit: " ++ node_name child) |}
        spacing
  | None => spacing
  end.

Definition defaultScaleStep (spacing : Dict SpacingToken)
  (entry : nat * Z) : Dict SpacingToken :=
  let (index, value) := entry in
  rset (lit "space-" ++ int_toString (Z.of_nat index))
    {| st_name := lit "Space " ++ int_toString (Z.of_nat index);
       st_value := inject_Z value;
       st_description :=
         Some (Number_toString (inject_Z value) ++ lit "px spacing unit") |}
    spacing.

(** [extractSpacing], figma-extractor.ts lines 151-183. *)
Definition extractSpacing (fileData : FileData) : Dict SpacingToken :=
  let spacingFrame := findNodeByName (fd_document fileData) (lit "Spacing") in
  let spacing :=
    match spacingFrame with
    | Some frame =>
        match node_children frame with
        | Some children => fold_left spacingChildStep children []
        | None => []
        end
    | None => []
    end in
  if Nat.eqb (length (keys spacing)) 0
  then fold_left defaultScaleStep
         (combine (seq 0 (length defaultScale)) defaultScale) spacing
  else spacing.

Definition effectStyleStep (fileData : FileData)
  (effects : Dict EffectToken) (style : Style) : Dict EffectToken :=
  match findNodeByStyleId (fd_document fileData) (style_node_id style) with
  | Some node =>
      match node_effects node with
      | Some (effect :: _) =>
          let name := tokenizeName (style_name style) in
          rset name
            {| et_name := style_name style;
               et_type := mapEffectType (eff_type effect);
               et_value :=
                 {| ev_color := option_map figmaColorToRgba (eff_color effect);
                    ev_offsetX :=
                      Some (match eff_offset effect with
                            | Some o => off_x o
                            | None => 0
                            end);
                    ev_offsetY :=
                      Some (match eff_offset effect with
                            | Some o => off_y o
                            | None => 0
                            end);
                    ev_blur := Some (eff_radius effect);
                    ev_spread :=
                      Some (match eff_spread effect with
                            | Some s => s
                            | None => 0
                            end) |};
               et_description := style_description style;
               et_figmaId := Some (style_key style) |} effects
      | _ => effects
      end
  | None => effects
  end.

(** [extractEffects], figma-extractor.ts lines 185-213. *)
Definition extractEffects (fileData : FileData) (styles : list Style)
  : Dict EffectToken :=
  let effectStyles := filter (has_type "EFFECT") styles in
  fold_left (effectStyleStep fileData) effectStyles [].

(* ================================================================== *)
(** ** The serialisers *)

(** [JSON.stringify(value, null, 2)] below the top level: SerializeJSONProperty
    with the current indentation; [None] stands for [undefined]. *)
Fixpoint json_serialize (stepback : jsstring) (v : jsval) : option jsstring :=
  let indent := stepback ++ lit "  " in
  match v with
  | JUndefined => None
  | JNum q => Some (Number_toString q)
  | JStr s => Some (json_quote s)
  | JArr items =>
      Some (json_bracket (lit "[") (lit "]") stepback indent
              (map (fun item =>
                      match json_serialize indent item with
                      | Some text => text
                      | None => lit "null"
                      end) items))
  | JObj props =>
      Some (json_bracket (lit "{") (lit "}") stepback indent
              (flat_map json_member
                 (entries
                    (map (fun kv =>
                            match kv with
                            | (k, x) => (k, json_serialize indent x)
                            end) props))))
  end.

Definition JSON_stringify2 (v : jsval) : jsstring :=
  match json_serialize [] v with
  | Some text => text
  | None => lit "undefined"
  end.

Definition template_num (o : option Q) : jsstring :=
  match o with Some q => Number_toString q | None => lit "undefined" end.

Definition template_str (o : option jsstring) : jsstring :=
  match o with Some s => s | None => lit "undefined" end.

(** [a || b] on an optional string: the empty string is falsy. *)
Definition or_else (a : option jsstring) (b : jsstring) : jsstring :=
  match a with
  | Some (c :: s) => c :: s
  | _ => b
  end.

(** [typeof lh === 'number' ? lh + 'px' : lh]. *)
Definition lineHeight_text (lh : LineHeight) : jsstring :=
  match lh with
  | LhNumber q => Number_toString q ++ lit "px"
  | LhKeyword s => s
  end.

Definition shadow_text (v : EffectValue) : jsstring :=
  template_num (ev_offsetX v) ++ lit "px " ++ template_num (ev_offsetY v)
    ++ lit "px " ++ template_num (ev_blur v) ++ lit "px "
    ++ template_num (ev_spread v) ++ lit "px " ++ template_str (ev_color v).

Definition blur_text (v : EffectValue) : jsstring :=
  template_num (ev_blur v) ++ lit "px".

(** [slugify], token-transformer.ts lines 335-340. *)
Definition slugify (text : jsstring) : jsstring :=
  replace_each (fun c => negb (is_key_char c)) []
    (replace_runs is_js_space [hyphen] (toLowerCase text)).

(** *** CSS custom properties *)

Definition css_header (m : Metadata) : list jsstring :=
  [ lit "/**";
    lit " * Origin OS Design Tokens";
    lit " * Generated: " ++ md_lastSynced m;
    lit " * Source: Figma file " ++ or_else (md_figmaFileKey m) (lit "unknown");
    lit " * DO NOT EDIT MANUALLY - This file is auto-generated";
    lit " */";
    [];
    lit ":root {" ].

Definition css_color_lines (kv : jsstring * ColorToken) : list jsstring :=
  let (key, color) := kv in
  (lit "  --color-" ++ key ++ lit ": " ++ ct_value color ++ lit ";")
  :: match ct_opacity color with
     | Some o =>
         if negb (Qle_bool 1 o)
         then [lit "  --color-" ++ key ++ lit "-opacity: "
                 ++ Number_toString o ++ lit ";"]
         else []
     | None => []
     end.

Definition css_typography_lines (kv : jsstring * TypographyToken)
  : list jsstring :=
  let (key, typo) := kv in
  [ lit "  --font-" ++ key ++ lit "-family: " ++ dq ++ tt_fontFamily typo
      ++ dq ++ lit ";";
    lit "  --font-" ++ key ++ lit "-size: " ++ Number_toString (tt_fontSize typo)
      ++ lit "px;";
    lit "  --font-" ++ key ++ lit "-weight: "
      ++ Number_toString (tt_fontWeight typo) ++ lit ";";
    lit "  --font-" ++ key ++ lit "-line-height: "
      ++ lineHeight_text (tt_lineHeight typo) ++ lit ";";
    lit "  --font-" ++ key ++ lit "-letter-spacing: "
      ++ Number_toString (tt_letterSpacing typo) ++ lit "px;" ].

Definition css_spacing_lines (kv : jsstring * SpacingToken) : list jsstring :=
  let (key, space) := kv in
  [lit "  --spacing-" ++ key ++ lit ": " ++ Number_toString (st_value space)
     ++ lit "px;"].

Definition css_effect_lines (kv : jsstring * EffectToken) : list jsstring :=
  let (key, effect) := kv in
  match et_type effect with
  | shadow =>
      [lit "  --shadow-" ++ key ++ lit ": " ++ shadow_text (et_value effect)
         ++ lit ";"]
  | blur =>
      [lit "  --blur-" ++ key ++ lit ": " ++ blur_text (et_value effect)
         ++ lit ";"]
  | glow => []
  end.

(** A block guarded by [Object.keys(record).length > 0]. *)
Definition section (V : Type) (r : Dict V) (body : list jsstring)
  : list jsstring :=
  if Nat.ltb 0 (length (keys r)) then body else [].

Definition toCSSVariables_lines (tokens : DesignTokens) : list jsstring :=
  css_header (metadata tokens)
  ++ section (colors tokens)
       (lit "  /* Colors */"
          :: flat_map css_color_lines (entries (colors tokens)) ++ [[]])
  ++ section (typography tokens)
       (lit "  /* Typography */"
          :: flat_map css_typography_lines (entries (typography tokens))
          ++ [[]])
  ++ section (spacing tokens)
       (lit "  /* Spacing */"
          :: flat_map css_spacing_lines (entries (spacing tokens)) ++ [[]])
  ++ section (effects tokens)
       (lit "  /* Effects */"
          :: flat_map css_effect_lines (entries (effects tokens)) ++ [[]])
  ++ [ lit "}";
       [];
       lit "[data-theme=" ++ dq ++ lit "dark" ++ dq ++ lit "] {";
       lit "  /* Dark mode overrides - customize as needed */";
       lit "}" ].

(** [toCSSVariables], token-transformer.ts lines 18-87. *)
Definition toCSSVariables (tokens : DesignTokens) : jsstring :=
  join nl (toCSSVariables_lines tokens).

(** *** Tailwind theme extension *)

(** Property names every plain object inherits from [Object.prototype];
    reading one of them yields a function or an object, which is truthy. *)
Definition object_prototype_names : list jsstring :=
  map lit
    [ "constructor"; "__defineGetter__"; "__defineSetter__"; "hasOwnProperty";
      "__lookupGetter__"; "__lookupSetter__"; "isPrototypeOf";
      "propertyIsEnumerable"; "toString"; "valueOf"; "__proto__";
      "toLocaleString" ]%string.

(** Truthiness of [r[k]] when every own value of [r] is an array. *)
Definition reads_truthy (V : Type) (k : jsstring) (r : Dict V) : bool :=
  match rget k r with
  | Some _ => true
  | None => existsb (jsstring_eqb k) object_prototype_names
  end.

Definition tailwind_colors (tokens : DesignTokens) : Dict jsval :=
  fold_left
    (fun acc (kv : jsstring * ColorToken) => let (key, color) := kv in
                   rset key (JStr (ct_value color)) acc)
    (entries (colors tokens)) [].

Definition tailwind_fontFamilies (tokens : DesignTokens)
  : Dict (list jsstring) :=
  fold_left
    (fun fontFamilies (kv : jsstring * TypographyToken) =>
       let (key, typo) := kv in
       let familyKey := slugify (tt_fontFamily typo) in
       if negb (reads_truthy familyKey fontFamilies)
       then rset familyKey [tt_fontFamily typo] fontFamilies
       else fontFamilies)
    (entries (typography tokens)) [].

Definition tailwind_fontSizes (tokens : DesignTokens) : Dict jsval :=
  fold_left
    (fun fontSizes (kv : jsstring * TypographyToken) =>
       let (key, typo) := kv in
       rset key
         (JArr [ JStr (Number_toString (tt_fontSize typo) ++ lit "px");
                 JObj [(lit "lineHeight",
                        JStr (lineHeight_text (tt_lineHeight typo)))] ])
         fontSizes)
    (entries (typography tokens)) [].

Definition tailwind_spacing (tokens : DesignTokens) : Dict jsval :=
  fold_left
    (fun acc (kv : jsstring * SpacingToken) => let (key, space) := kv in
                   rset key
                     (JStr (Number_toString (st_value space) ++ lit "px")) acc)
    (entries (spacing tokens)) [].

Definition tailwind_boxShadow (tokens : DesignTokens) : Dict jsval :=
  fold_left
    (fun acc (kv : jsstring * EffectToken) =>
       let (key, effect) := kv in
       match et_type effect with
       | shadow => rset key (JStr (shadow_text (et_value effect))) acc
       | _ => acc
       end)
    (entries (effects tokens)) [].

Definition tailwind_blur (tokens : DesignTokens) : Dict jsval :=
  fold_left
    (fun acc (kv : jsstring * EffectToken) =>
       let (key, effect) := kv in
       match et_type effect with
       | blur => rset key (JStr (blur_text (et_value effect))) acc
       | _ => acc
       end)
    (entries (effects tokens)) [].

(** The object [config.theme.extend] when [config] is handed to
    [JSON.stringify]. *)
Definition tailwind_extend (tokens : DesignTokens) : list (jsstring * jsval) :=
  [ (lit "colors", JObj (tailwind_colors tokens));
    (lit "fontFamily",
     JObj (map (fun kv => (fst kv, JArr (map JStr (snd kv))))
             (tailwind_fontFamilies tokens)));
    (lit "fontSize", JObj (tailwind_fontSizes tokens));
    (lit "fontWeight", JObj []);
    (lit "lineHeight", JObj []);
    (lit "letterSpacing", JObj []);
    (lit "spacing", JObj (tailwind_spacing tokens));
    (lit "boxShadow", JObj (tailwind_boxShadow tokens));
    (lit "blur", JObj (tailwind_blur tokens)) ].

Definition tailwind_config (tokens : DesignTokens) : jsval :=
  JObj [(lit "theme", JObj [(lit "extend", JObj (tailwind_extend tokens))])].

Definition toTailwindConfig_lines (tokens : DesignTokens) : list jsstring :=
  [ lit "/**";
    lit " * Origin OS Tailwind Design Tokens";
    lit " * Generated: " ++ md_lastSynced (metadata tokens);
    lit " * DO NOT EDIT MANUALLY - This file is auto-generated";
    lit " */";
    [];
    lit "/** @type {import(" ++ dq ++ lit "tailwindcss" ++ dq
      ++ lit ").Config} */";
    lit "module.exports = " ++ JSON_stringify2 (tailwind_config tokens) ].

(** [toTailwindConfig], token-transformer.ts lines 92-162. *)
Definition toTailwindConfig (tokens : DesignTokens) : jsstring :=
  join nl (toTailwindConfig_lines tokens).

(** *** SCSS variables *)

Definition scss_header (m : Metadata) : list jsstring :=
  [ lit "//";
    lit "// Origin OS Design Tokens (SCSS)";
    lit "// Generated: " ++ md_lastSynced m;
    lit "// DO NOT EDIT MANUALLY - This file is auto-generated";
    lit "//";
    [] ].

Definition scss_color_line (kv : jsstring * ColorToken) : jsstring :=
  lit "$color-" ++ fst kv ++ lit ": " ++ ct_value (snd kv) ++ lit ";".

Definition scss_color_map_line (kv : jsstring * ColorToken) : jsstring :=
  lit "  " ++ dq ++ fst kv ++ dq ++ lit ": " ++ ct_value (snd kv) ++ lit ",".

Definition scss_typography_lines (kv : jsstring * TypographyToken)
  : list jsstring :=
  let (key, typo) := kv in
  [ lit "$font-" ++ key ++ lit "-family: " ++ dq ++ tt_fontFamily typo ++ dq
      ++ lit ";";
    lit "$font-" ++ key ++ lit "-size: " ++ Number_toString (tt_fontSize typo)
      ++ lit "px;";
    lit "$font-" ++ key ++ lit "-weight: "
      ++ Number_toString (tt_fontWeight typo) ++ lit ";";
    lit "$font-" ++ key ++ lit "-line-height: "
      ++ lineHeight_text (tt_lineHeight typo) ++ lit ";";
    lit "$font-" ++ key ++ lit "-letter-spacing: "
      ++ Number_toString (tt_letterSpacing typo) ++ lit "px;";
    [] ].

Definition scss_mixin_lines (kv : jsstring * TypographyToken)
  : list jsstring :=
  let key := fst kv in
  [ lit "  @if $style == " ++ dq ++ key ++ dq ++ lit " {";
    lit "    font-family: $font-" ++ key ++ lit "-family;";
    lit "    font-size: $font-" ++ key ++ lit "-size;";
    lit "    font-weight: $font-" ++ key ++ lit "-weight;";
    lit "    line-height: $font-" ++ key ++ lit "-line-height;";
    lit "    letter-spacing: $font-" ++ key ++ lit "-letter-spacing;";
    lit "  }" ].

Definition scss_spacing_line (kv : jsstring * SpacingToken) : jsstring :=
  lit "$spacing-" ++ fst kv ++ lit ": " ++ Number_toString (st_value (snd kv))
    ++ lit "px;".

Definition scss_spacing_map_line (kv : jsstring * SpacingToken) : jsstring :=
  lit "  " ++ dq ++ fst kv ++ dq ++ lit ": "
    ++ Number_toString (st_value (snd kv)) ++ lit "px,".

Definition scss_effect_lines (kv : jsstring * EffectToken) : list jsstring :=
  let (key, effect) := kv in
  match et_type effect with
  | shadow =>
      [lit "$shadow-" ++ key ++ lit ": " ++ shadow_text (et_value effect)
         ++ lit ";"]
  | blur =>
      [lit "$blur-" ++ key ++ lit ": " ++ blur_text (et_value effect)
         ++ lit ";"]
  | glow => []
  end.

Definition toSCSS_lines (tokens : DesignTokens) : list jsstring :=
  scss_header (metadata tokens)
  ++ section (colors tokens)
       ([lit "// Colors"; lit "// -------"]
          ++ map scss_color_line (entries (colors tokens))
          ++ [[]; lit "$colors: ("]
          ++ map scss_color_map_line (entries (colors tokens))
          ++ [lit ");"; []])
  ++ section (typography tokens)
       ([lit "// Typography"; lit "// ----------"]
          ++ flat_map scss_typography_lines (entries (typography tokens))
          ++ [lit "// Typography Mixin"; lit "@mixin typography($style) {"]
          ++ flat_map scss_mixin_lines (entries (typography tokens))
          ++ [lit "}"; []])
  ++ section (spacing tokens)
       ([lit "// Spacing"; lit "// -------"]
          ++ map scss_spacing_line (entries (spacing tokens))
          ++ [[]; lit "$spacing: ("]
          ++ map scss_spacing_map_line (entries (spacing tokens))
          ++ [lit ");"; []])
  ++ section (effects tokens)
       ([lit "// Effects"; lit "// -------"]
          ++ flat_map scss_effect_lines (entries (effects tokens))
          ++ [[]]).

(** [toSCSS], token-transformer.ts lines 167-258. *)
Definition toSCSS (tokens : DesignTokens) : jsstring :=
  join nl (toSCSS_lines tokens).

(** *** Structured JSON document *)

Definition json_colors (tokens : DesignTokens) : Dict jsval :=
  fold_left
    (fun acc (kv : jsstring * ColorToken) =>
       let (key, color) := kv in
       rset key
         (JObj [ (lit "$type", JStr (lit "color"));
                 (lit "$value", JStr (ct_value color));
                 (lit "$description",
                  JStr (or_else (ct_description color) (ct_name color))) ])
         acc)
    (entries (colors tokens)) [].

Definition json_typography (tokens : DesignTokens) : Dict jsval :=
  fold_left
    (fun acc (kv : jsstring * TypographyToken) =>
       let (key, typo) := kv in
       rset key
         (JObj [ (lit "$type", JStr (lit "typography"));
                 (lit "$value",
                  JObj [ (lit "fontFamily", JStr (tt_fontFamily typo));
                         (lit "fontSize",
                          JStr (Number_toString (tt_fontSize typo)
                                  ++ lit "px"));
                         (lit "fontWeight", JNum (tt_fontWeight typo));
                         (lit "lineHeight",
                          JStr (lineHeight_text (tt_lineHeight typo)));
                         (lit "letterSpacing",
                          JStr (Number_toString (tt_letterSpacing typo)
                                  ++ lit "px")) ]);
                 (lit "$description",
                  JStr (or_else (tt_description typo) (tt_name typo))) ])
         acc)
    (entries (typography tokens)) [].

Definition json_spacing (tokens : DesignTokens) : Dict jsval :=
  fold_left
    (fun acc (kv : jsstring * SpacingToken) =>
       let (key, space) := kv in
       rset key
         (JObj [ (lit "$type", JStr (lit "dimension"));
                 (lit "$value",
                  JStr (Number_toString (st_value space) ++ lit "px"));
                 (lit "$description",
                  JStr (or_else (st_description space) (st_name space))) ])
         acc)
    (entries (spacing tokens)) [].

Definition json_shadow (effect : EffectToken) : jsval :=
  let v := et_value effect in
  JObj [ (lit "$type", JStr (lit "shadow"));
         (lit "$value",
          JObj [ (lit "color",
                  match ev_color v with Some c => JStr c | None => JUndefined
                  end);
                 (lit "offsetX", JStr (template_num (ev_offsetX v) ++ lit "px"));
                 (lit "offsetY", JStr (template_num (ev_offsetY v) ++ lit "px"));
                 (lit "blur", JStr (template_num (ev_blur v) ++ lit "px"));
                 (lit "spread", JStr (template_num (ev_spread v) ++ lit "px")) ]);
         (lit "$description",
          JStr (or_else (et_description effect) (et_name effect))) ].

Definition json_effects (tokens : DesignTokens) : Dict jsval :=
  fold_left
    (fun acc (kv : jsstring * EffectToken) =>
       let (key, effect) := kv in
       match et_type effect with
       | shadow => rset key (json_shadow effect) acc
       | _ => acc
       end)
    (entries (effects tokens)) [].

(** The properties of the object [output] when it is handed to
    [JSON.stringify]. *)
Definition json_output_props (tokens : DesignTokens)
  : list (jsstring * jsval) :=
  let m := metadata tokens in
  [ (lit "$schema",
     JStr (lit "https://design-tokens.github.io/community-group/format/"));
    (lit "$metadata",
     JObj [ (lit "generator", JStr (lit "origin-os-figma-sync"));
            (lit "version", JStr (md_version m));
            (lit "lastSynced", JStr (md_lastSynced m));
            (lit "source",
             JObj [ (lit "type", JStr (lit "figma"));
                    (lit "fileKey",
                     match md_figmaFileKey m with
                     | Some k => JStr k
                     | None => JUndefined
                     end) ]) ]);
    (lit "color", JObj (json_colors tokens));
    (lit "typography", JObj (json_typography tokens));
    (lit "spacing", JObj (json_spacing tokens));
    (lit "effect", JObj (json_effects tokens)) ].

Definition json_output (tokens : DesignTokens) : jsval :=
  JObj (json_output_props tokens).

(** [toJSON], token-transformer.ts lines 263-332. *)
Definition toJSON (tokens : DesignTokens) : jsstring :=
  JSON_stringify2 (json_output tokens).

(* ================================================================== *)
(** ** The specification's wording, as definitions of their own *)

(** "replace every path separator with a hyphen" *)
Definition slashes_to_hyphens (s : jsstring) : jsstring :=
  map (fun c => if is_slash c then hyphen else c) s.

(** "collapse runs of ... to a single hyphen": a member of the class is
    dropped when another one follows it, and becomes a hyphen otherwise. *)
Fixpoint collapse_runs (p : N -> bool) (s : jsstring) : jsstring :=
  match s with
  | [] => []
  | c :: s' =>
      if p c then
        match s' with
        | [] => [hyphen]
        | d :: _ => if p d then collapse_runs p s'
                    else hyphen :: collapse_runs p s'
        end
      else c :: collapse_runs p s'
  end.

(** "strip every character outside [a-z0-9-]" *)
Definition keep_key_chars (s : jsstring) : jsstring := filter is_key_char s.

(** "trim leading/trailing hyphens" *)
Fixpoint strip_leading_hyphens (s : jsstring) : jsstring :=
  match s with
  | [] => []
  | c :: s' => if is_hyphen c then strip_leading_hyphens s' else s
  end.

Fixpoint strip_trailing_hyphens (s : jsstring) : jsstring :=
  match s with
  | [] => []
  | c :: s' =>
      match strip_trailing_hyphens s' with
      | [] => if is_hyphen c then [] else [c]
      | t => c :: t
      end
  end.

Definition canonical_key (name : jsstring) : jsstring :=
  strip_trailing_hyphens
    (strip_leading_hyphens
       (collapse_runs is_hyphen
          (keep_key_chars
             (collapse_runs is_js_space
                (slashes_to_hyphens (toLowerCase name)))))).

(** "zero-padded two-digit hex formatting" of a byte *)
Definition hex_digit (d : Z) : N :=
  if Z.ltb d 10 then Z.to_N (48 + d) else Z.to_N (87 + d).

Definition two_digit_hex (z : Z) : jsstring :=
  [hex_digit (z / 16); hex_digit (z mod 16)].

(** "depth-first pre-order" *)
Fixpoint preorder (node : Node) : list Node :=
  node :: match node_children node with
          | Some children => flat_map preorder children
          | None => []
          end.

(** "any entry in its own style-bindings map has a value equal to the
    target identifier" *)
Definition binds_style (styleId : jsstring) (node : Node) : bool :=
  match node_styles node with
  | Some styles => existsb (fun kv => jsstring_eqb (snd kv) styleId) styles
  | None => false
  end.

(** The fourteen default spacing tokens, written out. *)
Definition default_spacing_token (index : string) (value : Z) (text : string)
  : jsstring * SpacingToken :=
  (lit "space-" ++ lit index,
   {| st_name := lit "Space " ++ lit index;
      st_value := inject_Z value;
      st_description := Some (lit text ++ lit "px spacing unit") |}).

Definition default_spacing : Dict SpacingToken :=
  [ default_spacing_token "0" 0 "0";    default_spacing_token "1" 4 "4";
    default_spacing_token "2" 8 "8";    default_spacing_token "3" 12 "12";
    default_spacing_token "4" 16 "16";   default_spacing_token "5" 20 "20";
    default_spacing_token "6" 24 "24";   default_spacing_token "7" 32 "32";
    default_spacing_token "8" 40 "40";   default_spacing_token "9" 48 "48";
    default_spacing_token "10" 64 "64";  default_spacing_token "11" 80 "80";
    default_spacing_token "12" 96 "96";  default_spacing_token "13" 128 "128" ].

(** "case-insensitively equals" *)
Definition same_name (name : jsstring) (node : Node) : bool :=
  jsstring_eqb (toLowerCase (node_name node)) (toLowerCase name).

(** A variable that [extractColorVariables] turns into a token: its resolved
    type is COLOR and its first mode has a value. *)
Definition writes_color (variable : Variable_) : bool :=
  jsstring_eqb (var_resolvedType variable) (lit "COLOR")
  && match first_mode_value variable with Some _ => true | None => false end.

End Host.


(* ================================================================== *)
(** ** Induction over document trees *)

Section NodeInduction.
Variable P : Node -> Prop.
Hypothesis step :
  forall name styles children fills style effects box,
    match children with
    | Some l => Forall P l
    | None => True
    end ->
    P (mkNode name styles children fills style effects box).

Fixpoint Node_ind' (node : Node) : P node :=
  match node with
  | mkNode name styles children fills style effects box =>
      step name styles children fills style effects box
        (match children
           return match children with Some l => Forall P l | None => True end
         with
         | Some l =>
             (fix all (l : list Node) : Forall P l :=
                match l with
                | [] => Forall_nil P
                | child :: l' => Forall_cons child (Node_ind' child) (all l')
                end) l
         | None => I
         end)
  end.
End NodeInduction.

(* ================================================================== *)
(** ** Auxiliary predicates *)

Definition starts_with (p : N -> bool) (s : jsstring) : bool :=
  match s with
  | [] => false
  | c :: _ => p c
  end.

(** No two hyphens stand next to each other. *)
Fixpoint single_hyphens (s : jsstring) : Prop :=
  match s with
  | [] => True
  | c :: s' =>
      (is_hyphen c = true -> starts_with is_hyphen s' = false)
      /\ single_hyphens s'
  end.

(** Only characters of the class [[a-z0-9-]]. *)
Definition key_chars (s : jsstring) : Prop :=
  Forall (fun c => is_key_char c = true) s.

(** A channel value between 0 and 1. *)
Definition unit_interval (c : Q) : Prop := 0 <= c /\ c <= 1.

(* ================================================================== *)
(** ** Sample documents *)

Definition bare_node (name : string) (styles : option (Dict jsstring))
  (children : option (list Node)) : Node :=
  mkNode (lit name) styles children None None None None.

(** A node bound to style "S:1" below an unbound frame, followed by a
    shallower sibling bound to the same style. *)
Definition deep_match : Node :=
  bare_node "Deep" (Some [(lit "fill", lit "S:1")]) None.

Definition shallow_match : Node :=
  bare_node "Shallow" (Some [(lit "text", lit "S:0"); (lit "fill", lit "S:1")])
    (Some []).

Definition two_matches : Node :=
  bare_node "Page" None
    (Some [bare_node "Frame" (Some []) (Some [deep_match]); shallow_match]).

(* ================================================================== *)
(** ** Malformed style entries *)

Definition has_fill_color (node : Node) : bool :=
  match node_fills node with
  | Some (fill :: _) =>
      match paint_color fill with Some _ => true | None => false end
  | _ => false
  end.

Definition has_first_effect (node : Node) : bool :=
  match node_effects node with
  | Some (_ :: _) => true
  | _ => false
  end.

(** The resolved node lacks what a style of this kind is read from: the
    first fill with a color, the style object, or the first effect. *)
Definition lacks_payload (style : Style) (node : Node) : Prop :=
  (has_type "FILL" style = true -> has_fill_color node = false)
  /\ (has_type "TEXT" style = true -> node_style node = None)
  /\ (has_type "EFFECT" style = true -> has_first_effect node = false).

(** The referenced node cannot be resolved, or it lacks the payload. *)
Definition malformed (fileData : FileData) (style : Style) : Prop :=
  match find (binds_style (style_node_id style))
          (preorder (fd_document fileData)) with
  | None => True
  | Some node => lacks_payload style node
  end.


(* ================================================================== *)
(** ** Text predicates *)

Fixpoint has_prefix (prefix text : jsstring) : bool :=
  match prefix, text with
  | [], _ => true
  | _ :: _, [] => false
  | c :: prefix', d :: text' => N.eqb c d && has_prefix prefix' text'
  end.

(** [needle] occurs somewhere in [text]. *)
Fixpoint is_infix (needle text : jsstring) : bool :=
  has_prefix needle text
  || match text with
     | [] => false
     | _ :: text' => is_infix needle text'
     end.

Definition contains (text needle : jsstring) : Prop :=
  exists before after, text = before ++ needle ++ after.

(** A literal in which every apostrophe stands for a double quote. *)
Definition litq (s : string) : jsstring :=
  map (fun c => if N.eqb c 39 then 34%N else c) (lit s).





(** The Token Set with no token at all. *)
Definition no_tokens (m : Metadata) : DesignTokens :=
  {| colors := @nil _; typography := @nil _; spacing := @nil _;
     effects := @nil _; metadata := m |}.


(** None of the [prefixes] starts the [line]. *)
Definition lacks_prefixes (prefixes : list jsstring) (line : jsstring) : bool :=
  forallb (fun p => negb (has_prefix p line)) prefixes.

Definition sample_metadata : Metadata :=
  mkMetadata (lit "1.0.0") (lit "2024-05-01T09:00:00.000Z")
    (Some (lit "FILEKEY123")) (Some (lit "Design System")).


Section Omission.
Context {host : JsHost}.

(** No line of the CSS, respectively SCSS, output starts with one of the
    [prefixes]. *)
Definition css_omits (prefixes : list jsstring) (tokens : DesignTokens)
  : Prop :=
  Forall (fun line => lacks_prefixes prefixes line = true)
    (toCSSVariables_lines tokens).

Definition scss_omits (prefixes : list jsstring) (tokens : DesignTokens)
  : Prop :=
  Forall (fun line => lacks_prefixes prefixes line = true)
    (toSCSS_lines tokens).

End Omission.


(* ================================================================== *)
(** ** Sample inputs *)

Definition red : FigmaColor := mkFigmaColor 1 0 0 None.
Definition blue : FigmaColor := mkFigmaColor 0 0 1 (Some 1).
Definition black_quarter : FigmaColor := mkFigmaColor 0 0 0 (Some (1 # 4)).

Definition primary_node : Node :=
  mkNode (lit "Primary swatch") (Some [(lit "fill", lit "1:1")]) None
    (Some [mkPaint (Some red) (Some (1 # 2))]) None None
    (Some (mkBoundingBox 0 0 (81 # 2) 40)).

Definition heading_node : Node :=
  mkNode (lit "Heading sample") (Some [(lit "text", lit "1:2")]) None None
    (Some (mkFigmaTextStyle (lit "Inter") 32 700 0 40)) None None.

Definition elevation_node : Node :=
  mkNode (lit "Card") (Some [(lit "effect", lit "1:3")]) None None None
    (Some [mkFigmaEffect (lit "DROP_SHADOW") (Some black_quarter)
             (Some (mkOffset 0 2)) 4 None]) None.

Definition no_fill_node : Node :=
  mkNode (lit "Outline") (Some [(lit "fill", lit "1:4")]) None (Some [])
    None None None.

Definition sample_document : Node :=
  bare_node "Document" None
    (Some [bare_node "Page 1" None
             (Some [primary_node; heading_node; elevation_node;
                    no_fill_node])]).

(** A document whose "SPACING" frame holds children without a bounding
    box. *)
Definition boxless_spacing_file : FileData :=
  mkFileData (lit "Draft")
    (bare_node "Document" None
       (Some [bare_node "SPACING" None
                (Some [bare_node "4" None None; bare_node "8" None None])]))
    None.

Definition primary_variable : Variable_ :=
  mkVariable (lit "COLOR") (lit "Colors/Primary") None
    (Some [(lit "1:0", blue); (lit "1:1", red)]).

Definition sample_file : FileData :=
  mkFileData (lit "Design System") sample_document
    (Some [(lit "VariableID:1:7", primary_variable)]).

Definition primary_style : Style :=
  mkStyle (lit "key-primary") (lit "Colors / Primary") (lit "FILL")
    (Some (lit "Brand color")) (lit "1:1").

Definition heading_style : Style :=
  mkStyle (lit "key-heading") (lit "Heading 1") (lit "TEXT") None (lit "1:2").

Definition elevation_style : Style :=
  mkStyle (lit "key-elevation") (lit "Elevation/1") (lit "EFFECT") None
    (lit "1:3").

(** A fill style whose node has an empty list of fills, and one whose node
    is not in the document. *)
Definition outline_style : Style :=
  mkStyle (lit "key-outline") (lit "Outline") (lit "FILL") None (lit "1:4").

Definition dangling_style : Style :=
  mkStyle (lit "key-gone") (lit "Gone") (lit "FILL") None (lit "9:9").

Definition soft_blur : EffectToken :=
  mkEffectToken (lit "Soft") blur
    (mkEffectValue None (Some 0) (Some 0) (Some 8) (Some 0)) None None.

Definition card_shadow : EffectToken :=
  mkEffectToken (lit "Card") shadow
    (mkEffectValue (Some (lit "rgba(0, 0, 0, 0.25)")) (Some 0) (Some 2)
       (Some 4) (Some 0)) None None.

Definition sample_tokens : DesignTokens :=
  {| colors := @nil _;
     typography := @nil _;
     spacing := @nil _;
     effects := [(lit "soft", soft_blur); (lit "card", card_shadow)];
     metadata := sample_metadata |}.


(* ================================================================== *)
(** ** The shape of a canonical key *)

Fixpoint ends_with_hyphen (s : jsstring) : bool :=
  match s with
  | [] => false
  | c :: s' =>
      match s' with
      | [] => is_hyphen c
      | _ :: _ => ends_with_hyphen s'
      end
  end.

(** Only characters of [[a-z0-9-]], no two hyphens in a row, no hyphen at
    either end. *)
Definition canonical_form (s : jsstring) : Prop :=
  key_chars s
  /\ single_hyphens s
  /\ starts_with is_hyphen s = false
  /\ ends_with_hyphen s = false.


(** A dictionary as the extractors build it: no key twice, every key in
    canonical form. *)
Definition canonical_dict (V : Type) (r : Dict V) : Prop :=
  NoDup (map fst r) /\ Forall (fun kv => canonical_form (fst kv)) r.


Section FontFamilyLoop.
Context {host : JsHost}.

(** One turn of the typography loop of [toTailwindConfig], as far as the
    font families go (token-transformer.ts lines 118-123). *)
Definition fontFamilyStep (fontFamilies : Dict (list jsstring))
  (kv : jsstring * TypographyToken) : Dict (list jsstring) :=
  let (key, typo) := kv in
  let familyKey := slugify (tt_fontFamily typo) in
  if negb (reads_truthy familyKey fontFamilies)
  then rset familyKey [tt_fontFamily typo] fontFamilies
  else fontFamilies.

(** What the loop keeps true of every entry: the key is no inherited
    property name, and the entry holds the family of one of the tokens, under
    the slug of that family. *)
Definition family_entry (all : list (jsstring * TypographyToken))
  (kv : jsstring * list jsstring) : Prop :=
  existsb (jsstring_eqb (fst kv)) object_prototype_names = false
  /\ exists key typo,
       In (key, typo) all
       /\ snd kv = [tt_fontFamily typo]
       /\ fst kv = slugify (tt_fontFamily typo).

End FontFamilyLoop.


(* ================================================================== *)
(** ** The output writer (writers/output-writer.ts) *)

(** What the writer uses of Node.js: [fs.mkdir(dir, {recursive: true})] and
    [fs.writeFile], each with a flag telling whether the promise resolved and
    the file system it leaves; [fs.readFile] ([None] when it rejects);
    [path.dirname]; and the hex MD5 digest of a string. *)
Class NodeHost := {
  fs_state : Type;
  fs_mkdir : fs_state -> jsstring -> bool * fs_state;
  fs_writeFile : fs_state -> jsstring -> jsstring -> bool * fs_state;
  fs_readFile : fs_state -> jsstring -> option jsstring;
  path_dirname : jsstring -> jsstring;
  md5_hex : jsstring -> jsstring
}.

(** A file system in memory, used to run the model: directories always
    exist, a file can be written unless its path is empty, and the digest of
    a string is the string itself. *)
Definition memory_disk : NodeHost :=
  {| fs_state := Dict jsstring;
     fs_mkdir := fun disk _ => (true, disk);
     fs_writeFile := fun disk path content =>
                       match path with
                       | [] => (false, disk)
                       | _ :: _ => (true, rupdate path content disk)
                       end;
     fs_readFile := fun disk path => rget path disk;
     path_dirname := fun _ => lit ".";
     md5_hex := fun content => content |}.

(** The promise returned by [write]: resolved with [true], resolved with
    [false], or rejected. *)
Inductive WriteOutcome := Changed | Unchanged | WriteFailed.

Section Writer.
Context {node : NodeHost}.

(** [hashContent], output-writer.ts lines 53-55. *)
Definition hashContent (content : jsstring) : jsstring := md5_hex content.

(** [write], output-writer.ts lines 18-36; [previousHashes] is the Map held
    by the writer, returned as it is left. *)
Definition write (previousHashes : Dict jsstring) (disk : fs_state)
  (filePath content : jsstring) : WriteOutcome * Dict jsstring * fs_state :=
  let dir := path_dirname filePath in
  let (made, disk1) := fs_mkdir disk dir in
  if negb made then (WriteFailed, previousHashes, disk1)
  else
    let newHash := hashContent content in
    let oldHash := rget filePath previousHashes in
    if match oldHash with
       | Some old => jsstring_eqb old newHash
       | None => false
       end
    then (Unchanged, previousHashes, disk1)
    else
      let (written, disk2) := fs_writeFile disk1 filePath content in
      if negb written then (WriteFailed, previousHashes, disk2)
      else (Changed, rupdate filePath newHash previousHashes, disk2).

(** [loadExistingHash], output-writer.ts lines 41-48. *)
Definition loadExistingHash (previousHashes : Dict jsstring) (disk : fs_state)
  (filePath : jsstring) : Dict jsstring :=
  match fs_readFile disk filePath with
  | Some content => rupdate filePath (hashContent content) previousHashes
  | None => previousHashes
  end.

End Writer.

(* ================================================================== *)
(** ** Fetching and the whole extraction (figma-extractor.ts, lines 20-94) *)

Record FigmaConfig := mkFigmaConfig {
  fileKey : jsstring;
  accessToken : option jsstring;
  useMCP : option bool;
  nodeIds : option (list jsstring);
  stylePrefix : option jsstring
}.

(** The outcome of [fetch] followed by [response.json()]: the request is
    rejected, or a response arrives with its [ok] flag, its status text and
    the parsed body ([None] when parsing rejects). *)
Inductive Fetched (A : Type) :=
| Rejected
| Answered (ok : bool) (statusText : jsstring) (body : option A).

Arguments Rejected {A}.
Arguments Answered {A} ok statusText body.

(** The remote side as one run sees it: the answer to a request, given its
    URL and the value of the X-Figma-Token header, and the reading of the
    clock, [new Date().toISOString()].  The body of the styles endpoint is
    [data.meta?.styles]: [meta] may be missing, and so may [styles]. *)
Record Remote := mkRemote {
  fetch_file : jsstring -> jsstring -> Fetched FileData;
  fetch_styles : jsstring -> jsstring -> Fetched (option (option (list Style)));
  clock : jsstring
}.

Inductive Thrown :=
| ApiError (message : jsstring)
| HostError.

Definition baseUrl : jsstring := lit "https://api.figma.com/v1".

(** [getFileData], figma-extractor.ts lines 61-76. *)
Definition getFileData (remote : Remote) (config : FigmaConfig)
  : Thrown + FileData :=
  match fetch_file remote (baseUrl ++ lit "/files/" ++ fileKey config)
          (or_else (accessToken config) []) with
  | Rejected => inl HostError
  | Answered ok statusText body =>
      if negb ok then inl (ApiError (lit "Figma API error: " ++ statusText))
      else match body with
           | Some data => inr data
           | None => inl HostError
           end
  end.

(** [getStyles], figma-extractor.ts lines 78-94. *)
Definition getStyles (remote : Remote) (config : FigmaConfig)
  : Thrown + list Style :=
  match fetch_styles remote
          (baseUrl ++ lit "/files/" ++ fileKey config ++ lit "/styles")
          (or_else (accessToken config) []) with
  | Rejected => inl HostError
  | Answered ok statusText body =>
      if negb ok then inl (ApiError (lit "Figma API error: " ++ statusText))
      else match body with
           | Some (Some (Some styles)) => inr styles
           | Some _ => inr []
           | None => inl HostError
           end
  end.

Section Extract.
Context {host : JsHost}.

(** [extract], figma-extractor.ts lines 36-59. *)
Definition extract (remote : Remote) (config : FigmaConfig)
  : Thrown + DesignTokens :=
  match getFileData remote config with
  | inl e => inl e
  | inr fileData =>
      match getStyles remote config with
      | inl e => inl e
      | inr styles =>
          let colors := extractColors fileData styles in
          let typography := extractTypography fileData styles in
          let spacing := extractSpacing fileData in
          let effects := extractEffects fileData styles in
          inr {| colors := colors;
                 typography := typography;
                 spacing := spacing;
                 effects := effects;
                 metadata :=
                   {| md_version := lit "1.0.0";
                      md_lastSynced := clock remote;
                      md_figmaFileKey := Some (fileKey config);
                      md_figmaFileName := Some (fd_name fileData) |} |}
      end
  end.

End Extract.

(* ================================================================== *)
(** ** The driver (sync.ts) *)

Record OutputPaths := mkOutputPaths {
  out_css : option jsstring;
  out_tailwind : option jsstring;
  out_json : option jsstring;
  out_scss : option jsstring
}.

Record SyncConfig := mkSyncConfig {
  sc_figma : FigmaConfig;
  sc_output : OutputPaths;
  sc_watch : option bool
}.

(** A destination counts as configured when it is a non-empty string. *)
Definition configured (path : option jsstring) : option jsstring :=
  match path with
  | Some (c :: p) => Some (c :: p)
  | _ => None
  end.

Definition art : jsstring := [55356; 57256]%N.
Definition inbox : jsstring := [55357; 56549]%N.
Definition cycle : jsstring := [55357; 56580]%N.
Definition tick : jsstring := [10003%N].
Definition arrow : jsstring := [8594%N].
Definition done_mark : jsstring := [9989%N].
Definition eyes : jsstring := [55357; 56384]%N.

Section Sync.
Context {host : JsHost} {node : NodeHost}.

(** What a [DesignTokenSync] and its surroundings hold between two awaits:
    the writer's Map, the file system, and the lines given to
    [console.log]. *)
Record SyncState := mkSyncState {
  hashes : Dict jsstring;
  disk : fs_state;
  console : list jsstring
}.

Definition log (line : jsstring) (st : SyncState) : SyncState :=
  {| hashes := hashes st; disk := disk st; console := console st ++ [line] |}.

(** One block [if (output.x) { ...; await write(...); console.log(...) }]:
    [false] when the write rejects. *)
Definition writeOutput (path : option jsstring) (content label : jsstring)
  (st : SyncState) : bool * SyncState :=
  match configured path with
  | Some p =>
      match write (hashes st) (disk st) p content with
      | (WriteFailed, h, d) =>
          (false, {| hashes := h; disk := d; console := console st |})
      | (_, h, d) =>
          (true, log (lit "   " ++ tick ++ lit " " ++ label ++ lit " "
                        ++ arrow ++ lit " " ++ p)
                   {| hashes := h; disk := d; console := console st |})
      end
  | None => (true, st)
  end.

(** The blocks in the order of the source; the first rejected write ends the
    run. *)
Fixpoint writeOutputs (outputs : list (option jsstring * jsstring * jsstring))
  (st : SyncState) : bool * SyncState :=
  match outputs with
  | [] => (true, st)
  | (path, content, label) :: rest =>
      let (ok, st') := writeOutput path content label st in
      if ok then writeOutputs rest st' else (false, st')
  end.

Definition outputs_of (output : OutputPaths) (rawTokens : DesignTokens)
  : list (option jsstring * jsstring * jsstring) :=
  [ (out_css output, toCSSVariables rawTokens, lit "CSS variables");
    (out_tailwind output, toTailwindConfig rawTokens, lit "Tailwind config");
    (out_json output, toJSON rawTokens, lit "JSON tokens");
    (out_scss output, toSCSS rawTokens, lit "SCSS variables") ].

Definition found (count : nat) (what : string) : jsstring :=
  lit "   Found " ++ int_toString (Z.of_nat count) ++ lit " " ++ lit what.

(** [sync], sync.ts lines 38-76: the error it rejects with, if any, and the
    state it leaves. *)
Definition sync (remote : Remote) (config : SyncConfig) (st : SyncState)
  : option Thrown * SyncState :=
  let st := log (art ++ lit " Starting Figma design token sync..." ++ nl) st in
  let st := log (inbox ++ lit " Extracting tokens from Figma...") st in
  match extract remote (sc_figma config) with
  | inl e => (Some e, st)
  | inr rawTokens =>
      let st := log (found (length (keys (colors rawTokens))) "colors") st in
      let st := log (found (length (keys (typography rawTokens)))
                       "typography styles") st in
      let st := log (found (length (keys (spacing rawTokens)))
                       "spacing values") st in
      let st := log (found (length (keys (effects rawTokens))) "effects" ++ nl)
                  st in
      let st := log (cycle ++ lit " Transforming tokens...") st in
      let (ok, st) := writeOutputs (outputs_of (sc_output config) rawTokens)
                        st in
      if ok
      then (None, log (nl ++ done_mark ++ lit " Design token sync complete!") st)
      else (Some HostError, st)
  end.

(** [watch], sync.ts lines 78-82. *)
Definition watch (remote : Remote) (config : SyncConfig) (st : SyncState)
  : option Thrown * SyncState :=
  sync remote config (log (eyes ++ lit " Watching for Figma changes...") st).

(** The directories a run makes when no file is written. *)
Definition mkdirs (paths : list jsstring) (d : fs_state) : fs_state :=
  fold_left (fun d p => snd (fs_mkdir d (path_dirname p))) paths d.

End Sync.


(* ================================================================== *)
(** ** The command line (bin/cli.js) *)

Record Flags := mkFlags {
  flag_watch : bool;
  flag_config : option jsstring;
  flag_help : bool
}.

(** [args.includes(x)]. *)
Definition includes (x : string) (args : list jsstring) : bool :=
  existsb (jsstring_eqb (lit x)) args.

Definition is_config_flag (a : jsstring) : bool :=
  jsstring_eqb a (lit "--config") || jsstring_eqb a (lit "-c").

(** [args[configIndex + 1]] for the first index holding [--config] or [-c],
    when that argument is a non-empty string; cli.js lines 26-30. *)
Fixpoint config_argument (args : list jsstring) : option jsstring :=
  match args with
  | [] => None
  | a :: rest =>
      if is_config_flag a
      then match rest with
           | (c :: v) :: _ => Some (c :: v)
           | _ => None
           end
      else config_argument rest
  end.

(** cli.js lines 18-30. *)
Definition parseFlags (args : list jsstring) : Flags :=
  {| flag_watch := includes "--watch" args || includes "-w" args;
     flag_config := config_argument args;
     flag_help := includes "--help" args || includes "-h" args |}.

(** The [figma] section of a configuration object, where every field may be
    missing. *)
Record FigmaSection := mkFigmaSection {
  fs_fileKey : option jsstring;
  fs_accessToken : option jsstring;
  fs_useMCP : option bool;
  fs_nodeIds : option (list jsstring);
  fs_stylePrefix : option jsstring
}.

(** What a configuration file exports, as far as the driver reads it. *)
Record CustomConfig := mkCustomConfig {
  custom_figma : option FigmaSection;
  custom_output : option OutputPaths
}.

(** The surroundings of the command: two environment variables and, for a
    path, the module exported by the file there when the file exists. *)
Record CliEnv := mkCliEnv {
  FIGMA_FILE_KEY : option jsstring;
  FIGMA_ACCESS_TOKEN : option jsstring;
  config_module : jsstring -> option CustomConfig
}.

(** How the command ends: the help text and exit code 0, the complaint about
    the file key and exit code 1, or a [DesignTokenSync] on which [watch] or
    [sync] is called. *)
Inductive CliOutcome :=
| ShowHelp
| MissingFileKey
| Run (watching : bool) (config : SyncConfig).

Definition default_output : OutputPaths :=
  {| out_css := Some (lit "./tokens/variables.css");
     out_tailwind := Some (lit "./tokens/tailwind.tokens.js");
     out_json := Some (lit "./tokens/tokens.json");
     out_scss := Some (lit "./tokens/_variables.scss") |}.

(** cli.js lines 17-98. *)
Definition cli (args : list jsstring) (env : CliEnv) : CliOutcome :=
  let flags := parseFlags args in
  if flag_help flags then ShowHelp
  else
    let figma := {| fs_fileKey := FIGMA_FILE_KEY env;
                    fs_accessToken := FIGMA_ACCESS_TOKEN env;
                    fs_useMCP := Some true;
                    fs_nodeIds := None;
                    fs_stylePrefix := None |} in
    let configPath := or_else (flag_config flags)
                        (lit "./figma-sync.config.js") in
    let custom := config_module env configPath in
    let figma := match custom with
                 | Some {| custom_figma := Some section |} => section
                 | _ => figma
                 end in
    let output := match custom with
                  | Some {| custom_output := Some paths |} => paths
                  | _ => default_output
                  end in
    match fs_fileKey figma with
    | Some (c :: key) =>
        Run (flag_watch flags)
          {| sc_figma := {| fileKey := c :: key;
                            accessToken := fs_accessToken figma;
                            useMCP := fs_useMCP figma;
                            nodeIds := fs_nodeIds figma;
                            stylePrefix := fs_stylePrefix figma |};
             sc_output := output;
             sc_watch := None |}
    | _ => MissingFileKey
    end.

(** The writes of a list of files, one after the other, whatever their
    outcomes. *)
Definition write_all {node : NodeHost} (files : list (jsstring * jsstring))
  (state : Dict jsstring * fs_state) : Dict jsstring * fs_state :=
  fold_left (fun s file =>
               match write (fst s) (snd s) (fst file) (snd file) with
               | (_, h, d) => (h, d)
               end) files state.


(** The configured destinations of a run, in the order they are written. *)
Definition destinations (output : OutputPaths) : list jsstring :=
  flat_map (fun path => match configured path with
                        | Some p => [p]
                        | None => []
                        end)
    [out_css output; out_tailwind output; out_json output; out_scss output].


(** The configured destinations among a list of output blocks. *)
Definition output_paths (outputs : list (option jsstring * jsstring * jsstring))
  : list jsstring :=
  flat_map (fun o => match configured (fst (fst o)) with
                     | Some p => [p]
                     | None => []
                     end) outputs.


(** A string that QuoteJSONString copies as it is: no control character, no
    double quote, no backslash, no surrogate. *)
Definition json_plain_char (c : N) : bool :=
  N.leb 32 c && negb (N.eqb c 34) && negb (N.eqb c 92) && N.ltb c 55296.


(* ================================================================== *)
(** ** Sample runs *)

(** A file system on which no directory can be made. *)
Definition readonly_disk : NodeHost :=
  {| fs_state := unit;
     fs_mkdir := fun disk _ => (false, disk);
     fs_writeFile := fun disk _ _ => (false, disk);
     fs_readFile := fun _ _ => None;
     path_dirname := fun _ => lit ".";
     md5_hex := fun content => content |}.

Definition heading_alias_style : Style :=
  mkStyle (lit "key-heading-old") (lit "heading / 1") (lit "TEXT") None
    (lit "1:2").

Definition boxed (name : string) (width : Q) : Node :=
  mkNode (lit name) None None None None None
    (Some (mkBoundingBox 0 0 width width)).

(** A document with a frame named "spacing" that holds two boxes and a
    label. *)
Definition spacing_file : FileData :=
  mkFileData (lit "Scale")
    (bare_node "Document" None
       (Some [bare_node "spacing" None
                (Some [boxed "Base/4" 4; bare_node "label" None None;
                       boxed "Base/8" (33 # 4)])]))
    None.

Definition inter_heading : TypographyToken :=
  mkTypographyToken (lit "Heading 1") (lit "Inter") 32 700 (LhNumber 40) 0
    None None.

Definition inter_body : TypographyToken :=
  mkTypographyToken (lit "Body") (lit "INTER") 16 400 (LhKeyword (lit "normal"))
    0 None None.

Definition type_tokens : DesignTokens :=
  {| colors := @nil _;
     typography := [(lit "heading-1", inter_heading); (lit "body", inter_body)];
     spacing := @nil _;
     effects := @nil _;
     metadata := sample_metadata |}.

Definition sample_figma_config : FigmaConfig :=
  mkFigmaConfig (lit "FILEKEY123") (Some (lit "figd_token")) (Some true) None
    None.

Definition filtered_figma_config : FigmaConfig :=
  mkFigmaConfig (lit "FILEKEY123") (Some (lit "figd_token")) None
    (Some [lit "1:2"]) (Some (lit "origin/")).

Definition sample_remote : Remote :=
  {| fetch_file := fun _ _ => Answered true (lit "OK") (Some sample_file);
     fetch_styles := fun _ _ =>
                       Answered true (lit "OK")
                         (Some (Some (Some [primary_style; heading_style;
                                            elevation_style])));
     clock := lit "2024-05-01T09:00:00.000Z" |}.

Definition forbidden_remote : Remote :=
  {| fetch_file := fun _ _ => Answered false (lit "Forbidden") None;
     fetch_styles := fun _ _ => Rejected;
     clock := lit "2024-05-01T09:00:00.000Z" |}.

Definition bare_remote : Remote :=
  {| fetch_file := fun _ _ => Answered true (lit "OK") (Some sample_file);
     fetch_styles := fun _ _ => Answered true (lit "OK") (Some (Some None));
     clock := lit "2024-05-01T09:00:00.000Z" |}.

Definition sample_sync_config : SyncConfig :=
  {| sc_figma := sample_figma_config;
     sc_output := {| out_css := Some (lit "tokens/variables.css");
                     out_tailwind := None;
                     out_json := Some (lit "tokens/tokens.json");
                     out_scss := Some [] |};
     sc_watch := None |}.

Definition sample_extracted : DesignTokens :=
  match extract (host := plain_host) sample_remote sample_figma_config with
  | inr tokens => tokens
  | inl _ => no_tokens sample_metadata
  end.

Definition fresh_memory : SyncState (node := memory_disk) :=
  @mkSyncState memory_disk [] (@nil (jsstring * jsstring)) [].

Definition fresh_readonly : SyncState (node := readonly_disk) :=
  @mkSyncState readonly_disk [] tt [].

Definition file_section : FigmaSection :=
  mkFigmaSection None None None (Some [lit "1:2"]) None.

Definition sample_env : CliEnv :=
  {| FIGMA_FILE_KEY := Some (lit "FILEKEY123");
     FIGMA_ACCESS_TOKEN := None;
     config_module := fun path =>
                        if jsstring_eqb path (lit "./figma-sync.config.js")
                        then Some (mkCustomConfig (Some file_section) None)
                        else None |}.


(* ================================================================== *)
(** ** The product against the binary64 arithmetic of the machine *)

Definition float_value (f : PrimFloat.float) : option binary64 :=
  match FloatOps.Prim2SF f with
  | SpecFloat.S754_zero _ => Some (Finite 0)
  | SpecFloat.S754_finite negative m e =>
      Some (Finite (Qred ((if negative then -1 else 1)
                          * inject_Z (Zpos m) * 2 ^ e)))
  | SpecFloat.S754_infinity negative => Some (Infinity negative)
  | SpecFloat.S754_nan => None
  end.

Definition same_binary64 (a b : binary64) : bool :=
  match a, b with
  | Finite x, Finite y => Qeq_bool x y
  | Infinity s, Infinity t => Bool.eqb s t
  | _, _ => false
  end.

Definition product_agrees (ab : PrimFloat.float * PrimFloat.float) : bool :=
  match float_value (fst ab), float_value (snd ab),
        float_value (PrimFloat.mul (fst ab) (snd ab)) with
  | Some (Finite x), Some (Finite y), Some p => same_binary64 (fmul x y) p
  | _, _, _ => false
  end.

(** The pairs on which the product is compared with the machine: channels
    against 255, operands over the whole exponent range, pairs of
    unit-interval values, products that lie exactly half-way between two
    binary64 values (normal and subnormal), and products beyond the largest
    finite value. *)

(** A linear congruential sequence of 64-bit integers. *)
Definition next_seed (s : Z) : Z :=
  ((s * 6364136223846793005 + 1442695040888963407) mod 2 ^ 64)%Z.

Fixpoint seeds (n : nat) (s : Z) : list Z :=
  match n with
  | O => []
  | S n' => s :: seeds n' (next_seed s)
  end.

Definition float_of_Z (z : Z) : PrimFloat.float :=
  PrimFloat.of_uint63 (Uint63.of_Z z).

(** A binary64 value of the unit interval. *)
Definition unit_float (z : Z) : PrimFloat.float :=
  PrimFloat.div (float_of_Z (z mod 2 ^ 62)) (float_of_Z (2 ^ 62 - 1)).

(** A finite binary64 value with any sign and any exponent. *)
Definition wide_float (z : Z) : PrimFloat.float :=
  FloatOps.SF2Prim
    (SpecFloat.S754_finite (Z.odd (z / 2 ^ 60))
       (Z.to_pos (2 ^ 52 + z mod 2 ^ 52))
       ((z / 2 ^ 52) mod 2046 - 1074)%Z).

Definition product_samples : list (PrimFloat.float * PrimFloat.float) :=
  map (fun z => (unit_float z, float_of_Z 255)) (seeds 1000 12345)
  ++ map (fun z => (wide_float z, wide_float (next_seed (next_seed z))))
       (seeds 300 777)
  ++ map (fun z => (unit_float z, unit_float (next_seed (next_seed z))))
       (seeds 300 99)
  ++ map (fun j => (float_of_Z 3, float_of_Z (2 ^ 52 + 2 * Z.of_nat j + 1)))
       (seq 0 200)
  ++ map (fun j => (FloatOps.SF2Prim
                      (SpecFloat.S754_finite false
                         (Z.to_pos (2 * Z.of_nat j + 1)) (-1074)),
                    PrimFloat.div (float_of_Z 1) (float_of_Z 2)))
       (seq 0 200)
  ++ [ (FloatOps.SF2Prim (SpecFloat.S754_finite false 282578800148737 (-57)),
        float_of_Z 255);
       (FloatOps.SF2Prim
          (SpecFloat.S754_finite false (2 ^ 53 - 1) 971),
        FloatOps.SF2Prim (SpecFloat.S754_finite false (2 ^ 52 + 1) (-52)));
       (FloatOps.SF2Prim
          (SpecFloat.S754_finite true (2 ^ 53 - 1) 971),
        float_of_Z 255) ].

(* ================================================================== *)
(** ** Further sample inputs *)

(** The sample document without variables. *)
Definition styles_only_file : FileData :=
  mkFileData (lit "Design System") sample_document None.

Definition styles_only_tokens : DesignTokens :=
  {| colors := extractColors (host := plain_host) styles_only_file
                 ([heading_style] ++ primary_style
                    :: [outline_style; dangling_style]);
     typography := @nil _;
     spacing := @nil _;
     effects := @nil _;
     metadata := sample_metadata |}.

(** A second node with an effect, and two effect styles whose names
    tokenize to the key of [elevation_style]: one bound to that node, one
    bound to no node. *)
Definition frosted_node : Node :=
  mkNode (lit "Frosted panel") (Some [(lit "effect", lit "1:5")]) None None
    None (Some [mkFigmaEffect (lit "LAYER_BLUR") None None 8 None]) None.

Definition effects_file : FileData :=
  mkFileData (lit "Effects")
    (bare_node "Document" None (Some [elevation_node; frosted_node])) None.

Definition elevation_alias_style : Style :=
  mkStyle (lit "key-frosted") (lit "elevation / 1") (lit "EFFECT") None
    (lit "1:5").

Definition elevation_gone_style : Style :=
  mkStyle (lit "key-elevation-gone") (lit "Elevation 1") (lit "EFFECT") None
    (lit "9:9").


(** A color variable without any mode value, and a second variable with the
    key of [primary_variable]; each in a file with the sample document. *)
Definition valueless_variable : Variable_ :=
  mkVariable (lit "COLOR") (lit "Colors/Primary") None (Some []).

Definition valueless_file : FileData :=
  mkFileData (lit "Design System") sample_document
    (Some [(lit "VariableID:1:8", valueless_variable)]).

Definition late_variable : Variable_ :=
  mkVariable (lit "COLOR") (lit "colors primary") None
    (Some [(lit "1:0", red)]).

Definition two_variables_file : FileData :=
  mkFileData (lit "Design System") sample_document
    (Some [(lit "VariableID:1:7", primary_variable);
           (lit "VariableID:1:9", late_variable)]).


(* ================================================================== *)
(** ** What a run reports, and the configuration the command line merges *)

(** The line a configured destination adds to the console once its write has
    not been rejected (sync.ts lines 54, 60, 66 and 72). *)
Definition reported (path : option jsstring) (label : jsstring)
  : list jsstring :=
  match configured path with
  | Some p => [lit "   " ++ tick ++ lit " " ++ label ++ lit " " ++ arrow
                 ++ lit " " ++ p]
  | None => []
  end.

(** The [figma] section of [{ ...config, ...customConfig }] (cli.js lines
    57-76): the section of the configuration module when the file exists and
    has one, the section built from the environment otherwise. *)
Definition merged_figma (args : list jsstring) (env : CliEnv) : FigmaSection :=
  match config_module env (or_else (flag_config (parseFlags args))
                             (lit "./figma-sync.config.js")) with
  | Some {| custom_figma := Some section |} => section
  | _ => {| fs_fileKey := FIGMA_FILE_KEY env;
            fs_accessToken := FIGMA_ACCESS_TOKEN env;
            fs_useMCP := Some true;
            fs_nodeIds := None;
            fs_stylePrefix := None |}
  end.

(** A configuration whose first destination is unset, and one whose first two
    are. *)
Definition no_css_config : SyncConfig :=
  {| sc_figma := sample_figma_config;
     sc_output := {| out_css := None;
                     out_tailwind := Some (lit "tokens/tailwind.tokens.js");
                     out_json := Some (lit "tokens/tokens.json");
                     out_scss := Some (lit "tokens/_variables.scss") |};
     sc_watch := None |}.

Definition json_first_config : SyncConfig :=
  {| sc_figma := sample_figma_config;
     sc_output := {| out_css := Some [];
                     out_tailwind := None;
                     out_json := Some (lit "tokens/tokens.json");
                     out_scss := Some (lit "tokens/_variables.scss") |};
     sc_watch := None |}.


(* ################################################################## *)
(** * Properties *)

(* ================================================================== *)
(** ** Canonical keys *)

Section Tokenize.
Context {host : JsHost}.

Lemma replace_each_slash (s : jsstring) :
  replace_each is_slash [hyphen] s = slashes_to_hyphens s.
Proof.
  induction s as [|c s IH]; simpl; [reflexivity|].
  rewrite IH. destruct (is_slash c); reflexivity.
Qed.

Lemma replace_each_strip (s : jsstring) :
  replace_each (fun c => negb (is_key_char c)) [] s = keep_key_chars s.
Proof.
  induction s as [|c s IH]; simpl; [reflexivity|].
  rewrite IH. destruct (is_key_char c); reflexivity.
Qed.

Lemma replace_runs_from_collapse (p : N -> bool) (s : jsstring) :
  replace_runs_from false p [hyphen] s = collapse_runs p s
  /\ (if starts_with p s then [hyphen] else [])
       ++ replace_runs_from true p [hyphen] s = collapse_runs p s.
Proof.
  induction s as [|c s [IHf IHt]]; simpl; [split; reflexivity|].
  assert (E : p c = true ->
              hyphen :: replace_runs_from true p [hyphen] s
              = match s with
                | [] => [hyphen]
                | d :: _ => if p d then collapse_runs p s
                            else hyphen :: collapse_runs p s
                end).
  { intros _. destruct s as [|d s]; [reflexivity|].
    simpl in IHt. simpl. destruct (p d); simpl in *.
    - exact IHt.
    - rewrite IHt. reflexivity. }
  destruct (p c) eqn:Hc; simpl.
  - split; apply E; reflexivity.
  - rewrite IHf. split; reflexivity.
Qed.

Lemma replace_runs_collapse (p : N -> bool) (s : jsstring) :
  replace_runs p [hyphen] s = collapse_runs p s.
Proof. apply replace_runs_from_collapse. Qed.

Lemma collapse_runs_start (p : N -> bool) (s : jsstring) :
  starts_with is_hyphen (collapse_runs p s)
  = match s with
    | [] => false
    | c :: _ => if p c then true else is_hyphen c
    end.
Proof.
  destruct s as [|c s]; simpl; [reflexivity|].
  destruct (p c) eqn:Hc; simpl; [|reflexivity].
  revert c Hc. induction s as [|d s IH]; intros c Hc; simpl; [reflexivity|].
  destruct (p d) eqn:Hd; simpl; [|reflexivity].
  destruct s as [|e s]; [reflexivity|].
  specialize (IH d Hd). simpl in IH. exact IH.
Qed.

Lemma collapse_hyphens_single (s : jsstring) :
  single_hyphens (collapse_runs is_hyphen s).
Proof.
  induction s as [|c s IH]; simpl; [exact I|].
  destruct (is_hyphen c) eqn:Hc.
  - destruct s as [|d s].
    + simpl. split; [reflexivity | exact I].
    + destruct (is_hyphen d) eqn:Hd.
      * exact IH.
      * cbn [single_hyphens]. split; [|exact IH]. intros _.
        rewrite collapse_runs_start, Hd. reflexivity.
  - cbn [single_hyphens]. split; [|exact IH]. rewrite Hc. discriminate.
Qed.

Lemma drop_final_hyphen_strip (s : jsstring) :
  single_hyphens s -> drop_final_hyphen s = strip_trailing_hyphens s.
Proof.
  induction s as [|c s IH]; [reflexivity|].
  intros [Hc Hs]. specialize (IH Hs).
  destruct s as [|d s]; [reflexivity|].
  change (drop_final_hyphen (c :: d :: s)) with (c :: drop_final_hyphen (d :: s)).
  change (strip_trailing_hyphens (c :: d :: s))
    with (match strip_trailing_hyphens (d :: s) with
          | [] => if is_hyphen c then [] else [c]
          | t => c :: t
          end).
  rewrite <- IH.
  destruct (drop_final_hyphen (d :: s)) as [|x t] eqn:E; [|reflexivity].
  destruct (is_hyphen c) eqn:Hcc; [|reflexivity].
  exfalso. specialize (Hc eq_refl). simpl in Hc.
  destruct s as [|e s]; simpl in E.
  - rewrite Hc in E. discriminate.
  - discriminate.
Qed.

Lemma replace_edge_hyphens_strip (s : jsstring) :
  single_hyphens s ->
  replace_edge_hyphens s = strip_trailing_hyphens (strip_leading_hyphens s).
Proof.
  destruct s as [|c s]; [reflexivity|].
  intros H. pose proof H as [Hc Hs]. unfold replace_edge_hyphens.
  simpl strip_leading_hyphens.
  destruct (is_hyphen c) eqn:Hcc.
  - specialize (Hc eq_refl).
    assert (E : strip_leading_hyphens s = s).
    { destruct s as [|d s]; [reflexivity|]. simpl in *. rewrite Hc. reflexivity. }
    rewrite E. apply drop_final_hyphen_strip. exact Hs.
  - apply drop_final_hyphen_strip. exact H.
Qed.

Lemma tokenizeName_canonical (name : jsstring) :
  tokenizeName name = canonical_key name.
Proof.
  unfold tokenizeName, canonical_key.
  rewrite replace_each_slash, !replace_runs_collapse, replace_each_strip.
  apply replace_edge_hyphens_strip, collapse_hyphens_single.
Qed.

(** C1.  The canonical key derivation [tokenizeName] is the composition the
    specification describes: lower-case the name, turn every slash into a
    hyphen, collapse every run of whitespace to one hyphen, drop every
    character outside a-z, 0-9 and the hyphen, collapse runs of hyphens and
    strip the hyphens at both ends.  "Colors/Primary/500" gives
    "colors-primary-500" and "  Heading   1 " gives "heading-1".  The
    embedding is a total function of the name alone, hence pure and
    deterministic. *)
Theorem tokenizeName_is_canonical_key :
  (forall name : jsstring, tokenizeName name = canonical_key name)
  /\ tokenizeName (lit "Colors/Primary/500") = lit "colors-primary-500"
  /\ tokenizeName (lit "  Heading   1 ") = lit "heading-1".
Proof.
  split; [exact tokenizeName_canonical|].
  split; vm_compute; reflexivity.
Qed.

Lemma collapse_hyphens_key_chars (s : jsstring) :
  key_chars s -> key_chars (collapse_runs is_hyphen s).
Proof.
  unfold key_chars.
  induction s as [|c s IH]; intros H; [constructor|].
  inversion H as [|? ? Hc Hs]; subst. specialize (IH Hs).
  cbn [collapse_runs].
  destruct (is_hyphen c).
  - destruct s as [|d s]; [repeat constructor|].
    destruct (is_hyphen d); [exact IH|]. constructor; [reflexivity | exact IH].
  - constructor; assumption.
Qed.

Lemma strip_leading_key_chars (s : jsstring) :
  key_chars s -> key_chars (strip_leading_hyphens s).
Proof.
  unfold key_chars.
  induction s as [|c s IH]; intros H; [constructor|].
  inversion H; subst. simpl. destruct (is_hyphen c); auto.
Qed.

Lemma strip_trailing_key_chars (s : jsstring) :
  key_chars s -> key_chars (strip_trailing_hyphens s).
Proof.
  unfold key_chars.
  induction s as [|c s IH]; intros H; [constructor|].
  inversion H as [|? ? Hc Hs]; subst. specialize (IH Hs). simpl.
  destruct (strip_trailing_hyphens s).
  - destruct (is_hyphen c); repeat constructor; assumption.
  - constructor; assumption.
Qed.

Lemma tokenizeName_key_chars (name : jsstring) :
  key_chars (tokenizeName name).
Proof.
  rewrite tokenizeName_canonical. unfold canonical_key.
  apply strip_trailing_key_chars, strip_leading_key_chars,
    collapse_hyphens_key_chars.
  unfold keep_key_chars, key_chars. apply Forall_forall.
  intros c Hc. apply filter_In in Hc. apply Hc.
Qed.

Lemma tokenizeName_not_proto (name : jsstring) :
  jsstring_eqb (tokenizeName name) proto_key = false.
Proof.
  unfold jsstring_eqb.
  destruct (list_eq_dec N.eq_dec (tokenizeName name) proto_key) as [E|];
    [|reflexivity].
  pose proof (tokenizeName_key_chars name) as H. rewrite E in H.
  inversion H as [|? ? Hc _]. vm_compute in Hc. discriminate.
Qed.

End Tokenize.

(* ================================================================== *)
(** ** Dictionaries *)

Lemma jsstring_eqb_eq (a b : jsstring) : jsstring_eqb a b = true <-> a = b.
Proof.
  unfold jsstring_eqb. destruct (list_eq_dec N.eq_dec a b); split;
    congruence.
Qed.

Lemma jsstring_eqb_refl (a : jsstring) : jsstring_eqb a a = true.
Proof. apply jsstring_eqb_eq. reflexivity. Qed.

Lemma jsstring_eqb_neq (a b : jsstring) : jsstring_eqb a b = false <-> a <> b.
Proof.
  unfold jsstring_eqb. destruct (list_eq_dec N.eq_dec a b); split;
    congruence.
Qed.

Section RecordFacts.
Variable V : Type.
Implicit Types (r : Dict V) (k : jsstring) (v : V).

Lemma rget_rupdate_same k v r : rget k (rupdate k v r) = Some v.
Proof.
  induction r as [|[k' v'] r IH]; simpl.
  - rewrite jsstring_eqb_refl. reflexivity.
  - destruct (jsstring_eqb k' k) eqn:E; simpl; rewrite E; auto.
Qed.

Lemma rget_rupdate_other k k' v r :
  k <> k' -> rget k (rupdate k' v r) = rget k r.
Proof.
  intros Hk. induction r as [|[k0 v0] r IH]; simpl.
  - apply jsstring_eqb_neq in Hk.
    destruct (jsstring_eqb k' k) eqn:E; [|reflexivity].
    apply jsstring_eqb_eq in E. apply jsstring_eqb_neq in Hk. congruence.
  - destruct (jsstring_eqb k0 k') eqn:E; simpl.
    + apply jsstring_eqb_eq in E. subst k0.
      destruct (jsstring_eqb k' k) eqn:E'; [|reflexivity].
      apply jsstring_eqb_eq in E'. congruence.
    + rewrite IH. reflexivity.
Qed.

Lemma rget_rset_same k v r :
  jsstring_eqb k proto_key = false -> rget k (rset k v r) = Some v.
Proof. intros H. unfold rset. rewrite H. apply rget_rupdate_same. Qed.

Lemma rget_rset_other k k' v r :
  k <> k' -> rget k (rset k' v r) = rget k r.
Proof.
  intros H. unfold rset. destruct (jsstring_eqb k' proto_key); [reflexivity|].
  apply rget_rupdate_other. exact H.
Qed.

Lemma rget_In k v r : rget k r = Some v -> In (k, v) r.
Proof.
  induction r as [|[k' v'] r IH]; simpl; [discriminate|].
  destruct (jsstring_eqb k' k) eqn:E.
  - apply jsstring_eqb_eq in E. intros [= ->]. left. congruence.
  - intros H. right. auto.
Qed.

Lemma In_rget k v r :
  NoDup (map fst r) -> In (k, v) r -> rget k r = Some v.
Proof.
  induction r as [|[k' v'] r IH]; simpl; [contradiction|].
  intros Hnd [E|Hin]; inversion Hnd as [|? ? Hk Hr]; subst.
  - inversion E; subst. rewrite jsstring_eqb_refl. reflexivity.
  - destruct (jsstring_eqb k' k) eqn:E.
    + apply jsstring_eqb_eq in E. subst k'. exfalso. apply Hk.
      apply (in_map fst) in Hin. exact Hin.
    + auto.
Qed.

Lemma insert_index_perm (x : N * (jsstring * V)) l :
  Permutation (insert_index x l) (x :: l).
Proof.
  induction l as [|y l IH]; simpl; [reflexivity|].
  destruct (N.leb (fst x) (fst y)); [reflexivity|].
  rewrite IH. apply perm_swap.
Qed.

Lemma entries_perm r : Permutation (entries r) r.
Proof.
  unfold entries. induction r as [|[k v] r IH]; simpl; [reflexivity|].
  unfold is_array_index. simpl.
  destruct (array_index k) as [i|]; simpl.
  - rewrite insert_index_perm. simpl. apply perm_skip. exact IH.
  - rewrite <- Permutation_middle. apply perm_skip. exact IH.
Qed.

Lemma In_entries x r : In x (entries r) <-> In x r.
Proof.
  split; apply Permutation_in; [|symmetry]; apply entries_perm.
Qed.

Lemma keys_length r : length (keys r) = length r.
Proof.
  unfold keys. rewrite length_map.
  apply Permutation_length, entries_perm.
Qed.

Lemma entries_NoDup r : NoDup (map fst r) -> NoDup (map fst (entries r)).
Proof.
  apply Permutation_NoDup. apply Permutation_map. symmetry.
  apply entries_perm.
Qed.

Lemma entries_nil : entries (@nil (jsstring * V)) = [].
Proof. reflexivity. Qed.

Lemma section_nil (body : list jsstring) : section (@nil (jsstring * V)) body = [].
Proof. reflexivity. Qed.

Lemma section_cons x r (body : list jsstring) : section (x :: r) body = body.
Proof. unfold section. rewrite keys_length. reflexivity. Qed.

End RecordFacts.

(* ================================================================== *)
(** ** Hex conversion of colors *)

Lemma Math_round_nearest (x : Q) :
  x - (1 # 2) < inject_Z (Math_round x) /\ inject_Z (Math_round x) <= x + (1 # 2).
Proof.
  unfold Math_round. split.
  - pose proof (Qlt_floor (x + (1 # 2))) as H.
    rewrite inject_Z_plus in H. change (inject_Z 1) with 1 in H. lra.
  - apply Qfloor_le.
Qed.

Lemma Math_round_half (k : Z) : Math_round (inject_Z k + (1 # 2)) = (k + 1)%Z.
Proof.
  unfold Math_round.
  assert (E : inject_Z k + (1 # 2) + (1 # 2) == inject_Z (k + 1)).
  { rewrite inject_Z_plus. change (inject_Z 1) with 1. lra. }
  rewrite (Qfloor_comp _ _ E). apply Qfloor_Z.
Qed.

Lemma two_not_zero : ~ 2 == 0.
Proof. intros H. discriminate H. Qed.

Lemma pow2_pos (k : Z) : 0 < 2 ^ k.
Proof. apply Qpower_0_lt. reflexivity. Qed.

Lemma pow2_inject (k : Z) : (0 <= k)%Z -> inject_Z (2 ^ k) == 2 ^ k.
Proof. intros H. rewrite Zpower_Qpower by exact H. reflexivity. Qed.

Lemma pow2_cancel (e : Z) : 2 ^ (- e) * 2 ^ e == 1.
Proof.
  rewrite <- Qpower_plus by exact two_not_zero.
  replace (- e + e)%Z with 0%Z by lia. reflexivity.
Qed.

Lemma Qlog2_low (x : Q) : 0 < x -> 2 ^ Qlog2 x <= x.
Proof.
  intros Hx. unfold Qlog2.
  set (a := Z.log2 (Qnum x)). set (b := Z.log2 (Zpos (Qden x))).
  destruct (Qle_bool (2 ^ (a - b)) x) eqn:E.
  - apply Qle_bool_iff. exact E.
  - assert (Hn : (0 < Qnum x)%Z).
    { destruct x as [n d]. unfold Qlt in Hx. simpl in *. lia. }
    assert (Ha : (0 <= a)%Z) by apply Z.log2_nonneg.
    assert (Hb : (0 <= b)%Z) by apply Z.log2_nonneg.
    destruct (Z.log2_spec (Qnum x) Hn) as [La _]. fold a in La.
    destruct (Z.log2_spec (Zpos (Qden x)) eq_refl) as [_ Lb]. fold b in Lb.
    replace (a - b - 1)%Z with (a - (b + 1))%Z by lia.
    rewrite Qpower_minus by exact two_not_zero.
    rewrite <- !pow2_inject by lia.
    apply Qle_shift_div_r.
    { rewrite pow2_inject by lia. apply pow2_pos. }
    destruct x as [n d]. simpl in *.
    unfold Qle, Qmult, inject_Z. simpl.
    rewrite !Z.mul_1_r.
    assert (Hd : (Z.pos d <= 2 ^ (b + 1))%Z) by lia.
    assert (H2 : (0 < 2 ^ a)%Z) by (apply Z.pow_pos_nonneg; lia).
    nia.
Qed.

Lemma round_half_even_le (q : Q) (n : Z) :
  q <= inject_Z n -> (round_half_even q <= n)%Z.
Proof.
  intros H. unfold round_half_even.
  assert (F : (Qfloor q <= n)%Z).
  { rewrite <- (Qfloor_Z n). apply Qfloor_resp_le. exact H. }
  destruct (Z.eq_dec (Qfloor q) n) as [E|E].
  - assert (L : q - inject_Z (Qfloor q) < 1 # 2).
    { rewrite E. lra. }
    rewrite (proj1 (Qlt_alt _ _) L). exact F.
  - destruct (Qcompare _ _); [destruct (Z.even _)| |]; lia.
Qed.

Lemma round_half_even_nonneg (q : Q) : 0 <= q -> (0 <= round_half_even q)%Z.
Proof.
  intros H. unfold round_half_even.
  assert (F : (0 <= Qfloor q)%Z).
  { change 0%Z with (Qfloor 0). apply Qfloor_resp_le. exact H. }
  destruct (Qcompare _ _); [destruct (Z.even _)| |]; lia.
Qed.

Lemma ulp_exponent_small (x : Q) (n : Z) :
  0 < x -> x <= inject_Z n -> (n < 2 ^ 53)%Z -> (ulp_exponent x <= 0)%Z.
Proof.
  intros Hx Hn Hb. unfold ulp_exponent.
  assert (L : (Qlog2 x < 53)%Z).
  { apply (Qpower_lt_compat_l_inv 2); [|reflexivity].
    apply Qle_lt_trans with x; [apply Qlog2_low; exact Hx|].
    apply Qle_lt_trans with (inject_Z n); [exact Hn|].
    rewrite <- pow2_inject by lia. rewrite <- Zlt_Qlt. exact Hb. }
  lia.
Qed.

(** Rounding to binary64 never crosses an integer below 2^53: such an
    integer is itself a binary64 value. *)
Lemma round64_magnitude_le (x : Q) (n : Z) :
  0 < x -> x <= inject_Z n -> (n < 2 ^ 53)%Z ->
  exists v, round64_magnitude x = Some v /\ 0 <= v /\ v <= inject_Z n.
Proof.
  intros Hx Hn Hb.
  pose proof (ulp_exponent_small Hx Hn Hb) as He.
  unfold round64_magnitude.
  set (e := ulp_exponent x) in *.
  set (m := round_half_even (x * 2 ^ (- e))).
  assert (P : 0 < 2 ^ e) by apply pow2_pos.
  assert (P' : 0 < 2 ^ (- e)) by apply pow2_pos.
  assert (M0 : (0 <= m)%Z).
  { apply round_half_even_nonneg. apply Qmult_le_0_compat; lra. }
  assert (M1 : (m <= n * 2 ^ (- e))%Z).
  { apply round_half_even_le. rewrite inject_Z_mult, pow2_inject by lia.
    apply Qmult_le_compat_r; lra. }
  assert (V0 : 0 <= inject_Z m * 2 ^ e).
  { apply Qmult_le_0_compat; [|lra].
    change 0 with (inject_Z 0). rewrite <- Zle_Qle. exact M0. }
  assert (V1 : inject_Z m * 2 ^ e <= inject_Z n).
  { apply Qle_trans with (inject_Z (n * 2 ^ (- e)) * 2 ^ e).
    - apply Qmult_le_compat_r; [|lra]. rewrite <- Zle_Qle. exact M1.
    - rewrite inject_Z_mult, pow2_inject by lia.
      rewrite <- Qmult_assoc, pow2_cancel. lra. }
  assert (O : Qle_bool (2 ^ 1024) (inject_Z m * 2 ^ e) = false).
  { destruct (Qle_bool _ _) eqn:E; [|reflexivity].
    apply Qle_bool_iff in E. exfalso.
    assert (B : inject_Z n < 2 ^ 1024).
    { apply Qlt_trans with (inject_Z (2 ^ 53)).
      - rewrite <- Zlt_Qlt. exact Hb.
      - vm_compute. reflexivity. }
    lra. }
  rewrite O. eexists. split; [reflexivity|]. rewrite Qred_correct.
  split; assumption.
Qed.

Lemma round64_le (x : Q) (n : Z) :
  0 <= x -> x <= inject_Z n -> (n < 2 ^ 53)%Z ->
  exists v, round64 x = Finite v /\ 0 <= v /\ v <= inject_Z n.
Proof.
  intros H0 Hn Hb. unfold round64.
  destruct (Qcompare x 0) eqn:C.
  - apply Qeq_alt in C. exists 0. split; [reflexivity|]. lra.
  - apply Qlt_alt in C. lra.
  - apply Qgt_alt in C.
    destruct (round64_magnitude_le C Hn Hb) as (v & -> & V).
    exists v. split; [reflexivity|exact V].
Qed.

(** The binary64 product of a unit-interval channel and 255 rounds to a
    byte. *)
Lemma channel_byte (c : Q) :
  unit_interval c ->
  exists z, Math_round_of (fmul c 255) = Whole z /\ (0 <= z <= 255)%Z.
Proof.
  intros [H0 H1]. unfold fmul.
  destruct (@round64_le (c * 255) 255) as (v & -> & V0 & V1).
  - lra.
  - change (inject_Z 255) with 255. lra.
  - reflexivity.
  - exists (Math_round v). split; [reflexivity|].
    change (inject_Z 255) with 255 in V1. unfold Math_round. split.
    + change 0%Z with (Qfloor 0). apply Qfloor_resp_le. lra.
    + change 255%Z with (Qfloor (255 + (1 # 2))). apply Qfloor_resp_le. lra.
Qed.

Lemma hex_byte_two_digits {host : JsHost} (z : Z) :
  (0 <= z <= 255)%Z -> hex_byte (Whole z) = two_digit_hex z.
Proof.
  intros Hz.
  assert (All : forallb (fun n => jsstring_eqb (hex_byte (Whole (Z.of_nat n)))
                                    (two_digit_hex (Z.of_nat n)))
                  (seq 0 256) = true) by (vm_compute; reflexivity).
  rewrite forallb_forall in All.
  specialize (All (Z.to_nat z)).
  rewrite Z2Nat.id in All by lia.
  apply jsstring_eqb_eq, All, in_seq. lia.
Qed.

(** The product of the source agrees with the binary64 multiplication of the
    machine on every sampled pair: channels against 255, operands over the
    whole exponent range (with overflow, underflow and subnormal results),
    pairs of unit-interval values, and ties. *)
Lemma fmul_agrees_with_machine_product :
  forallb product_agrees product_samples = true.
Proof. vm_compute. reflexivity. Qed.

(** C2.  For a color whose channels lie in the unit interval,
    [figmaColorToHex] is the hash sign followed by the three channels, each
    converted by round(channel * 255) to a byte and written as two lower-case
    hex digits, seven characters in all; channel * 255 is the binary64 product
    the code computes.  The rounding is to the nearest integer, a value ending
    in one half going up.  (1,0,0) gives "#ff0000" and (0,0,0) gives
    "#000000"; the channel one half, whose product is 127.5, gives the byte
    80, and the channel 282578800148737 / 2^57, whose product rounds to
    exactly one half in binary64, gives the byte 01. *)
Theorem figmaColorToHex_bytes {host : JsHost} :
  (forall color : FigmaColor,
      unit_interval (col_r color) ->
      unit_interval (col_g color) ->
      unit_interval (col_b color) ->
      exists r g b : Z,
        Math_round_of (fmul (col_r color) 255) = Whole r
        /\ Math_round_of (fmul (col_g color) 255) = Whole g
        /\ Math_round_of (fmul (col_b color) 255) = Whole b
        /\ (0 <= r <= 255)%Z /\ (0 <= g <= 255)%Z /\ (0 <= b <= 255)%Z
        /\ figmaColorToHex color
           = lit "#" ++ two_digit_hex r ++ two_digit_hex g ++ two_digit_hex b
        /\ length (figmaColorToHex color) = 7%nat)
  /\ (forall x : Q,
        x - (1 # 2) < inject_Z (Math_round x)
        /\ inject_Z (Math_round x) <= x + (1 # 2))
  /\ (forall k : Z, Math_round (inject_Z k + (1 # 2)) = (k + 1)%Z)
  /\ figmaColorToHex (mkFigmaColor 1 0 0 None) = lit "#ff0000"
  /\ figmaColorToHex (mkFigmaColor 0 0 0 None) = lit "#000000"
  /\ figmaColorToHex (mkFigmaColor (1 # 2) 0 0 None) = lit "#800000"
  /\ figmaColorToHex (mkFigmaColor (282578800148737 # 2 ^ 57) 0 0 None)
     = lit "#010000".
Proof.
  split.
  { intros color Hr Hg Hb.
    destruct (channel_byte Hr) as (r & Er & Br).
    destruct (channel_byte Hg) as (g & Eg & Bg).
    destruct (channel_byte Hb) as (b & Eb & Bb).
    exists r, g, b.
    assert (E : figmaColorToHex color
                = lit "#" ++ two_digit_hex r ++ two_digit_hex g
                    ++ two_digit_hex b).
    { unfold figmaColorToHex. rewrite Er, Eg, Eb.
      rewrite !hex_byte_two_digits by assumption. reflexivity. }
    repeat (split; [assumption|]). rewrite E. reflexivity. }
  split; [exact Math_round_nearest|].
  split; [exact Math_round_half|].
  repeat split; vm_compute; reflexivity.
Qed.

(* ================================================================== *)
(** ** The style resolver *)

Lemma find_app_first (A : Type) (f : A -> bool) (l1 l2 : list A) :
  find f (l1 ++ l2)
  = match find f l1 with
    | Some x => Some x
    | None => find f l2
    end.
Proof.
  induction l1 as [|x l1 IH]; simpl; [reflexivity|].
  destruct (f x); [reflexivity | exact IH].
Qed.

Lemma existsb_perm (A : Type) (f : A -> bool) (l1 l2 : list A) :
  Permutation l1 l2 -> existsb f l1 = existsb f l2.
Proof.
  induction 1; simpl; try congruence.
  destruct (f x), (f y); reflexivity.
Qed.

Lemma own_style_match_binds (node : Node) (styleId : jsstring) :
  own_style_match node styleId = binds_style styleId node.
Proof.
  unfold own_style_match, binds_style.
  destruct (node_styles node) as [styles|]; [|reflexivity].
  apply existsb_perm, entries_perm.
Qed.

Lemma findNodeByStyleId_find (styleId : jsstring) (root : Node) :
  findNodeByStyleId root styleId = find (binds_style styleId) (preorder root).
Proof.
  induction root as [name styles children fills style effects box IH]
    using Node_ind'.
  cbn [findNodeByStyleId preorder find node_children].
  rewrite own_style_match_binds.
  destruct (binds_style styleId _); [reflexivity|].
  destruct children as [l|]; [|reflexivity].
  induction l as [|child l IHl]; [reflexivity|].
  inversion IH as [|? ? Hchild Hl]; subst.
  cbn [flat_map]. rewrite find_app_first, <- Hchild.
  destruct (findNodeByStyleId child styleId); [reflexivity|].
  apply IHl. exact Hl.
Qed.

Lemma find_none_Forall (A : Type) (f : A -> bool) (l : list A) :
  Forall (fun x => f x = false) l -> find f l = None.
Proof.
  induction 1 as [|x l Hx _ IH]; simpl; [reflexivity|].
  rewrite Hx. exact IH.
Qed.

(** C6.  [findNodeByStyleId] returns the first node, in depth-first
    pre-order, whose own style-bindings map has an entry whose value is the
    identifier; it returns nothing when no node of the tree has one.  The
    first match wins even when a later, shallower node matches as well. *)
Theorem findNodeByStyleId_first_in_preorder :
  (forall (root : Node) (styleId : jsstring),
      findNodeByStyleId root styleId
      = find (binds_style styleId) (preorder root))
  /\ (forall (root : Node) (styleId : jsstring),
        Forall (fun node => binds_style styleId node = false) (preorder root) ->
        findNodeByStyleId root styleId = None)
  /\ findNodeByStyleId two_matches (lit "S:1") = Some deep_match.
Proof.
  split; [intros; apply findNodeByStyleId_find|].
  split; [|vm_compute; reflexivity].
  intros root styleId H. rewrite findNodeByStyleId_find.
  apply find_none_Forall. exact H.
Qed.

(* ================================================================== *)
(** ** Spacing *)

Section Spacing.
Context {host : JsHost}.

Lemma findNodeByName_find (name : jsstring) (root : Node) :
  findNodeByName root name = find (same_name name) (preorder root).
Proof.
  induction root as [nm styles children fills style effects box IH]
    using Node_ind'.
  cbn [findNodeByName preorder find node_children node_name].
  unfold same_name at 1. cbn [node_name].
  destruct (jsstring_eqb (toLowerCase nm) (toLowerCase name)); [reflexivity|].
  destruct children as [l|]; [|reflexivity].
  induction l as [|child l IHl]; [reflexivity|].
  inversion IH as [|? ? Hchild Hl]; subst.
  cbn [flat_map]. rewrite find_app_first, <- Hchild.
  destruct (findNodeByName child name); [reflexivity|].
  apply IHl. exact Hl.
Qed.

Lemma spacing_children_without_box (children : list Node)
  (spacing : Dict SpacingToken) :
  Forall (fun child => node_absoluteBoundingBox child = None) children ->
  fold_left spacingChildStep children spacing = spacing.
Proof.
  induction 1 as [|child l Hc _ IH]; simpl; [reflexivity|].
  unfold spacingChildStep at 2. rewrite Hc. exact IH.
Qed.

Lemma default_scale_tokens :
  fold_left defaultScaleStep
    (combine (seq 0 (length defaultScale)) defaultScale) []
  = default_spacing.
Proof. vm_compute. reflexivity. Qed.

Lemma extractSpacing_empty_frame (fileData : FileData) :
  match find (same_name (lit "Spacing")) (preorder (fd_document fileData)) with
  | None => True
  | Some frame =>
      match node_children frame with
      | None => True
      | Some children =>
          Forall (fun child => node_absoluteBoundingBox child = None) children
      end
  end ->
  extractSpacing fileData = default_spacing.
Proof.
  intros H. unfold extractSpacing. rewrite findNodeByName_find.
  destruct (find _ _) as [frame|].
  - destruct (node_children frame) as [children|].
    + rewrite spacing_children_without_box by exact H.
      apply default_scale_tokens.
    + apply default_scale_tokens.
  - apply default_scale_tokens.
Qed.

(** C3.  When no node of the document is named "Spacing" up to case, and
    also when the first such node in pre-order has no children or none of
    its children carries a bounding box, [extractSpacing] returns exactly
    the fourteen tokens space-0 ... space-13, enumerated in that order, with
    the values 0, 4, 8, 12, 16, 20, 24, 32, 40, 48, 64, 80, 96, 128, whatever
    else the document contains. *)
Theorem extractSpacing_default (fileData : FileData) :
  Forall (fun node => toLowerCase (node_name node)
                      <> toLowerCase (lit "Spacing"))
    (preorder (fd_document fileData))
  \/ (exists frame,
        find (same_name (lit "Spacing")) (preorder (fd_document fileData))
        = Some frame
        /\ match node_children frame with
           | None => True
           | Some children =>
               Forall (fun child => node_absoluteBoundingBox child = None)
                 children
           end) ->
  extractSpacing fileData = default_spacing
  /\ entries (extractSpacing fileData) = default_spacing
  /\ keys (extractSpacing fileData)
     = map lit [ "space-0"; "space-1"; "space-2"; "space-3"; "space-4";
                 "space-5"; "space-6"; "space-7"; "space-8"; "space-9";
                 "space-10"; "space-11"; "space-12"; "space-13" ]%string
  /\ map (fun kv => st_value (snd kv)) (entries (extractSpacing fileData))
     = map inject_Z defaultScale.
Proof.
  intros H.
  assert (E : extractSpacing fileData = default_spacing).
  { apply extractSpacing_empty_frame. destruct H as [H | [frame [Hf Hc]]].
    - rewrite find_none_Forall; [exact I|].
      eapply Forall_impl; [|exact H]. intros node Hn. unfold same_name.
      apply jsstring_eqb_neq. exact Hn.
    - rewrite Hf. exact Hc. }
  rewrite E. repeat split; vm_compute; reflexivity.
Qed.

End Spacing.

(* ================================================================== *)
(** ** Resilience against malformed style entries *)

Section Resilience.
Context {host : JsHost}.

Lemma fold_left_skip (A B : Type) (f : A -> B -> A) (p : B -> bool)
  (before after : list B) (x : B) (a : A) :
  (p x = true -> forall a', f a' x = a') ->
  fold_left f (filter p (before ++ x :: after)) a
  = fold_left f (filter p (before ++ after)) a.
Proof.
  intros H. rewrite !filter_app, !fold_left_app. simpl.
  destruct (p x) eqn:Hp; [|reflexivity].
  simpl. rewrite H by reflexivity. reflexivity.
Qed.

Lemma colorStyleStep_malformed fileData style colors :
  malformed fileData style -> has_type "FILL" style = true ->
  colorStyleStep fileData colors style = colors.
Proof.
  unfold malformed, colorStyleStep. rewrite findNodeByStyleId_find.
  destruct (find _ _) as [node|]; [|reflexivity].
  intros [Hf _] Ht. specialize (Hf Ht). unfold has_fill_color in Hf.
  destruct (node_fills node) as [[|fill fills]|]; try reflexivity.
  destruct (paint_color fill); [discriminate | reflexivity].
Qed.

Lemma typographyStyleStep_malformed fileData style typography :
  malformed fileData style -> has_type "TEXT" style = true ->
  typographyStyleStep fileData typography style = typography.
Proof.
  unfold malformed, typographyStyleStep. rewrite findNodeByStyleId_find.
  destruct (find _ _) as [node|]; [|reflexivity].
  intros [_ [Hs _]] Ht. rewrite (Hs Ht). reflexivity.
Qed.

Lemma effectStyleStep_malformed fileData style effects :
  malformed fileData style -> has_type "EFFECT" style = true ->
  effectStyleStep fileData effects style = effects.
Proof.
  unfold malformed, effectStyleStep. rewrite findNodeByStyleId_find.
  destruct (find _ _) as [node|]; [|reflexivity].
  intros [_ [_ He]] Ht. specialize (He Ht). unfold has_first_effect in He.
  destruct (node_effects node) as [[|effect l]|];
    [reflexivity | discriminate | reflexivity].
Qed.

(** C5.  A style entry whose node cannot be resolved, or whose resolved node
    lacks the payload (no first fill with a color, no style object, no first
    effect), adds no token in its own turn of the loop, and the colors,
    typography and effects extracted from the whole list are those extracted
    from the list without that entry.  The extractors are total functions:
    no input makes them fail. *)
Theorem malformed_style_is_skipped (fileData : FileData)
  (before after : list Style) (style : Style) :
  malformed fileData style ->
  (forall colors, has_type "FILL" style = true ->
                  colorStyleStep fileData colors style = colors)
  /\ (forall typography, has_type "TEXT" style = true ->
                         typographyStyleStep fileData typography style
                         = typography)
  /\ (forall effects, has_type "EFFECT" style = true ->
                      effectStyleStep fileData effects style = effects)
  /\ extractColors fileData (before ++ style :: after)
     = extractColors fileData (before ++ after)
  /\ extractTypography fileData (before ++ style :: after)
     = extractTypography fileData (before ++ after)
  /\ extractEffects fileData (before ++ style :: after)
     = extractEffects fileData (before ++ after).
Proof.
  intros H.
  split; [intros; apply colorStyleStep_malformed; assumption|].
  split; [intros; apply typographyStyleStep_malformed; assumption|].
  split; [intros; apply effectStyleStep_malformed; assumption|].
  unfold extractColors, extractTypography, extractEffects.
  repeat split.
  - f_equal. apply fold_left_skip. intros Ht a.
    apply colorStyleStep_malformed; assumption.
  - apply fold_left_skip. intros Ht a.
    apply typographyStyleStep_malformed; assumption.
  - apply fold_left_skip. intros Ht a.
    apply effectStyleStep_malformed; assumption.
Qed.

End Resilience.

(* ================================================================== *)
(** ** Colors: styles, then variables *)

Section Colors.
Context {host : JsHost}.


Lemma colorVariableStep_other colors (entry : jsstring * Variable_) k :
  writes_color (snd entry) = false
  \/ tokenizeName (var_name (snd entry)) <> k ->
  rget k (colorVariableStep colors entry) = rget k colors.
Proof.
  destruct entry as [id variable]. unfold colorVariableStep, writes_color.
  simpl. intros H.
  destruct (jsstring_eqb (var_resolvedType variable) (lit "COLOR"));
    [|reflexivity].
  destruct (first_mode_value variable) as [value|]; [|reflexivity].
  destruct H as [H|H]; [discriminate|].
  apply rget_rset_other. congruence.
Qed.

Lemma colorVariableStep_writes colors id variable value :
  var_resolvedType variable = lit "COLOR" ->
  first_mode_value variable = Some value ->
  rget (tokenizeName (var_name variable))
    (colorVariableStep colors (id, variable))
  = Some {| ct_name := var_name variable;
            ct_value := figmaColorToHex value;
            ct_opacity := None;
            ct_description := var_description variable;
            ct_figmaId := Some id |}.
Proof.
  intros Ht Hv. unfold colorVariableStep. rewrite Ht, Hv.
  rewrite jsstring_eqb_refl. apply rget_rset_same, tokenizeName_not_proto.
Qed.

Lemma variables_fold_other (l : list (jsstring * Variable_)) colors k :
  Forall (fun entry =>
            writes_color (snd entry) = false
            \/ tokenizeName (var_name (snd entry)) <> k) l ->
  rget k (fold_left colorVariableStep l colors) = rget k colors.
Proof.
  intros H. revert colors.
  induction H as [|entry l He _ IH]; intros colors; simpl; [reflexivity|].
  rewrite IH. apply colorVariableStep_other. exact He.
Qed.

Lemma variables_last_writer (l before after : list (jsstring * Variable_))
  colors id variable value :
  l = before ++ (id, variable) :: after ->
  var_resolvedType variable = lit "COLOR" ->
  first_mode_value variable = Some value ->
  Forall (fun entry =>
            writes_color (snd entry) = false
            \/ tokenizeName (var_name (snd entry))
               <> tokenizeName (var_name variable)) after ->
  rget (tokenizeName (var_name variable)) (fold_left colorVariableStep l colors)
  = Some {| ct_name := var_name variable;
            ct_value := figmaColorToHex value;
            ct_opacity := None;
            ct_description := var_description variable;
            ct_figmaId := Some id |}.
Proof.
  intros -> Ht Hv Hafter. rewrite fold_left_app. cbn [fold_left].
  rewrite variables_fold_other by exact Hafter.
  apply colorVariableStep_writes; assumption.
Qed.

(** C4.  When a color variable has a value under the first mode key of its
    per-mode map, and no later variable writes the same key, the final colors
    map holds the token derived from that variable under the variable's
    canonical key, its value being the hex conversion of that first-mode
    value; this holds for every list of styles, in particular when a fill
    style tokenizes to the same key: variables are processed after styles and
    overwrite. *)
Theorem variable_overwrites_style (fileData : FileData) (styles : list Style)
  (variables : Dict Variable_) (before after : list (jsstring * Variable_))
  (id : jsstring) (variable : Variable_) (value : FigmaColor) :
  fd_variables fileData = Some variables ->
  entries variables = before ++ (id, variable) :: after ->
  var_resolvedType variable = lit "COLOR" ->
  first_mode_value variable = Some value ->
  Forall (fun entry =>
            writes_color (snd entry) = false
            \/ tokenizeName (var_name (snd entry))
               <> tokenizeName (var_name variable)) after ->
  rget (tokenizeName (var_name variable)) (extractColors fileData styles)
  = Some {| ct_name := var_name variable;
            ct_value := figmaColorToHex value;
            ct_opacity := None;
            ct_description := var_description variable;
            ct_figmaId := Some id |}.
Proof.
  intros Hv He Ht Hm Hafter. unfold extractColors, extractColorVariables.
  rewrite Hv. eapply variables_last_writer; eassumption.
Qed.





End Colors.

(* ================================================================== *)
(** ** Effect kinds *)


(* ================================================================== *)
(** ** Folds that fill an object *)

Section FillObject.
Variables A V : Type.
Variable step : Dict V -> jsstring * A -> Dict V.
Variable value : jsstring * A -> option V.
Hypothesis step_sets :
  forall acc kv,
    step acc kv = match value kv with
                  | Some v => rset (fst kv) v acc
                  | None => acc
                  end.

Lemma fill_other (l : list (jsstring * A)) (acc : Dict V) (k : jsstring) :
  ~ In k (map fst l) -> rget k (fold_left step l acc) = rget k acc.
Proof.
  revert acc. induction l as [|[k0 a0] l IH]; intros acc Hk; simpl;
    [reflexivity|].
  simpl in Hk. rewrite IH by tauto. rewrite step_sets.
  destruct (value (k0, a0)); [|reflexivity].
  apply rget_rset_other. simpl. intros E. apply Hk. left. congruence.
Qed.

Lemma fill_lookup (l : list (jsstring * A)) (acc : Dict V) (k : jsstring)
  (a : A) :
  NoDup (map fst l) -> In (k, a) l -> k <> proto_key ->
  rget k (fold_left step l acc)
  = match value (k, a) with
    | Some v => Some v
    | None => rget k acc
    end.
Proof.
  intros Hnd Hin Hk. revert acc.
  induction l as [|[k0 a0] l IH]; intros acc; [contradiction|].
  inversion Hnd as [|? ? Hk0 Hl]; subst. simpl.
  destruct Hin as [E|Hin].
  - inversion E; subst. rewrite fill_other by exact Hk0.
    rewrite step_sets. destruct (value (k, a)); [|reflexivity].
    apply rget_rset_same. apply jsstring_eqb_neq. exact Hk.
  - rewrite IH by assumption.
    destruct (value (k, a)); [reflexivity|].
    rewrite step_sets. destruct (value (k0, a0)); [|reflexivity].
    apply rget_rset_other. simpl. intros E. subst k0. apply Hk0.
    apply (in_map fst) in Hin. exact Hin.
Qed.

Lemma fill_skip (p : jsstring * A -> bool) (l : list (jsstring * A))
  (acc : Dict V) :
  (forall kv, p kv = false -> value kv = None) ->
  fold_left step (filter p l) acc = fold_left step l acc.
Proof.
  intros H. revert acc. induction l as [|kv l IH]; intros acc; simpl;
    [reflexivity|].
  destruct (p kv) eqn:Hp; simpl.
  - apply IH.
  - rewrite IH. f_equal. rewrite step_sets, (H kv Hp). reflexivity.
Qed.

End FillObject.

Lemma join_contains (sep line : jsstring) (lines : list jsstring) :
  In line lines -> contains (join sep lines) line.
Proof.
  induction lines as [|x l IH]; [contradiction|].
  intros [->|Hin].
  - destruct l as [|y l].
    + exists [], []. simpl. rewrite app_nil_r. reflexivity.
    + exists [], (sep ++ join sep (y :: l)). reflexivity.
  - destruct l as [|y l]; [contradiction|].
    destruct (IH Hin) as [before [after E]].
    exists (x ++ sep ++ before), after.
    change (join sep (x :: y :: l)) with (x ++ sep ++ join sep (y :: l)).
    rewrite E, <- !app_assoc. reflexivity.
Qed.

(* ================================================================== *)
(** ** Members in the text of an object *)

Section JsonText.
Context {host : JsHost}.

Lemma contains_refl (text : jsstring) : contains text text.
Proof. exists [], []. simpl. rewrite app_nil_r. reflexivity. Qed.

Lemma contains_trans (a b c : jsstring) :
  contains a b -> contains b c -> contains a c.
Proof.
  intros [x [y ->]] [u [v ->]]. exists (x ++ u), (v ++ y).
  rewrite <- !app_assoc. reflexivity.
Qed.

Lemma contains_app (x y text needle : jsstring) :
  contains text needle -> contains (x ++ text ++ y) needle.
Proof.
  intros H. eapply contains_trans; [|exact H]. exists x, y. reflexivity.
Qed.

Lemma contains_suffix (x text needle : jsstring) :
  contains text needle -> contains (x ++ text) needle.
Proof.
  intros H. rewrite <- (app_nil_r text). apply contains_app. exact H.
Qed.

Lemma json_serialize_object (stepback : jsstring)
  (props : list (jsstring * jsval)) :
  json_serialize stepback (JObj props)
  = Some (json_bracket (lit "{") (lit "}") stepback (stepback ++ lit "  ")
            (flat_map json_member
               (entries
                  (map (fun kv : jsstring * jsval =>
                          (fst kv,
                           json_serialize (stepback ++ lit "  ") (snd kv)))
                     props)))).
Proof.
  cbn [json_serialize]. do 4 f_equal.
  apply map_ext. intros [k x]. reflexivity.
Qed.

Lemma json_bracket_contains (opening closing stepback indent part : jsstring)
  (parts : list jsstring) :
  In part parts ->
  contains (json_bracket opening closing stepback indent parts) part.
Proof.
  intros Hin. unfold json_bracket.
  destruct parts as [|p0 parts]; [contradiction|].
  apply (join_contains (lit "," ++ nl ++ indent)) in Hin.
  destruct Hin as [a [b E]]. rewrite E.
  exists (opening ++ nl ++ indent ++ a), (b ++ nl ++ stepback ++ closing).
  rewrite <- !app_assoc. reflexivity.
Qed.

(** A member of an object whose value has a text is printed, as
    ["key": text], in the text of the object. *)
Lemma json_member_printed (stepback : jsstring)
  (props : list (jsstring * jsval)) (k : jsstring) (v : jsval)
  (text whole : jsstring) :
  In (k, v) props ->
  json_serialize (stepback ++ lit "  ") v = Some text ->
  json_serialize stepback (JObj props) = Some whole ->
  contains whole (json_quote k ++ lit ": " ++ text).
Proof.
  intros Hin Hv Hw. rewrite json_serialize_object in Hw.
  injection Hw as <-. apply json_bracket_contains.
  apply in_flat_map. exists (k, Some text). split; [|left; reflexivity].
  apply In_entries.
  apply (in_map (fun kv : jsstring * jsval =>
                   (fst kv, json_serialize (stepback ++ lit "  ") (snd kv))))
    in Hin.
  simpl in Hin. rewrite Hv in Hin. exact Hin.
Qed.

(** What the text of a nested object contains, the text of the enclosing
    object contains. *)
Lemma json_nested_printed (stepback : jsstring)
  (props inner : list (jsstring * jsval)) (k needle whole : jsstring) :
  In (k, JObj inner) props ->
  (forall text,
      json_serialize (stepback ++ lit "  ") (JObj inner) = Some text ->
      contains text needle) ->
  json_serialize stepback (JObj props) = Some whole ->
  contains whole needle.
Proof.
  intros Hin Hinner Hw.
  destruct (json_serialize (stepback ++ lit "  ") (JObj inner)) as [text|] eqn:E;
    [|rewrite json_serialize_object in E; discriminate].
  eapply contains_trans.
  - eapply json_member_printed; eassumption.
  - do 2 apply contains_suffix. apply Hinner. reflexivity.
Qed.

(** What the text of [config.theme.extend] contains, the Tailwind output
    contains. *)
Lemma tailwind_extend_printed (tokens : DesignTokens) (needle : jsstring) :
  (forall text,
      json_serialize (lit "    ") (JObj (tailwind_extend tokens)) = Some text ->
      contains text needle) ->
  contains (toTailwindConfig tokens) needle.
Proof.
  intros Hinner. unfold toTailwindConfig.
  eapply contains_trans.
  - apply join_contains. unfold toTailwindConfig_lines.
    do 7 right. left. reflexivity.
  - apply contains_suffix. unfold JSON_stringify2, tailwind_config.
    destruct (json_serialize [] _) as [whole|] eqn:E;
      [|rewrite json_serialize_object in E; discriminate].
    revert E.
    eapply json_nested_printed; [left; reflexivity|]. intros text.
    eapply json_nested_printed; [left; reflexivity|]. exact Hinner.
Qed.

(** What the text of the document object contains, the JSON output is. *)
Lemma json_output_text (tokens : DesignTokens) :
  json_serialize [] (JObj (json_output_props tokens)) = Some (toJSON tokens).
Proof.
  unfold toJSON, JSON_stringify2, json_output.
  rewrite json_serialize_object. reflexivity.
Qed.

End JsonText.

(* ================================================================== *)
(** ** Effects in the four formats *)

Section EffectFormats.
Context {host : JsHost}.

Lemma section_In (V : Type) (r : Dict V) (x : jsstring * V)
  (body : list jsstring) (line : jsstring) :
  In x r -> In line body -> In line (section r body).
Proof.
  destruct r as [|y r]; [contradiction|].
  intros _. rewrite section_cons. auto.
Qed.







End EffectFormats.

(* ================================================================== *)
(** ** Deleting keys commutes with enumeration *)

Section EntriesFilter.
Variable V : Type.
Implicit Types (l : list (N * (jsstring * V))) (r : Dict V).










End EntriesFilter.

(* ================================================================== *)
(** ** The kind glow *)

Section Glow.
Context {host : JsHost}.








End Glow.

(* ================================================================== *)
(** ** Empty categories *)

Section EmptyCategories.
Context {host : JsHost}.

Ltac all_lines :=
  repeat match goal with
         | |- Forall _ [] => constructor
         | |- Forall _ (_ :: _) => constructor; [reflexivity|]
         | |- Forall _ (_ ++ _) => apply Forall_app; split
         | |- Forall _ (section _ _) => unfold section
         | |- Forall _ (if ?b then _ else _) => destruct b
         | |- Forall _ (match ?x with _ => _ end) => destruct x
         | |- Forall _ (flat_map _ _) =>
             apply Forall_flat_map, Forall_forall; intros [? ?] _
         | |- Forall _ (map _ _) =>
             apply Forall_map, Forall_forall; intros [? ?] _
         | |- Forall _ (css_header _) => unfold css_header
         | |- Forall _ (scss_header _) => unfold scss_header
         | |- Forall _ (css_color_lines _) => unfold css_color_lines
         | |- Forall _ (css_typography_lines _) => unfold css_typography_lines
         | |- Forall _ (css_spacing_lines _) => unfold css_spacing_lines
         | |- Forall _ (css_effect_lines _) => unfold css_effect_lines
         | |- Forall _ (scss_typography_lines _) =>
             unfold scss_typography_lines
         | |- Forall _ (scss_mixin_lines _) => unfold scss_mixin_lines
         | |- Forall _ (scss_effect_lines _) => unfold scss_effect_lines
         | |- lacks_prefixes _ _ = true => reflexivity
         end.

Lemma css_omits_colors tokens :
  colors tokens = [] ->
  css_omits [lit "  --color-"; lit "  /* Colors"] tokens.
Proof.
  intros H. unfold css_omits, toCSSVariables_lines.
  rewrite H, section_nil. all_lines.
Qed.

Lemma css_omits_typography tokens :
  typography tokens = [] ->
  css_omits [lit "  --font-"; lit "  /* Typography"] tokens.
Proof.
  intros H. unfold css_omits, toCSSVariables_lines.
  rewrite H, section_nil. all_lines.
Qed.

Lemma css_omits_spacing tokens :
  spacing tokens = [] ->
  css_omits [lit "  --spacing-"; lit "  /* Spacing"] tokens.
Proof.
  intros H. unfold css_omits, toCSSVariables_lines.
  rewrite H, section_nil. all_lines.
Qed.

Lemma css_omits_effects tokens :
  effects tokens = [] ->
  css_omits [lit "  --shadow-"; lit "  --blur-"; lit "  /* Effects"] tokens.
Proof.
  intros H. unfold css_omits, toCSSVariables_lines.
  rewrite H, section_nil. all_lines.
Qed.

Lemma scss_omits_colors tokens :
  colors tokens = [] ->
  scss_omits [lit "$color"; lit "// Colors"] tokens.
Proof.
  intros H. unfold scss_omits, toSCSS_lines.
  rewrite H, section_nil. all_lines.
Qed.

Lemma scss_omits_typography tokens :
  typography tokens = [] ->
  scss_omits [lit "$font-"; lit "// Typography"; lit "@mixin"] tokens.
Proof.
  intros H. unfold scss_omits, toSCSS_lines.
  rewrite H, section_nil. all_lines.
Qed.

Lemma scss_omits_spacing tokens :
  spacing tokens = [] ->
  scss_omits [lit "$spacing"; lit "// Spacing"] tokens.
Proof.
  intros H. unfold scss_omits, toSCSS_lines.
  rewrite H, section_nil. all_lines.
Qed.

Lemma scss_omits_effects tokens :
  effects tokens = [] ->
  scss_omits [lit "$shadow-"; lit "$blur-"; lit "// Effects"] tokens.
Proof.
  intros H. unfold scss_omits, toSCSS_lines.
  rewrite H, section_nil. all_lines.
Qed.

Lemma tailwind_empty_printed tokens (category : string)
  (inner : list (jsstring * jsval)) :
  In (lit category, JObj inner) (tailwind_extend tokens) -> inner = [] ->
  contains (toTailwindConfig tokens) (json_quote (lit category) ++ lit ": {}").
Proof.
  intros Hin ->. apply tailwind_extend_printed. intros text.
  eapply json_member_printed; [exact Hin | reflexivity].
Qed.

Lemma json_empty_printed tokens (category : string)
  (inner : list (jsstring * jsval)) :
  In (lit category, JObj inner) (json_output_props tokens) -> inner = [] ->
  contains (toJSON tokens) (json_quote (lit category) ++ lit ": {}").
Proof.
  intros Hin ->. generalize (json_output_text tokens).
  eapply json_member_printed; [exact Hin | reflexivity].
Qed.

Lemma join_prefix (sep : jsstring) (a b : list jsstring) :
  exists rest, join sep (a ++ b) = join sep a ++ rest.
Proof.
  induction a as [|x a IH]; [exists (join sep b); reflexivity|].
  destruct IH as [rest E]. destruct a as [|y a].
  - destruct b as [|z b].
    + exists []. simpl. rewrite app_nil_r. reflexivity.
    + exists (sep ++ join sep (z :: b)). reflexivity.
  - exists rest.
    change (join sep ((x :: y :: a) ++ b))
      with (x ++ sep ++ join sep ((y :: a) ++ b)).
    rewrite E.
    change (join sep (x :: y :: a)) with (x ++ sep ++ join sep (y :: a)).
    rewrite <- !app_assoc. reflexivity.
Qed.

(** The JSON document of every Token Set opens with the brace, the schema
    and the metadata object; the member [fileKey] is left out when the
    metadata has no file key. *)
Lemma json_document_head (tokens : DesignTokens) :
  exists rest,
    toJSON tokens
    = join nl
        [ lit "{";
          litq "  '$schema': 'https://design-tokens.github.io/community-group/format/',";
          litq "  '$metadata': {";
          litq "    'generator': 'origin-os-figma-sync',";
          litq "    'version': " ++ json_quote (md_version (metadata tokens))
            ++ lit ",";
          litq "    'lastSynced': "
            ++ json_quote (md_lastSynced (metadata tokens)) ++ lit ",";
          litq "    'source': {";
          litq "      'type': 'figma'"
            ++ match md_figmaFileKey (metadata tokens) with
               | Some k => lit "," ++ nl ++ litq "      'fileKey': "
                             ++ json_quote k
               | None => []
               end;
          lit "    }";
          lit "  },";
          litq "  'color': " ] ++ rest.
Proof.
  unfold toJSON, JSON_stringify2, json_output, json_output_props.
  cbn [json_serialize].
  destruct (md_figmaFileKey (metadata tokens)) as [k|].
  - eexists. cbn -[json_colors json_typography json_spacing json_effects].
    repeat (rewrite <- !app_assoc; cbn [app]). reflexivity.
  - eexists. cbn -[json_colors json_typography json_spacing json_effects].
    repeat (rewrite <- !app_assoc; cbn [app]). reflexivity.
Qed.

Lemma json_document_empty (m : Metadata) :
  toJSON (no_tokens m)
  = join nl
      [ lit "{";
        litq "  '$schema': 'https://design-tokens.github.io/community-group/format/',";
        litq "  '$metadata': {";
        litq "    'generator': 'origin-os-figma-sync',";
        litq "    'version': " ++ json_quote (md_version m) ++ lit ",";
        litq "    'lastSynced': " ++ json_quote (md_lastSynced m) ++ lit ",";
        litq "    'source': {";
        litq "      'type': 'figma'"
          ++ match md_figmaFileKey m with
             | Some k => lit "," ++ nl ++ litq "      'fileKey': "
                           ++ json_quote k
             | None => []
             end;
        lit "    }";
        lit "  },";
        litq "  'color': {},";
        litq "  'typography': {},";
        litq "  'spacing': {},";
        litq "  'effect': {}";
        lit "}" ].
Proof.
  unfold toJSON, JSON_stringify2, json_output, json_output_props.
  cbn [json_serialize metadata no_tokens].
  destruct (md_figmaFileKey m) as [k|]; cbn;
    repeat (rewrite <- !app_assoc; cbn [app]); reflexivity.
Qed.

End EmptyCategories.

Section EmptyCategoriesPerFormat.
Context {host : JsHost}.

(** C8, as the code has it.  For a Token Set with an empty category, the CSS
    and SCSS serialisers omit that category's section (no section comment, no
    declaration of that category), while the Tailwind and JSON serialisers
    build an empty object for it, printed as [{}].  For every Token Set, the
    CSS output begins with a comment block holding the timestamp, the source
    identifier and the do-not-edit notice; the comment blocks that begin the
    SCSS and Tailwind outputs hold the timestamp and the notice only; the
    JSON output begins with a brace, not with a comment block, and carries
    the timestamp and the file key in [$metadata].  The four outputs of a
    Token Set without any token are written out in full. *)
Theorem empty_categories_per_format (tokens : DesignTokens) :
  (colors tokens = [] ->
   css_omits [lit "  --color-"; lit "  /* Colors"] tokens
   /\ scss_omits [lit "$color"; lit "// Colors"] tokens
   /\ tailwind_colors tokens = []
   /\ contains (toTailwindConfig tokens) (litq "'colors': {}")
   /\ json_colors tokens = []
   /\ contains (toJSON tokens) (litq "'color': {}"))
  /\ (typography tokens = [] ->
      css_omits [lit "  --font-"; lit "  /* Typography"] tokens
      /\ scss_omits [lit "$font-"; lit "// Typography"; lit "@mixin"] tokens
      /\ tailwind_fontFamilies tokens = []
      /\ tailwind_fontSizes tokens = []
      /\ contains (toTailwindConfig tokens) (litq "'fontFamily': {}")
      /\ contains (toTailwindConfig tokens) (litq "'fontSize': {}")
      /\ json_typography tokens = []
      /\ contains (toJSON tokens) (litq "'typography': {}"))
  /\ (spacing tokens = [] ->
      css_omits [lit "  --spacing-"; lit "  /* Spacing"] tokens
      /\ scss_omits [lit "$spacing"; lit "// Spacing"] tokens
      /\ tailwind_spacing tokens = []
      /\ contains (toTailwindConfig tokens) (litq "'spacing': {}")
      /\ json_spacing tokens = []
      /\ contains (toJSON tokens) (litq "'spacing': {}"))
  /\ (effects tokens = [] ->
      css_omits [lit "  --shadow-"; lit "  --blur-"; lit "  /* Effects"] tokens
      /\ scss_omits [lit "$shadow-"; lit "$blur-"; lit "// Effects"] tokens
      /\ tailwind_boxShadow tokens = []
      /\ tailwind_blur tokens = []
      /\ contains (toTailwindConfig tokens) (litq "'boxShadow': {}")
      /\ contains (toTailwindConfig tokens) (litq "'blur': {}")
      /\ json_effects tokens = []
      /\ contains (toJSON tokens) (litq "'effect': {}"))
  /\ (exists rest,
        toCSSVariables tokens
        = join nl
            [ lit "/**";
              lit " * Origin OS Design Tokens";
              lit " * Generated: " ++ md_lastSynced (metadata tokens);
              lit " * Source: Figma file "
                ++ or_else (md_figmaFileKey (metadata tokens)) (lit "unknown");
              lit " * DO NOT EDIT MANUALLY - This file is auto-generated";
              lit " */";
              [];
              lit ":root {" ] ++ rest)
  /\ (exists rest,
        toSCSS tokens
        = join nl
            [ lit "//";
              lit "// Origin OS Design Tokens (SCSS)";
              lit "// Generated: " ++ md_lastSynced (metadata tokens);
              lit "// DO NOT EDIT MANUALLY - This file is auto-generated";
              lit "//";
              [] ] ++ rest)
  /\ toTailwindConfig tokens
     = join nl
         [ lit "/**";
           lit " * Origin OS Tailwind Design Tokens";
           lit " * Generated: " ++ md_lastSynced (metadata tokens);
           lit " * DO NOT EDIT MANUALLY - This file is auto-generated";
           lit " */";
           [];
           litq "/** @type {import('tailwindcss').Config} */";
           lit "module.exports = " ++ JSON_stringify2 (tailwind_config tokens) ]
  /\ (exists rest,
        toJSON tokens
        = join nl
            [ lit "{";
              litq "  '$schema': 'https://design-tokens.github.io/community-group/format/',";
              litq "  '$metadata': {";
              litq "    'generator': 'origin-os-figma-sync',";
              litq "    'version': "
                ++ json_quote (md_version (metadata tokens)) ++ lit ",";
              litq "    'lastSynced': "
                ++ json_quote (md_lastSynced (metadata tokens)) ++ lit ",";
              litq "    'source': {";
              litq "      'type': 'figma'"
                ++ match md_figmaFileKey (metadata tokens) with
                   | Some k => lit "," ++ nl ++ litq "      'fileKey': "
                                 ++ json_quote k
                   | None => []
                   end;
              lit "    }";
              lit "  },";
              litq "  'color': " ] ++ rest)
  /\ toCSSVariables (no_tokens (metadata tokens))
     = join nl
         [ lit "/**";
           lit " * Origin OS Design Tokens";
           lit " * Generated: " ++ md_lastSynced (metadata tokens);
           lit " * Source: Figma file "
             ++ or_else (md_figmaFileKey (metadata tokens)) (lit "unknown");
           lit " * DO NOT EDIT MANUALLY - This file is auto-generated";
           lit " */";
           [];
           lit ":root {";
           lit "}";
           [];
           litq "[data-theme='dark'] {";
           lit "  /* Dark mode overrides - customize as needed */";
           lit "}" ]
  /\ toSCSS (no_tokens (metadata tokens))
     = join nl
         [ lit "//";
           lit "// Origin OS Design Tokens (SCSS)";
           lit "// Generated: " ++ md_lastSynced (metadata tokens);
           lit "// DO NOT EDIT MANUALLY - This file is auto-generated";
           lit "//";
           [] ]
  /\ toTailwindConfig (no_tokens (metadata tokens))
     = join nl
         [ lit "/**";
           lit " * Origin OS Tailwind Design Tokens";
           lit " * Generated: " ++ md_lastSynced (metadata tokens);
           lit " * DO NOT EDIT MANUALLY - This file is auto-generated";
           lit " */";
           [];
           litq "/** @type {import('tailwindcss').Config} */";
           lit "module.exports = {";
           litq "  'theme': {";
           litq "    'extend': {";
           litq "      'colors': {},";
           litq "      'fontFamily': {},";
           litq "      'fontSize': {},";
           litq "      'fontWeight': {},";
           litq "      'lineHeight': {},";
           litq "      'letterSpacing': {},";
           litq "      'spacing': {},";
           litq "      'boxShadow': {},";
           litq "      'blur': {}";
           lit "    }";
           lit "  }";
           lit "}" ]
  /\ toJSON (no_tokens (metadata tokens))
     = join nl
         [ lit "{";
           litq "  '$schema': 'https://design-tokens.github.io/community-group/format/',";
           litq "  '$metadata': {";
           litq "    'generator': 'origin-os-figma-sync',";
           litq "    'version': "
             ++ json_quote (md_version (metadata tokens)) ++ lit ",";
           litq "    'lastSynced': "
             ++ json_quote (md_lastSynced (metadata tokens)) ++ lit ",";
           litq "    'source': {";
           litq "      'type': 'figma'"
             ++ match md_figmaFileKey (metadata tokens) with
                | Some k => lit "," ++ nl ++ litq "      'fileKey': "
                              ++ json_quote k
                | None => []
                end;
           lit "    }";
           lit "  },";
           litq "  'color': {},";
           litq "  'typography': {},";
           litq "  'spacing': {},";
           litq "  'effect': {}";
           lit "}" ].
Proof.
  split.
  { intros H.
    assert (T : tailwind_colors tokens = [])
      by (unfold tailwind_colors; rewrite H; reflexivity).
    assert (J : json_colors tokens = [])
      by (unfold json_colors; rewrite H; reflexivity).
    split; [apply css_omits_colors, H|].
    split; [apply scss_omits_colors, H|].
    split; [exact T|].
    split; [eapply tailwind_empty_printed with (category := "colors"%string);
            [left; reflexivity | exact T]|].
    split; [exact J|].
    eapply json_empty_printed with (category := "color"%string);
      [do 2 right; left; reflexivity | exact J]. }
  split.
  { intros H.
    assert (F : tailwind_fontFamilies tokens = [])
      by (unfold tailwind_fontFamilies; rewrite H; reflexivity).
    assert (S : tailwind_fontSizes tokens = [])
      by (unfold tailwind_fontSizes; rewrite H; reflexivity).
    assert (J : json_typography tokens = [])
      by (unfold json_typography; rewrite H; reflexivity).
    split; [apply css_omits_typography, H|].
    split; [apply scss_omits_typography, H|].
    split; [exact F|]. split; [exact S|].
    split; [eapply tailwind_empty_printed with (category := "fontFamily"%string);
            [right; left; reflexivity | rewrite F; reflexivity]|].
    split; [eapply tailwind_empty_printed with (category := "fontSize"%string);
            [do 2 right; left; reflexivity | exact S]|].
    split; [exact J|].
    eapply json_empty_printed with (category := "typography"%string);
      [do 3 right; left; reflexivity | exact J]. }
  split.
  { intros H.
    assert (T : tailwind_spacing tokens = [])
      by (unfold tailwind_spacing; rewrite H; reflexivity).
    assert (J : json_spacing tokens = [])
      by (unfold json_spacing; rewrite H; reflexivity).
    split; [apply css_omits_spacing, H|].
    split; [apply scss_omits_spacing, H|].
    split; [exact T|].
    split; [eapply tailwind_empty_printed with (category := "spacing"%string);
            [do 6 right; left; reflexivity | exact T]|].
    split; [exact J|].
    eapply json_empty_printed with (category := "spacing"%string);
      [do 4 right; left; reflexivity | exact J]. }
  split.
  { intros H.
    assert (B : tailwind_boxShadow tokens = [])
      by (unfold tailwind_boxShadow; rewrite H; reflexivity).
    assert (L : tailwind_blur tokens = [])
      by (unfold tailwind_blur; rewrite H; reflexivity).
    assert (J : json_effects tokens = [])
      by (unfold json_effects; rewrite H; reflexivity).
    split; [apply css_omits_effects, H|].
    split; [apply scss_omits_effects, H|].
    split; [exact B|]. split; [exact L|].
    split; [eapply tailwind_empty_printed with (category := "boxShadow"%string);
            [do 7 right; left; reflexivity | exact B]|].
    split; [eapply tailwind_empty_printed with (category := "blur"%string);
            [do 8 right; left; reflexivity | exact L]|].
    split; [exact J|].
    eapply json_empty_printed with (category := "effect"%string);
      [do 5 right; left; reflexivity | exact J]. }
  split; [apply (join_prefix nl (css_header (metadata tokens)))|].
  split; [apply (join_prefix nl (scss_header (metadata tokens)))|].
  split; [reflexivity|].
  split; [apply json_document_head|].
  split; [reflexivity|].
  split; [reflexivity|].
  split; [reflexivity|].
  apply json_document_empty.
Qed.


End EmptyCategoriesPerFormat.

(* ================================================================== *)
(** ** Concrete runs *)

(** C8 as stated fails: for the Token Set without any token, the JSON and
    Tailwind outputs print an empty object for every category, the JSON
    output starts with a brace rather than a comment block, and the file key
    occurs neither in the Tailwind nor in the SCSS output. *)
Lemma empty_categories_are_printed :
  colors (no_tokens sample_metadata) = []
  /\ is_infix (litq "'color': {}")
       (toJSON (host := plain_host) (no_tokens sample_metadata)) = true
  /\ is_infix (litq "'colors': {}")
       (toTailwindConfig (host := plain_host) (no_tokens sample_metadata))
     = true
  /\ has_prefix (lit "{")
       (toJSON (host := plain_host) (no_tokens sample_metadata)) = true
  /\ is_infix (lit "DO NOT EDIT")
       (toJSON (host := plain_host) (no_tokens sample_metadata)) = false
  /\ md_figmaFileKey sample_metadata = Some (lit "FILEKEY123")
  /\ is_infix (lit "FILEKEY123")
       (toTailwindConfig (host := plain_host) (no_tokens sample_metadata))
     = false
  /\ is_infix (lit "FILEKEY123")
       (toSCSS (host := plain_host) (no_tokens sample_metadata)) = false.
Proof. repeat split; vm_compute; reflexivity. Qed.

(** C4 as stated fails: a color variable without a first-mode value that
    tokenizes to the key of a fill style writes nothing, and the token of the
    style stays, opacity included; and of two color variables with one key
    the earlier one is not the one in the final map. *)
Lemma colliding_variable_may_lose :
  has_type "FILL" primary_style = true
  /\ var_resolvedType valueless_variable = lit "COLOR"
  /\ tokenizeName (host := plain_host) (style_name primary_style)
     = tokenizeName (host := plain_host) (var_name valueless_variable)
  /\ rget (tokenizeName (host := plain_host) (var_name valueless_variable))
       (extractColors (host := plain_host) valueless_file [primary_style])
     = Some {| ct_name := lit "Colors / Primary";
               ct_value := lit "#ff0000";
               ct_opacity := Some (1 # 2);
               ct_description := Some (lit "Brand color");
               ct_figmaId := Some (lit "key-primary") |}
  /\ var_resolvedType primary_variable = lit "COLOR"
  /\ first_mode_value primary_variable = Some blue
  /\ tokenizeName (host := plain_host) (style_name primary_style)
     = tokenizeName (host := plain_host) (var_name primary_variable)
  /\ rget (tokenizeName (host := plain_host) (var_name primary_variable))
       (extractColors (host := plain_host) two_variables_file [primary_style])
     = Some {| ct_name := lit "colors primary";
               ct_value := lit "#ff0000";
               ct_opacity := None;
               ct_description := None;
               ct_figmaId := Some (lit "VariableID:1:9") |}
  /\ figmaColorToHex (host := plain_host) blue = lit "#0000ff".
Proof. repeat split; vm_compute; reflexivity. Qed.

Lemma empty_categories_per_format_witness :
  (css_omits (host := plain_host) [lit "  --color-"; lit "  /* Colors"]
     sample_tokens
   /\ scss_omits (host := plain_host) [lit "$color"; lit "// Colors"]
        sample_tokens
   /\ contains (toTailwindConfig (host := plain_host) sample_tokens)
        (litq "'colors': {}")
   /\ contains (toJSON (host := plain_host) sample_tokens)
        (litq "'color': {}"))
  /\ contains (toJSON (host := plain_host) (no_tokens sample_metadata))
       (litq "'typography': {}")
  /\ contains (toJSON (host := plain_host) (no_tokens sample_metadata))
       (litq "'spacing': {}")
  /\ contains (toJSON (host := plain_host) (no_tokens sample_metadata))
       (litq "'effect': {}").
Proof.
  destruct (empty_categories_per_format (host := plain_host) sample_tokens)
    as (Hc & _).
  destruct (empty_categories_per_format (host := plain_host)
              (no_tokens sample_metadata)) as (_ & Ht & Hs & He & _).
  destruct (Hc eq_refl) as (C1 & C2 & _ & C3 & _ & C4).
  destruct (Ht eq_refl) as (_ & _ & _ & _ & _ & _ & _ & T).
  destruct (Hs eq_refl) as (_ & _ & _ & _ & _ & S).
  destruct (He eq_refl) as (_ & _ & _ & _ & _ & _ & _ & E).
  repeat split; assumption.
Defined.

Ltac differ := let E := fresh in intro E; vm_compute in E; discriminate E.

Lemma figmaColorToHex_bytes_witness :
  figmaColorToHex (host := plain_host) (mkFigmaColor (1 # 2) (1 # 4) 1 None)
  = lit "#" ++ two_digit_hex 128 ++ two_digit_hex 64 ++ two_digit_hex 255
  /\ length (figmaColorToHex (host := plain_host)
               (mkFigmaColor (1 # 2) (1 # 4) 1 None)) = 7%nat.
Proof.
  pose proof (proj1 (figmaColorToHex_bytes (host := plain_host))
                (mkFigmaColor (1 # 2) (1 # 4) 1 None)) as H.
  assert (U1 : unit_interval (1 # 2)) by (split; vm_compute; discriminate).
  assert (U2 : unit_interval (1 # 4)) by (split; vm_compute; discriminate).
  assert (U3 : unit_interval 1) by (split; vm_compute; discriminate).
  destruct (H U1 U2 U3) as (r & g & b & Er & Eg & Eb & _ & _ & _ & E & L).
  vm_compute in Er, Eg, Eb.
  injection Er as <-. injection Eg as <-. injection Eb as <-.
  split; [exact E | exact L].
Defined.


Lemma findNodeByStyleId_first_in_preorder_witness :
  findNodeByStyleId two_matches (lit "S:7") = None.
Proof.
  apply (proj1 (proj2 findNodeByStyleId_first_in_preorder)).
  repeat constructor.
Defined.

Lemma extractSpacing_default_witness :
  extractSpacing (host := plain_host) sample_file = default_spacing
  /\ entries (extractSpacing (host := plain_host) sample_file)
     = default_spacing
  /\ extractSpacing (host := plain_host) boxless_spacing_file
     = default_spacing.
Proof.
  assert (H : Forall (fun node => toLowerCase (host := plain_host)
                                    (node_name node)
                                  <> toLowerCase (host := plain_host)
                                       (lit "Spacing"))
                (preorder (fd_document sample_file))).
  { repeat constructor; differ. }
  destruct (extractSpacing_default (host := plain_host) sample_file
              (or_introl H)) as (E1 & E2 & _).
  assert (H' : exists frame,
             find (same_name (host := plain_host) (lit "Spacing"))
               (preorder (fd_document boxless_spacing_file)) = Some frame
             /\ match node_children frame with
                | None => True
                | Some children =>
                    Forall (fun child => node_absoluteBoundingBox child = None)
                      children
                end).
  { eexists. split; [vm_compute; reflexivity|]. repeat constructor. }
  destruct (extractSpacing_default (host := plain_host) boxless_spacing_file
              (or_intror H')) as (E3 & _).
  split; [exact E1 | split; [exact E2 | exact E3]].
Defined.

Lemma variable_overwrites_style_witness :
  rget (tokenizeName (host := plain_host) (var_name primary_variable))
    (extractColors (host := plain_host) sample_file
       [primary_style; heading_style; elevation_style])
  = Some {| ct_name := lit "Colors/Primary";
            ct_value := figmaColorToHex (host := plain_host) blue;
            ct_opacity := None;
            ct_description := None;
            ct_figmaId := Some (lit "VariableID:1:7") |}
  /\ tokenizeName (host := plain_host) (style_name primary_style)
     = tokenizeName (host := plain_host) (var_name primary_variable).
Proof.
  split; [|vm_compute; reflexivity].
  apply (@variable_overwrites_style plain_host sample_file
           [primary_style; heading_style; elevation_style]
           [(lit "VariableID:1:7", primary_variable)] [] []
           (lit "VariableID:1:7") primary_variable blue).
  - reflexivity.
  - reflexivity.
  - reflexivity.
  - vm_compute. reflexivity.
  - constructor.
Defined.

Lemma malformed_style_is_skipped_witness :
  extractColors (host := plain_host) sample_file
    ([outline_style] ++ dangling_style :: [primary_style])
  = extractColors (host := plain_host) sample_file
      ([outline_style] ++ [primary_style])
  /\ extractColors (host := plain_host) sample_file
       ([] ++ outline_style :: [primary_style])
     = extractColors (host := plain_host) sample_file ([] ++ [primary_style])
  /\ colorStyleStep (host := plain_host) sample_file [] outline_style = [].
Proof.
  assert (Hd : malformed sample_file dangling_style)
    by (vm_compute; exact I).
  assert (Ho : malformed sample_file outline_style).
  { vm_compute. repeat split; intros; try reflexivity; discriminate. }
  destruct (@malformed_style_is_skipped plain_host sample_file
              [outline_style] [primary_style] dangling_style Hd)
    as (_ & _ & _ & E1 & _).
  destruct (@malformed_style_is_skipped plain_host sample_file
              [] [primary_style] outline_style Ho)
    as (S & _ & _ & E2 & _).
  split; [exact E1 | split; [exact E2 | apply S; reflexivity]].
Defined.



(* ================================================================== *)
(** ** Canonical keys are the fixed points of [tokenizeName] *)

Section CanonicalForm.
Context {host : JsHost}.

Lemma strip_leading_start (s : jsstring) :
  starts_with is_hyphen (strip_leading_hyphens s) = false.
Proof.
  induction s as [|c s IH]; [reflexivity|]. simpl.
  destruct (is_hyphen c) eqn:E; [exact IH | simpl; exact E].
Qed.

Lemma strip_leading_single (s : jsstring) :
  single_hyphens s -> single_hyphens (strip_leading_hyphens s).
Proof.
  induction s as [|c s IH]; [auto|]. intros H. simpl.
  destruct (is_hyphen c); [apply IH, H | exact H].
Qed.

Lemma strip_trailing_head (s : jsstring) (x : N) (t : jsstring) :
  strip_trailing_hyphens s = x :: t -> exists rest, s = x :: rest.
Proof.
  destruct s as [|c s]; [discriminate|]. simpl.
  destruct (strip_trailing_hyphens s).
  - destruct (is_hyphen c); [discriminate|]. intros [= <- _]. eauto.
  - intros [= <- _]. eauto.
Qed.

Lemma strip_trailing_start (s : jsstring) :
  starts_with is_hyphen s = false ->
  starts_with is_hyphen (strip_trailing_hyphens s) = false.
Proof.
  destruct s as [|c s]; [reflexivity|]. simpl. intros Hc.
  destruct (strip_trailing_hyphens s).
  - rewrite Hc. exact Hc.
  - exact Hc.
Qed.

Lemma strip_trailing_single (s : jsstring) :
  single_hyphens s -> single_hyphens (strip_trailing_hyphens s).
Proof.
  induction s as [|c s IH]; [auto|]. intros [Hc Hs]. simpl.
  destruct (strip_trailing_hyphens s) as [|x t] eqn:E.
  - destruct (is_hyphen c); simpl; auto.
  - cbn [single_hyphens]. split; [|apply IH, Hs].
    intros Hh. destruct (strip_trailing_head s E) as [rest ->].
    exact (Hc Hh).
Qed.

Lemma strip_trailing_end (s : jsstring) :
  ends_with_hyphen (strip_trailing_hyphens s) = false.
Proof.
  induction s as [|c s IH]; [reflexivity|]. simpl.
  destruct (strip_trailing_hyphens s) as [|x t].
  - destruct (is_hyphen c) eqn:E; [reflexivity | simpl; exact E].
  - exact IH.
Qed.

Lemma tokenizeName_canonical_form (name : jsstring) :
  canonical_form (tokenizeName name).
Proof.
  split; [apply tokenizeName_key_chars|].
  rewrite tokenizeName_canonical. unfold canonical_key.
  split; [|split].
  - apply strip_trailing_single, strip_leading_single, collapse_hyphens_single.
  - apply strip_trailing_start, strip_leading_start.
  - apply strip_trailing_end.
Qed.

Lemma key_char_plain (c : N) :
  is_key_char c = true ->
  is_ascii c = true /\ lower_ascii c = c /\ is_slash c = false
  /\ is_js_space c = false.
Proof.
  intros H.
  assert (Hlt : (c < 123)%N).
  { unfold is_key_char, is_hyphen, hyphen in H.
    destruct (N.leb_spec 97 c), (N.leb_spec c 122), (N.leb_spec 48 c),
      (N.leb_spec c 57), (N.eqb_spec c 45); simpl in H;
      try discriminate; lia. }
  assert (All : forallb
                  (fun n => let c := N.of_nat n in
                            implb (is_key_char c)
                              (is_ascii c && N.eqb (lower_ascii c) c
                               && negb (is_slash c) && negb (is_js_space c)))
                  (seq 0 123) = true) by (vm_compute; reflexivity).
  rewrite forallb_forall in All. specialize (All (N.to_nat c)).
  rewrite N2Nat.id in All. cbv zeta in All. rewrite H in All. simpl in All.
  assert (Hin : In (N.to_nat c) (seq 0 123)) by (apply in_seq; lia).
  specialize (All Hin).
  repeat (apply andb_prop in All; destruct All as [All ?]).
  repeat split; try assumption.
  - apply N.eqb_eq. assumption.
  - apply negb_true_iff. assumption.
  - apply negb_true_iff. assumption.
Qed.

Lemma toLowerCase_key_chars (s : jsstring) : key_chars s -> toLowerCase s = s.
Proof.
  intros H. unfold toLowerCase.
  assert (A : forallb is_ascii s = true).
  { apply forallb_forall. intros c Hc. unfold key_chars in H.
    rewrite Forall_forall in H. apply (key_char_plain c (H c Hc)). }
  rewrite A. induction H as [|c s Hc _ IH]; [reflexivity|]. simpl.
  simpl in A. apply andb_prop in A.
  rewrite IH by apply A. f_equal. apply (key_char_plain c Hc).
Qed.

Lemma slashes_key_chars (s : jsstring) : key_chars s -> slashes_to_hyphens s = s.
Proof.
  induction 1 as [|c s Hc _ IH]; [reflexivity|]. simpl. rewrite IH.
  destruct (key_char_plain c Hc) as (_ & _ & E & _). rewrite E. reflexivity.
Qed.

Lemma collapse_runs_none (p : N -> bool) (s : jsstring) :
  Forall (fun c => p c = false) s -> collapse_runs p s = s.
Proof.
  induction 1 as [|c s Hc _ IH]; [reflexivity|]. simpl.
  rewrite Hc, IH. reflexivity.
Qed.

Lemma keep_key_chars_id (s : jsstring) : key_chars s -> keep_key_chars s = s.
Proof.
  induction 1 as [|c s Hc _ IH]; [reflexivity|]. unfold keep_key_chars in *.
  simpl. rewrite Hc, IH. reflexivity.
Qed.

Lemma collapse_single_hyphens (s : jsstring) :
  single_hyphens s -> collapse_runs is_hyphen s = s.
Proof.
  induction s as [|c s IH]; [reflexivity|]. intros [Hc Hs].
  cbn [collapse_runs]. rewrite (IH Hs).
  destruct (is_hyphen c) eqn:E; [|reflexivity].
  apply N.eqb_eq in E. subst c. specialize (Hc eq_refl).
  destruct s as [|d s]; [reflexivity|]. simpl in Hc. rewrite Hc. reflexivity.
Qed.

Lemma strip_leading_none (s : jsstring) :
  starts_with is_hyphen s = false -> strip_leading_hyphens s = s.
Proof.
  destruct s as [|c s]; [reflexivity|]. simpl. intros ->. reflexivity.
Qed.

Lemma strip_trailing_none (s : jsstring) :
  ends_with_hyphen s = false -> strip_trailing_hyphens s = s.
Proof.
  induction s as [|c s IH]; [reflexivity|]. intros H. simpl.
  destruct s as [|d s].
  - simpl in *. rewrite H. reflexivity.
  - rewrite (IH H). reflexivity.
Qed.

Lemma tokenizeName_fixes_canonical (s : jsstring) :
  canonical_form s -> tokenizeName s = s.
Proof.
  intros (Hk & Hs & Hl & Ht).
  rewrite tokenizeName_canonical. unfold canonical_key.
  rewrite (toLowerCase_key_chars Hk), (slashes_key_chars Hk).
  rewrite (@collapse_runs_none is_js_space s).
  - rewrite (keep_key_chars_id Hk), (collapse_single_hyphens _ Hs).
    rewrite (strip_leading_none _ Hl). apply strip_trailing_none, Ht.
  - eapply Forall_impl; [|exact Hk]. intros c Hc. apply (key_char_plain c Hc).
Qed.

(** X1.  Every key [tokenizeName] returns consists of the characters a-z,
    0-9 and the hyphen only, has no two hyphens in a row and no hyphen at
    either end; in particular it is never the name __proto__, so the
    assignment that stores a token under it always creates a property. *)
Theorem tokenizeName_yields_canonical_form (name : jsstring) :
  canonical_form (tokenizeName name)
  /\ jsstring_eqb (tokenizeName name) proto_key = false.
Proof.
  split; [apply tokenizeName_canonical_form | apply tokenizeName_not_proto].
Qed.

(** X2.  A string in canonical form is left unchanged by [tokenizeName], and
    [tokenizeName] is idempotent: a key can be tokenized again without
    changing it. *)
Theorem tokenizeName_idempotent :
  (forall s : jsstring, canonical_form s -> tokenizeName s = s)
  /\ (forall name : jsstring,
        tokenizeName (tokenizeName name) = tokenizeName name).
Proof.
  split; [exact tokenizeName_fixes_canonical|].
  intros name. apply tokenizeName_fixes_canonical, tokenizeName_canonical_form.
Qed.

End CanonicalForm.

(* ================================================================== *)
(** ** The shape of the extracted dictionaries *)

Section CanonicalDicts.
Context {host : JsHost}.

Lemma rupdate_keys_In (V : Type) (k x : jsstring) (v : V) (r : Dict V) :
  In x (map fst (rupdate k v r)) -> x = k \/ In x (map fst r).
Proof.
  induction r as [|[k' v'] r IH]; simpl.
  - intros [<-|[]]. auto.
  - destruct (jsstring_eqb k' k); simpl; intros [<-|H]; auto.
    destruct (IH H); auto.
Qed.

Lemma rupdate_NoDup (V : Type) (k : jsstring) (v : V) (r : Dict V) :
  NoDup (map fst r) -> NoDup (map fst (rupdate k v r)).
Proof.
  induction r as [|[k' v'] r IH]; simpl; intros H.
  - repeat constructor. auto.
  - inversion H as [|? ? Hk Hr]; subst.
    destruct (jsstring_eqb k' k) eqn:E; simpl; [constructor; assumption|].
    constructor; [|apply IH, Hr].
    intros Hin. apply rupdate_keys_In in Hin. destruct Hin as [->|Hin].
    + rewrite jsstring_eqb_refl in E. discriminate.
    + exact (Hk Hin).
Qed.

Lemma rupdate_Forall_keys (V : Type) (P : jsstring -> Prop) (k : jsstring)
  (v : V) (r : Dict V) :
  P k -> Forall (fun kv => P (fst kv)) r ->
  Forall (fun kv => P (fst kv)) (rupdate k v r).
Proof.
  intros Hk H. induction H as [|[k' v'] r Hx Hr IH]; simpl.
  - repeat constructor. exact Hk.
  - destruct (jsstring_eqb k' k); constructor; assumption.
Qed.

Lemma rset_canonical (V : Type) (k : jsstring) (v : V) (r : Dict V) :
  canonical_form k -> canonical_dict r -> canonical_dict (rset k v r).
Proof.
  intros Hk [Hn Hf]. unfold rset.
  destruct (jsstring_eqb k proto_key); [split; assumption|].
  split; [apply rupdate_NoDup, Hn|].
  apply (rupdate_Forall_keys canonical_form); assumption.
Qed.

Lemma fold_canonical (A V : Type) (step : Dict V -> A -> Dict V)
  (l : list A) (acc : Dict V) :
  (forall acc x, canonical_dict acc -> canonical_dict (step acc x)) ->
  canonical_dict acc -> canonical_dict (fold_left step l acc).
Proof.
  intros Hstep. revert acc.
  induction l as [|x l IH]; intros acc H; simpl; [exact H|].
  apply IH, Hstep, H.
Qed.

Lemma nil_canonical (V : Type) : canonical_dict (@nil (jsstring * V)).
Proof. split; constructor. Qed.

Lemma colorStyleStep_canonical fileData colors style :
  canonical_dict colors -> canonical_dict (colorStyleStep fileData colors style).
Proof.
  intros H. unfold colorStyleStep.
  destruct (findNodeByStyleId _ _) as [node|]; [|exact H].
  destruct (node_fills node) as [[|fill fills]|]; try exact H.
  destruct (paint_color fill); [|exact H].
  apply rset_canonical; [apply tokenizeName_canonical_form | exact H].
Qed.

Lemma colorVariableStep_canonical colors entry :
  canonical_dict colors -> canonical_dict (colorVariableStep colors entry).
Proof.
  intros H. destruct entry as [id variable]. unfold colorVariableStep.
  destruct (jsstring_eqb _ _); [|exact H].
  destruct (first_mode_value variable); [|exact H].
  apply rset_canonical; [apply tokenizeName_canonical_form | exact H].
Qed.

Lemma typographyStyleStep_canonical fileData typography style :
  canonical_dict typography ->
  canonical_dict (typographyStyleStep fileData typography style).
Proof.
  intros H. unfold typographyStyleStep.
  destruct (findNodeByStyleId _ _) as [node|]; [|exact H].
  destruct (node_style node); [|exact H].
  apply rset_canonical; [apply tokenizeName_canonical_form | exact H].
Qed.

Lemma effectStyleStep_canonical fileData effects style :
  canonical_dict effects ->
  canonical_dict (effectStyleStep fileData effects style).
Proof.
  intros H. unfold effectStyleStep.
  destruct (findNodeByStyleId _ _) as [node|]; [|exact H].
  destruct (node_effects node) as [[|effect effs]|]; try exact H.
  apply rset_canonical; [apply tokenizeName_canonical_form | exact H].
Qed.

Lemma spacingChildStep_canonical spacing child :
  canonical_dict spacing -> canonical_dict (spacingChildStep spacing child).
Proof.
  intros H. unfold spacingChildStep.
  destruct (node_absoluteBoundingBox child); [|exact H].
  apply rset_canonical; [apply tokenizeName_canonical_form | exact H].
Qed.

Lemma default_spacing_canonical : canonical_dict default_spacing.
Proof.
  split.
    unfold default_spacing, default_spacing_token. simpl map.
    repeat (constructor; [simpl; intuition discriminate|]). constructor.
  - assert (E : map fst default_spacing
                = map tokenizeName (map fst default_spacing))
      by (vm_compute; reflexivity).
    apply Forall_forall. intros [k v] Hin.
    apply (in_map fst) in Hin. rewrite E in Hin.
    apply in_map_iff in Hin. destruct Hin as [name [<- _]].
    apply tokenizeName_canonical_form.
Qed.

Lemma extractSpacing_canonical fileData :
  canonical_dict (extractSpacing fileData).
Proof.
  unfold extractSpacing.
  set (spacing := match findNodeByName _ _ with
                  | Some frame =>
                      match node_children frame with
                      | Some children => fold_left spacingChildStep children []
                      | None => []
                      end
                  | None => []
                  end).
  assert (H : canonical_dict spacing).
  { unfold spacing. destruct (findNodeByName _ _) as [frame|];
      [|apply nil_canonical].
    destruct (node_children frame); [|apply nil_canonical].
    apply fold_canonical; [|apply nil_canonical].
    intros acc x. apply spacingChildStep_canonical. }
  rewrite keys_length. destruct spacing as [|kv spacing]; [|exact H].
  simpl. rewrite default_scale_tokens. apply default_spacing_canonical.
Qed.

Lemma extractColors_canonical fileData styles :
  canonical_dict (extractColors fileData styles).
Proof.
  unfold extractColors, extractColorVariables.
  assert (H : canonical_dict
                (fold_left (colorStyleStep fileData)
                   (filter (has_type "FILL") styles) [])).
  { apply fold_canonical; [|apply nil_canonical].
    intros acc x. apply colorStyleStep_canonical. }
  destruct (fd_variables fileData); [|exact H].
  apply fold_canonical; [|exact H].
  intros acc x. apply colorVariableStep_canonical.
Qed.

(** X3.  Each of the four dictionaries of an extracted Token Set has pairwise
    distinct keys, all in canonical form, whatever the document and the style
    list are; none of its keys is therefore __proto__. *)
Theorem extracted_dicts_are_canonical (fileData : FileData)
  (styles : list Style) :
  canonical_dict (extractColors fileData styles)
  /\ canonical_dict (extractTypography fileData styles)
  /\ canonical_dict (extractSpacing fileData)
  /\ canonical_dict (extractEffects fileData styles).
Proof.
  split; [|split; [|split]].
  - apply extractColors_canonical.
  - unfold extractTypography. apply fold_canonical; [|apply nil_canonical].
    intros acc x. apply typographyStyleStep_canonical.
  - apply extractSpacing_canonical.
  - unfold extractEffects. apply fold_canonical; [|apply nil_canonical].
    intros acc x. apply effectStyleStep_canonical.
Qed.

End CanonicalDicts.

(* ================================================================== *)
(** ** Collisions inside one category: the last writer wins *)

Section LastWriter.
Context {host : JsHost}.

Lemma fold_filter_other (A V : Type) (step : Dict V -> A -> Dict V)
  (p : A -> bool) (l : list A) (k : jsstring) :
  Forall (fun x => p x = true ->
                   forall acc, rget k (step acc x) = rget k acc) l ->
  forall acc, rget k (fold_left step (filter p l) acc) = rget k acc.
Proof.
  induction 1 as [|x l Hx _ IH]; intros acc; simpl; [reflexivity|].
  destruct (p x) eqn:Hp; [|apply IH].
  simpl. rewrite IH. apply Hx. reflexivity.
Qed.

Lemma fold_filter_last (A V : Type) (step : Dict V -> A -> Dict V)
  (p : A -> bool) (before after : list A) (x : A) (k : jsstring) (v : V) :
  p x = true ->
  (forall acc, rget k (step acc x) = Some v) ->
  Forall (fun y => p y = true ->
                   forall acc, rget k (step acc y) = rget k acc) after ->
  rget k (fold_left step (filter p (before ++ x :: after)) [])
  = Some v.
Proof.
  intros Hp Hx Hafter. rewrite filter_app, fold_left_app. simpl.
  rewrite Hp. simpl. rewrite fold_filter_other by exact Hafter. apply Hx.
Qed.

Lemma typographyStyleStep_other fileData typography style k :
  malformed fileData style \/ tokenizeName (style_name style) <> k ->
  has_type "TEXT" style = true ->
  rget k (typographyStyleStep fileData typography style) = rget k typography.
Proof.
  intros [H|H] Ht.
  - rewrite typographyStyleStep_malformed by assumption. reflexivity.
  - unfold typographyStyleStep.
    destruct (findNodeByStyleId _ _) as [node|]; [|reflexivity].
    destruct (node_style node); [|reflexivity].
    apply rget_rset_other. congruence.
Qed.

Lemma effectStyleStep_other fileData effects style k :
  malformed fileData style \/ tokenizeName (style_name style) <> k ->
  has_type "EFFECT" style = true ->
  rget k (effectStyleStep fileData effects style) = rget k effects.
Proof.
  intros [H|H] Ht.
  - rewrite effectStyleStep_malformed by assumption. reflexivity.
  - unfold effectStyleStep.
    destruct (findNodeByStyleId _ _) as [node|]; [|reflexivity].
    destruct (node_effects node) as [[|effect effs]|]; try reflexivity.
    apply rget_rset_other. congruence.
Qed.

(** X4.  Among the text styles that resolve to a node with a style object
    and tokenize to one key, the last one in the style list supplies the
    typography token, whatever precedes it; the token copies family, size,
    weight and letter spacing and takes the pixel line height of the node. *)
Theorem typography_last_style_wins (fileData : FileData)
  (before after : list Style) (style : Style) (node : Node)
  (textStyle : FigmaTextStyle) :
  has_type "TEXT" style = true ->
  findNodeByStyleId (fd_document fileData) (style_node_id style) = Some node ->
  node_style node = Some textStyle ->
  Forall (fun later =>
            malformed fileData later
            \/ tokenizeName (style_name later)
               <> tokenizeName (style_name style)) after ->
  rget (tokenizeName (style_name style))
    (extractTypography fileData (before ++ style :: after))
  = Some {| tt_name := style_name style;
            tt_fontFamily := ts_fontFamily textStyle;
            tt_fontSize := ts_fontSize textStyle;
            tt_fontWeight := ts_fontWeight textStyle;
            tt_lineHeight := LhNumber (ts_lineHeightPx textStyle);
            tt_letterSpacing := ts_letterSpacing textStyle;
            tt_description := style_description style;
            tt_figmaId := Some (style_key style) |}.
Proof.
  intros Ht Hn Hs Hafter. unfold extractTypography.
  apply fold_filter_last.
  - exact Ht.
  - intros acc. unfold typographyStyleStep. rewrite Hn, Hs.
    apply rget_rset_same, tokenizeName_not_proto.
  - eapply Forall_impl; [|exact Hafter]. intros later H Hl acc.
    apply typographyStyleStep_other; assumption.
Qed.

(** X5.  Among the effect styles that resolve to a node with a first effect
    and tokenize to one key, the last one in the style list supplies the
    effect token; a missing offset gives offsets 0, a missing spread gives
    spread 0, a missing color gives no color, and the blur is the radius. *)
Theorem effect_last_style_wins (fileData : FileData)
  (before after : list Style) (style : Style) (node : Node)
  (effect : FigmaEffect) (others : list FigmaEffect) :
  has_type "EFFECT" style = true ->
  findNodeByStyleId (fd_document fileData) (style_node_id style) = Some node ->
  node_effects node = Some (effect :: others) ->
  Forall (fun later =>
            malformed fileData later
            \/ tokenizeName (style_name later)
               <> tokenizeName (style_name style)) after ->
  rget (tokenizeName (style_name style))
    (extractEffects fileData (before ++ style :: after))
  = Some {| et_name := style_name style;
            et_type := mapEffectType (eff_type effect);
            et_value :=
              {| ev_color := option_map figmaColorToRgba (eff_color effect);
                 ev_offsetX := Some (match eff_offset effect with
                                     | Some o => off_x o
                                     | None => 0
                                     end);
                 ev_offsetY := Some (match eff_offset effect with
                                     | Some o => off_y o
                                     | None => 0
                                     end);
                 ev_blur := Some (eff_radius effect);
                 ev_spread := Some (match eff_spread effect with
                                    | Some s => s
                                    | None => 0
                                    end) |};
            et_description := style_description style;
            et_figmaId := Some (style_key style) |}.
Proof.
  intros Ht Hn He Hafter. unfold extractEffects.
  apply fold_filter_last.
  - exact Ht.
  - intros acc. unfold effectStyleStep. rewrite Hn, He.
    apply rget_rset_same, tokenizeName_not_proto.
  - eapply Forall_impl; [|exact Hafter]. intros later H Hl acc.
    apply effectStyleStep_other; assumption.
Qed.

(* ================================================================== *)
(** ** Spacing read from the frame *)

Lemma spacingChildStep_other spacing child k :
  node_absoluteBoundingBox child = None
  \/ tokenizeName (node_name child) <> k ->
  rget k (spacingChildStep spacing child) = rget k spacing.
Proof.
  intros H. unfold spacingChildStep.
  destruct (node_absoluteBoundingBox child); [|reflexivity].
  destruct H as [H|H]; [discriminate|].
  apply rget_rset_other. congruence.
Qed.

Lemma spacing_children_other (children : list Node) spacing k :
  Forall (fun c => node_absoluteBoundingBox c = None
                   \/ tokenizeName (node_name c) <> k) children ->
  rget k (fold_left spacingChildStep children spacing) = rget k spacing.
Proof.
  intros H. revert spacing.
  induction H as [|c l Hc _ IH]; intros spacing; simpl; [reflexivity|].
  rewrite IH. apply spacingChildStep_other, Hc.
Qed.

Lemma spacing_children_keys (all children : list Node)
  (spacing : Dict SpacingToken) :
  incl children all ->
  Forall (fun kv => exists c, In c all
                              /\ node_absoluteBoundingBox c <> None
                              /\ fst kv = tokenizeName (node_name c)) spacing ->
  Forall (fun kv => exists c, In c all
                              /\ node_absoluteBoundingBox c <> None
                              /\ fst kv = tokenizeName (node_name c))
    (fold_left spacingChildStep children spacing).
Proof.
  revert spacing. induction children as [|c l IH]; intros spacing Hi H;
    simpl; [exact H|].
  apply IH; [intros x Hx; apply Hi; right; exact Hx|].
  unfold spacingChildStep.
  destruct (node_absoluteBoundingBox c) as [box|] eqn:E; [|exact H].
  unfold rset. destruct (jsstring_eqb _ proto_key); [exact H|].
  apply (rupdate_Forall_keys
           (fun k => exists c0, In c0 all
                                /\ node_absoluteBoundingBox c0 <> None
                                /\ k = tokenizeName (node_name c0)));
    [|exact H].
  exists c. split; [apply Hi; left; reflexivity|].
  split; [rewrite E; discriminate | reflexivity].
Qed.

(** X6.  When the first node named "Spacing" (up to case) has a child with a
    bounding box, the spacing tokens are read from the children alone: the
    last child that has a box and tokenizes to a key supplies the token, whose
    value is the box width rounded to an integer, and every key of the result
    is the tokenized name of a child with a box, so that no token of the
    default scale is added. *)
Theorem spacing_read_from_frame (fileData : FileData) (frame : Node)
  (before after : list Node) (child : Node) (box : BoundingBox) :
  find (same_name (lit "Spacing")) (preorder (fd_document fileData))
  = Some frame ->
  node_children frame = Some (before ++ child :: after) ->
  node_absoluteBoundingBox child = Some box ->
  Forall (fun later =>
            node_absoluteBoundingBox later = None
            \/ tokenizeName (node_name later)
               <> tokenizeName (node_name child)) after ->
  rget (tokenizeName (node_name child)) (extractSpacing fileData)
  = Some {| st_name := node_name child;
            st_value := inject_Z (Math_round (bb_width box));
            st_description := Some (lit "Spacing unit: " ++ node_name child) |}
  /\ Forall (fun kv =>
               exists c, In c (before ++ child :: after)
                         /\ node_absoluteBoundingBox c <> None
                         /\ fst kv = tokenizeName (node_name c))
       (extractSpacing fileData).
Proof.
  intros Hf Hc Hb Hafter. unfold extractSpacing.
  rewrite findNodeByName_find, Hf, Hc.
  set (spacing := fold_left spacingChildStep (before ++ child :: after) []).
  assert (Hget : rget (tokenizeName (node_name child)) spacing
                 = Some {| st_name := node_name child;
                           st_value := inject_Z (Math_round (bb_width box));
                           st_description :=
                             Some (lit "Spacing unit: " ++ node_name child) |}).
  { unfold spacing. rewrite fold_left_app. simpl.
    rewrite spacing_children_other by exact Hafter.
    unfold spacingChildStep. rewrite Hb.
    apply rget_rset_same, tokenizeName_not_proto. }
  assert (Hkeys : Forall (fun kv =>
                            exists c, In c (before ++ child :: after)
                                      /\ node_absoluteBoundingBox c <> None
                                      /\ fst kv = tokenizeName (node_name c))
                    spacing).
  { unfold spacing. apply spacing_children_keys;
      [apply incl_refl | constructor]. }
  rewrite keys_length. destruct spacing as [|kv rest]; [discriminate|].
  split; assumption.
Qed.

End LastWriter.

(* ================================================================== *)
(** ** Hex values and the bytes behind them *)

Lemma hex_digit_inj (a b : Z) :
  (0 <= a < 16)%Z -> (0 <= b < 16)%Z -> hex_digit a = hex_digit b -> a = b.
Proof.
  intros Ha Hb. unfold hex_digit.
  destruct (Z.ltb_spec a 10), (Z.ltb_spec b 10); intros E;
    apply Z2N.inj in E; lia.
Qed.

Lemma two_digit_hex_inj (x y : Z) :
  (0 <= x <= 255)%Z -> (0 <= y <= 255)%Z ->
  two_digit_hex x = two_digit_hex y -> x = y.
Proof.
  intros Hx Hy. unfold two_digit_hex. intros [= Hq Hr].
  apply hex_digit_inj in Hq;
    [|split; [apply Z.div_pos; lia | apply Z.div_lt_upper_bound; lia]..].
  apply hex_digit_inj in Hr; [|apply Z.mod_pos_bound; lia..].
  rewrite (Z.div_mod x 16), (Z.div_mod y 16) by lia. congruence.
Qed.

(** X7.  For colors whose channels lie in the unit interval, two hex values
    are equal exactly when the three channels round to the same bytes, the
    bytes being [Math.round] of the binary64 products: the alpha channel plays
    no part and no two byte triples share a hex value. *)
Theorem hex_equal_iff_bytes_equal {host : JsHost} (c1 c2 : FigmaColor) :
  unit_interval (col_r c1) -> unit_interval (col_g c1) ->
  unit_interval (col_b c1) ->
  unit_interval (col_r c2) -> unit_interval (col_g c2) ->
  unit_interval (col_b c2) ->
  figmaColorToHex c1 = figmaColorToHex c2
  <-> Math_round_of (fmul (col_r c1) 255) = Math_round_of (fmul (col_r c2) 255)
      /\ Math_round_of (fmul (col_g c1) 255)
         = Math_round_of (fmul (col_g c2) 255)
      /\ Math_round_of (fmul (col_b c1) 255)
         = Math_round_of (fmul (col_b c2) 255).
Proof.
  intros R1 G1 B1 R2 G2 B2.
  unfold figmaColorToHex. cbv zeta.
  destruct (channel_byte R1) as (r1 & -> & ?).
  destruct (channel_byte G1) as (g1 & -> & ?).
  destruct (channel_byte B1) as (b1 & -> & ?).
  destruct (channel_byte R2) as (r2 & -> & ?).
  destruct (channel_byte G2) as (g2 & -> & ?).
  destruct (channel_byte B2) as (b2 & -> & ?).
  rewrite !hex_byte_two_digits by assumption.
  split.
  - intros E. simpl in E. injection E as E1 E2 E3 E4 E5 E6.
    repeat split; f_equal; apply two_digit_hex_inj; try assumption;
      unfold two_digit_hex; congruence.
  - intros ([= ->] & [= ->] & [= ->]). reflexivity.
Qed.

(* ================================================================== *)
(** ** Font families in the Tailwind theme *)

Section FontFamilies.
Context {host : JsHost}.

Lemma slugify_key_chars (text : jsstring) : key_chars (slugify text).
Proof.
  unfold slugify. rewrite replace_each_strip.
  unfold keep_key_chars, key_chars. apply Forall_forall.
  intros c Hc. apply filter_In in Hc. apply Hc.
Qed.

Lemma key_chars_forallb (s : jsstring) :
  key_chars s -> forallb is_key_char s = true.
Proof.
  intros H. apply forallb_forall. unfold key_chars in H.
  rewrite Forall_forall in H. exact H.
Qed.

Lemma inherited_key_chars (k : jsstring) :
  key_chars k -> k <> lit "constructor" ->
  existsb (jsstring_eqb k) object_prototype_names = false.
Proof.
  intros Hk Hc.
  assert (All : forallb (fun name => jsstring_eqb name (lit "constructor")
                                     || negb (forallb is_key_char name))
                  object_prototype_names = true) by (vm_compute; reflexivity).
  rewrite forallb_forall in All.
  destruct (existsb (jsstring_eqb k) object_prototype_names) eqn:E;
    [|reflexivity].
  apply existsb_exists in E. destruct E as [name [Hin Heq]].
  apply jsstring_eqb_eq in Heq. subst name.
  specialize (All k Hin). apply orb_prop in All. destruct All as [A|A].
  - apply jsstring_eqb_eq in A. contradiction.
  - rewrite (key_chars_forallb Hk) in A. discriminate.
Qed.

Lemma tailwind_fontFamilies_fold (tokens : DesignTokens) :
  tailwind_fontFamilies tokens
  = fold_left fontFamilyStep (entries (typography tokens)) [].
Proof. reflexivity. Qed.

Lemma slug_not_proto (text : jsstring) :
  jsstring_eqb (slugify text) proto_key = false.
Proof.
  apply jsstring_eqb_neq. intros E.
  pose proof (slugify_key_chars text) as H. rewrite E in H.
  inversion H as [|? ? Hc _]. vm_compute in Hc. discriminate.
Qed.

Lemma fontFamilyStep_other acc kv k :
  slugify (tt_fontFamily (snd kv)) <> k ->
  rget k (fontFamilyStep acc kv) = rget k acc.
Proof.
  destruct kv as [key typo]. simpl. intros H.
  destruct (negb _); [|reflexivity]. apply rget_rset_other. congruence.
Qed.

Lemma fontFamilyStep_keeps acc kv k v :
  rget k acc = Some v -> rget k (fontFamilyStep acc kv) = Some v.
Proof.
  destruct kv as [key typo]. simpl. intros H.
  destruct (list_eq_dec N.eq_dec (slugify (tt_fontFamily typo)) k) as [E|E].
  - unfold reads_truthy. rewrite E, H. exact H.
  - destruct (negb _); [|exact H]. rewrite rget_rset_other by congruence.
    exact H.
Qed.

Lemma fontFamilies_keep (l : list (jsstring * TypographyToken)) acc k v :
  rget k acc = Some v -> rget k (fold_left fontFamilyStep l acc) = Some v.
Proof.
  revert acc. induction l as [|kv l IH]; intros acc H; simpl; [exact H|].
  apply IH, fontFamilyStep_keeps, H.
Qed.

Lemma fontFamilies_untouched (l : list (jsstring * TypographyToken)) acc k :
  Forall (fun kv => slugify (tt_fontFamily (snd kv)) <> k) l ->
  rget k (fold_left fontFamilyStep l acc) = rget k acc.
Proof.
  intros H. revert acc.
  induction H as [|kv l Hkv _ IH]; intros acc; simpl; [reflexivity|].
  rewrite IH. apply fontFamilyStep_other, Hkv.
Qed.

(** X8.  The Tailwind font-family object is keyed by the slug of the family
    name, and the first typography token (in enumeration order) with a given
    slug supplies its entry, a one-element list holding that token's family
    name; later tokens with the same slug do not replace it.  The slug
    "constructor" is excepted, see X9. *)
Theorem tailwind_first_family_wins (tokens : DesignTokens)
  (before after : list (jsstring * TypographyToken)) (key : jsstring)
  (typo : TypographyToken) :
  entries (typography tokens) = before ++ (key, typo) :: after ->
  Forall (fun kv => slugify (tt_fontFamily (snd kv))
                    <> slugify (tt_fontFamily typo)) before ->
  slugify (tt_fontFamily typo) <> lit "constructor" ->
  rget (slugify (tt_fontFamily typo)) (tailwind_fontFamilies tokens)
  = Some [tt_fontFamily typo].
Proof.
  intros He Hb Hc. rewrite tailwind_fontFamilies_fold, He, fold_left_app.
  simpl fold_left. apply fontFamilies_keep.
  pose proof (fontFamilies_untouched [] Hb) as Hnone. simpl in Hnone.
  set (acc := fold_left fontFamilyStep before []) in *.
  unfold fontFamilyStep, reads_truthy. rewrite Hnone.
  rewrite inherited_key_chars by (auto using slugify_key_chars).
  simpl. apply rget_rset_same, slug_not_proto.
Qed.

Lemma fontFamilies_shape (all l : list (jsstring * TypographyToken))
  (acc : Dict (list jsstring)) :
  incl l all ->
  Forall (family_entry all) acc ->
  Forall (family_entry all) (fold_left fontFamilyStep l acc).
Proof.
  revert acc. induction l as [|[key typo] l IH]; intros acc Hl H; simpl;
    [exact H|].
  apply IH; [intros x Hx; apply Hl; right; exact Hx|].
  assert (Hin : In (key, typo) all) by (apply Hl; left; reflexivity).
  destruct (reads_truthy (slugify (tt_fontFamily typo)) acc) eqn:E;
    [exact H|].
  simpl. unfold rset. rewrite slug_not_proto.
  unfold reads_truthy in E.
  destruct (rget (slugify (tt_fontFamily typo)) acc) eqn:G; [discriminate|].
  clear IH Hl. induction H as [|[k' v'] r Hx Hr IHr]; simpl.
  - repeat constructor; simpl; [exact E|]. eauto.
  - simpl in G. destruct (jsstring_eqb k' _) eqn:Ek; [discriminate|].
    constructor; [exact Hx|]. apply IHr, G.
Qed.

Lemma fontFamilies_present (l : list (jsstring * TypographyToken))
  (acc : Dict (list jsstring)) (key : jsstring) (typo : TypographyToken) :
  In (key, typo) l ->
  slugify (tt_fontFamily typo) <> lit "constructor" ->
  exists v,
    rget (slugify (tt_fontFamily typo)) (fold_left fontFamilyStep l acc)
    = Some v.
Proof.
  intros Hin Hc. apply in_split in Hin. destruct Hin as (before & after & ->).
  rewrite fold_left_app. simpl fold_left.
  set (mid := fold_left fontFamilyStep before acc).
  assert (H : exists v, rget (slugify (tt_fontFamily typo))
                          (fontFamilyStep mid (key, typo)) = Some v).
  { unfold fontFamilyStep, reads_truthy.
    destruct (rget (slugify (tt_fontFamily typo)) mid) as [v|] eqn:G.
    - simpl. exists v. exact G.
    - rewrite inherited_key_chars by (auto using slugify_key_chars).
      simpl. eexists. apply rget_rset_same, slug_not_proto. }
  destruct H as [v Hv]. exists v. apply fontFamilies_keep. exact Hv.
Qed.

(** X9.  Every entry of the Tailwind font-family object is a one-element
    list holding the family of one of the typography tokens, keyed by the slug
    of that family; every token whose family slug is not "constructor" finds
    under its slug such an entry, holding a family with that slug; and no key
    is a property name that plain objects inherit: a family whose slug is
    "constructor" reads as already present and never gets an entry. *)
Theorem tailwind_families_shape (tokens : DesignTokens) :
  Forall (fun kv => exists key typo,
                      In (key, typo) (typography tokens)
                      /\ snd kv = [tt_fontFamily typo]
                      /\ fst kv = slugify (tt_fontFamily typo))
    (tailwind_fontFamilies tokens)
  /\ (forall key typo,
        In (key, typo) (typography tokens) ->
        slugify (tt_fontFamily typo) <> lit "constructor" ->
        exists other_key other,
          In (other_key, other) (typography tokens)
          /\ slugify (tt_fontFamily other) = slugify (tt_fontFamily typo)
          /\ rget (slugify (tt_fontFamily typo)) (tailwind_fontFamilies tokens)
             = Some [tt_fontFamily other])
  /\ rget (lit "constructor") (tailwind_fontFamilies tokens) = None.
Proof.
  pose proof (@fontFamilies_shape (entries (typography tokens))
                (entries (typography tokens)) [] (incl_refl _) (Forall_nil _))
    as H.
  rewrite <- tailwind_fontFamilies_fold in H.
  rewrite Forall_forall in H.
  split; [|split].
  - apply Forall_forall. intros kv Hkv.
    destruct (H kv Hkv) as (_ & key & typo & Hin & Hv & Hk).
    exists key, typo. split; [apply In_entries, Hin | auto].
  - intros key typo Hin Hc.
    destruct (@fontFamilies_present (entries (typography tokens)) [] key typo)
      as [v Hv]; [apply In_entries, Hin | exact Hc |].
    rewrite <- tailwind_fontFamilies_fold in Hv.
    destruct (H _ (rget_In _ _ Hv)) as (_ & k' & other & Hin' & Hs & Hk).
    simpl in Hs, Hk. exists k', other.
    split; [apply In_entries, Hin'|]. split; [symmetry; exact Hk|].
    rewrite Hv, Hs. reflexivity.
  - destruct (rget (lit "constructor") (tailwind_fontFamilies tokens))
      as [v|] eqn:G; [|reflexivity].
    apply rget_In in G. destruct (H _ G) as [Hn _].
    vm_compute in Hn. discriminate.
Qed.

End FontFamilies.

(* ================================================================== *)
(** ** The output writer and its cache of digests *)

Section WriterFacts.
Context {node : NodeHost}.

Lemma write_cases (h : Dict jsstring) (d : fs_state) (p c : jsstring) :
  let made := fs_mkdir d (path_dirname p) in
  let written := fs_writeFile (snd made) p c in
  write h d p c
  = if negb (fst made) then (WriteFailed, h, snd made)
    else if match rget p h with
            | Some old => jsstring_eqb old (hashContent c)
            | None => false
            end
         then (Unchanged, h, snd made)
         else if negb (fst written) then (WriteFailed, h, snd written)
              else (Changed, rupdate p (hashContent c) h, snd written).
Proof.
  unfold write. destruct (fs_mkdir d (path_dirname p)) as [made d1]. simpl.
  destruct (negb made); [reflexivity|].
  destruct (match rget p h with Some _ => _ | None => _ end); [reflexivity|].
  destruct (fs_writeFile d1 p c) as [written d2]. reflexivity.
Qed.

Lemma cached_hash (h : Dict jsstring) (p c : jsstring) :
  match rget p h with
  | Some old => jsstring_eqb old (hashContent c)
  | None => false
  end = true
  <-> rget p h = Some (hashContent c).
Proof.
  destruct (rget p h) as [old|]; [|split; discriminate].
  rewrite jsstring_eqb_eq. split; congruence.
Qed.

Lemma write_cache (h : Dict jsstring) (d : fs_state) (p c : jsstring)
  (o : WriteOutcome) (h' : Dict jsstring) (d' : fs_state) :
  write h d p c = (o, h', d') ->
  (o = Changed -> h' = rupdate p (hashContent c) h
                  /\ rget p h <> Some (hashContent c))
  /\ (o = Unchanged -> h' = h /\ rget p h = Some (hashContent c))
  /\ (o = WriteFailed -> h' = h).
Proof.
  rewrite write_cases. cbv zeta.
  destruct (negb (fst (fs_mkdir d (path_dirname p)))).
  { intros [= <- <- <-]. repeat split; discriminate. }
  destruct (match rget p h with Some _ => _ | None => _ end) eqn:E.
  { intros [= <- <- <-]. apply cached_hash in E.
    repeat split; try discriminate; assumption. }
  destruct (negb (fst (fs_writeFile _ p c))).
  { intros [= <- <- <-]. repeat split; discriminate. }
  intros [= <- <- <-]. repeat split; try discriminate.
  intros G. apply cached_hash in G. congruence.
Qed.

Lemma write_other_path (h : Dict jsstring) (d : fs_state) (p q c : jsstring) :
  q <> p ->
  rget q (snd (fst (write h d p c))) = rget q h.
Proof.
  intros Hq. destruct (write h d p c) as [[o h'] d'] eqn:E. simpl.
  destruct (write_cache _ _ _ _ E) as (HC & HU & HF).
  destruct o.
  - destruct (HC eq_refl) as [-> _]. apply rget_rupdate_other, Hq.
  - destruct (HU eq_refl) as [-> _]. reflexivity.
  - rewrite (HF eq_refl). reflexivity.
Qed.

Lemma write_all_other_path (files : list (jsstring * jsstring))
  (state : Dict jsstring * fs_state) (p : jsstring) :
  Forall (fun file => fst file <> p) files ->
  rget p (fst (write_all files state)) = rget p (fst state).
Proof.
  intros H. revert state. unfold write_all.
  induction H as [|[q c] files Hq _ IH]; intros [h d]; simpl;
    [reflexivity|].
  rewrite IH. pose proof (write_other_path h d c (p := q) (q := p)) as W.
  destruct (write h d q c) as [[o h'] d']. simpl in *.
  apply W. intros E. apply Hq. simpl. congruence.
Qed.

(** X10.  After a write, the writer's cache differs from the cache before
    only when the write reports a change, and then only at the written path,
    which now holds the digest of the content; a write that reports no change
    found that digest in the cache, and a rejected write leaves the cache as
    it was, so that the file is tried again next time. *)
Theorem write_updates_cache_only_on_change (h : Dict jsstring)
  (d : fs_state) (p c : jsstring) (o : WriteOutcome) (h' : Dict jsstring)
  (d' : fs_state) :
  write h d p c = (o, h', d') ->
  (o = Changed -> rget p h' = Some (hashContent c)
                  /\ rget p h <> Some (hashContent c))
  /\ (o = Unchanged -> h' = h /\ rget p h = Some (hashContent c))
  /\ (o = WriteFailed -> h' = h)
  /\ (forall q, q <> p -> rget q h' = rget q h).
Proof.
  intros E. destruct (write_cache _ _ _ _ E) as (HC & HU & HF).
  split; [|split; [exact HU|split; [exact HF|]]].
  - intros Ho. destruct (HC Ho) as [-> Hn]. split; [|exact Hn].
    apply rget_rupdate_same.
  - intros q Hq. pose proof (write_other_path h d c Hq) as W.
    rewrite E in W. exact W.
Qed.

(** X11.  Once a write of some content to a path has reported a change,
    writing the same content to that path again reports no change and does
    not touch the file, however many other paths are written in between,
    provided the directory can be made; writing content with another digest
    reports a change again when the file can be written. *)
Theorem write_again_is_skipped (h : Dict jsstring) (d : fs_state)
  (p c : jsstring) (h1 : Dict jsstring) (d1 : fs_state)
  (between : list (jsstring * jsstring)) :
  write h d p c = (Changed, h1, d1) ->
  Forall (fun file => fst file <> p) between ->
  let h2 := fst (write_all between (h1, d1)) in
  let d2 := snd (write_all between (h1, d1)) in
  fst (fs_mkdir d2 (path_dirname p)) = true ->
  write h2 d2 p c = (Unchanged, h2, snd (fs_mkdir d2 (path_dirname p)))
  /\ (forall c',
        hashContent c' <> hashContent c ->
        fst (fs_writeFile (snd (fs_mkdir d2 (path_dirname p))) p c') = true ->
        fst (fst (write h2 d2 p c')) = Changed).
Proof.
  intros E Hb h2 d2 Hm.
  assert (G : rget p h2 = Some (hashContent c)).
  { unfold h2. rewrite write_all_other_path by exact Hb. simpl.
    destruct (write_cache _ _ _ _ E) as (HC & _).
    destruct (HC eq_refl) as [-> _]. apply rget_rupdate_same. }
  split.
  - rewrite write_cases. cbv zeta. rewrite Hm. simpl.
    rewrite (proj2 (cached_hash h2 p c) G). reflexivity.
  - intros c' Hc Hw. rewrite write_cases. cbv zeta. rewrite Hm, Hw. simpl.
    rewrite G. destruct (jsstring_eqb _ _) eqn:Eq; [|reflexivity].
    apply jsstring_eqb_eq in Eq. congruence.
Qed.

(** X12.  After [loadExistingHash] has read a file, writing the content the
    file had reports no change and leaves the file alone, provided the
    directory can be made; when the file cannot be read, [loadExistingHash]
    leaves the cache as it was. *)
Theorem loaded_hash_skips_write (h : Dict jsstring) (d : fs_state)
  (p : jsstring) :
  (forall content,
      fs_readFile d p = Some content ->
      fst (fs_mkdir d (path_dirname p)) = true ->
      write (loadExistingHash h d p) d p content
      = (Unchanged, loadExistingHash h d p,
         snd (fs_mkdir d (path_dirname p))))
  /\ (fs_readFile d p = None -> loadExistingHash h d p = h).
Proof.
  unfold loadExistingHash. split.
  - intros content Hr Hm. rewrite Hr, write_cases. cbv zeta.
    rewrite Hm. simpl. rewrite rget_rupdate_same, jsstring_eqb_refl.
    reflexivity.
  - intros ->. reflexivity.
Qed.

End WriterFacts.

(* ================================================================== *)
(** ** The whole extraction *)

Section ExtractFacts.
Context {host : JsHost}.

(** X13.  When the file endpoint answers with a status that is not ok,
    [extract] rejects with "Figma API error: " followed by the status text,
    whatever the styles endpoint would answer; when the file arrives and the
    styles endpoint answers not ok, it rejects with that status text.  No
    Token Set is produced in either case. *)
Theorem extract_rejects_on_api_error (remote : Remote) (config : FigmaConfig) :
  (forall statusText body,
      fetch_file remote
        (lit "https://api.figma.com/v1/files/" ++ fileKey config)
        (or_else (accessToken config) [])
      = Answered false statusText body ->
      extract remote config
      = inl (ApiError (lit "Figma API error: " ++ statusText)))
  /\ (forall fileStatus data statusText body,
        fetch_file remote
          (lit "https://api.figma.com/v1/files/" ++ fileKey config)
          (or_else (accessToken config) [])
        = Answered true fileStatus (Some data) ->
        fetch_styles remote
          (lit "https://api.figma.com/v1/files/" ++ fileKey config
             ++ lit "/styles")
          (or_else (accessToken config) [])
        = Answered false statusText body ->
        extract remote config
        = inl (ApiError (lit "Figma API error: " ++ statusText))).
Proof.
  split.
  - intros statusText body H. unfold extract, getFileData.
    change (baseUrl ++ lit "/files/" ++ fileKey config)
      with (lit "https://api.figma.com/v1/files/" ++ fileKey config).
    rewrite H. reflexivity.
  - intros fileStatus data statusText body Hf Hs.
    unfold extract, getFileData, getStyles.
    change (baseUrl ++ lit "/files/" ++ fileKey config)
      with (lit "https://api.figma.com/v1/files/" ++ fileKey config).
    change (baseUrl ++ lit "/files/" ++ fileKey config ++ lit "/styles")
      with (lit "https://api.figma.com/v1/files/" ++ fileKey config
              ++ lit "/styles").
    rewrite Hf, Hs. reflexivity.
Qed.

Lemma no_text_styles fileData : extractTypography fileData [] = [].
Proof. reflexivity. Qed.

(** X14.  When the file arrives and the styles endpoint answers ok with a
    body that has no [meta], no [meta.styles], or an empty list, the Token
    Set holds the colors of the variables alone, no typography, no effects,
    the spacing of the document, and the metadata: version "1.0.0", the
    reading of the clock, the configured file key and the file's name. *)
Theorem extract_without_styles (remote : Remote) (config : FigmaConfig)
  (fileStatus stylesStatus : jsstring) (data : FileData)
  (body : option (option (list Style))) :
  fetch_file remote
    (lit "https://api.figma.com/v1/files/" ++ fileKey config)
    (or_else (accessToken config) [])
  = Answered true fileStatus (Some data) ->
  fetch_styles remote
    (lit "https://api.figma.com/v1/files/" ++ fileKey config ++ lit "/styles")
    (or_else (accessToken config) [])
  = Answered true stylesStatus (Some body) ->
  body = None \/ body = Some None \/ body = Some (Some []) ->
  extract remote config
  = inr {| colors := extractColorVariables data [];
           typography := [];
           spacing := extractSpacing data;
           effects := [];
           metadata :=
             {| md_version := lit "1.0.0";
                md_lastSynced := clock remote;
                md_figmaFileKey := Some (fileKey config);
                md_figmaFileName := Some (fd_name data) |} |}.
Proof.
  intros Hf Hs Hb. unfold extract, getFileData, getStyles.
  change (baseUrl ++ lit "/files/" ++ fileKey config)
    with (lit "https://api.figma.com/v1/files/" ++ fileKey config).
  change (baseUrl ++ lit "/files/" ++ fileKey config ++ lit "/styles")
    with (lit "https://api.figma.com/v1/files/" ++ fileKey config
            ++ lit "/styles").
  rewrite Hf, Hs.
  destruct Hb as [-> | [-> | ->]]; reflexivity.
Qed.

(** X15.  The options [useMCP], [nodeIds] and [stylePrefix] have no effect on
    the extraction, and a missing access token counts as the empty one: two
    configurations with the same file key and the same token header extract
    the same result from the same remote. *)
Theorem extract_ignores_filters (remote : Remote) (c1 c2 : FigmaConfig) :
  fileKey c1 = fileKey c2 ->
  or_else (accessToken c1) [] = or_else (accessToken c2) [] ->
  extract remote c1 = extract remote c2.
Proof.
  intros Hk Ht. unfold extract, getFileData, getStyles.
  rewrite Hk, Ht. reflexivity.
Qed.

End ExtractFacts.

(* ================================================================== *)
(** ** One run of the driver *)

Section SyncFacts.
Context {host : JsHost} {node : NodeHost}.

(** X16.  When the extraction rejects, [sync] rejects with the same error
    after its two opening lines on the console; no destination is written and
    the writer's cache is as before. *)
Theorem sync_rejects_with_extract (remote : Remote) (config : SyncConfig)
  (st : SyncState) (e : Thrown) :
  extract remote (sc_figma config) = inl e ->
  sync remote config st
  = (Some e,
     {| hashes := hashes st;
        disk := disk st;
        console := console st
                   ++ [ art ++ lit " Starting Figma design token sync..." ++ nl;
                        inbox ++ lit " Extracting tokens from Figma..." ] |}).
Proof.
  intros H. unfold sync. rewrite H. unfold log. simpl.
  rewrite <- app_assoc. reflexivity.
Qed.

Lemma writeOutput_console (path : option jsstring) (content label : jsstring)
  (st st' : SyncState) :
  writeOutput path content label st = (true, st') ->
  console st' = console st ++ reported path label.
Proof.
  unfold writeOutput, reported. destruct (configured path) as [p|].
  - destruct (write (hashes st) (disk st) p content) as [[o h] d].
    destruct o; intros [= <-]; reflexivity.
  - intros [= <-]. rewrite app_nil_r. reflexivity.
Qed.

Lemma writeOutputs_console
  (outputs : list (option jsstring * jsstring * jsstring))
  (st st' : SyncState) :
  writeOutputs outputs st = (true, st') ->
  console st'
  = console st ++ flat_map (fun o => reported (fst (fst o)) (snd o)) outputs.
Proof.
  revert st. induction outputs as [|[[path content] label] rest IH];
    intros st; simpl.
  - intros [= <-]. rewrite app_nil_r. reflexivity.
  - destruct (writeOutput path content label st) as [ok st1] eqn:E.
    destruct ok; [|discriminate]. intros H.
    rewrite (IH _ H), (writeOutput_console _ _ _ _ E), <- app_assoc.
    reflexivity.
Qed.

(** X17.  The console of a run that succeeds is fixed by the extracted Token
    Set and the configuration: the two opening lines, the four counts, the
    transforming line, one line for every configured destination in the order
    CSS, Tailwind, JSON, SCSS, and the closing line.  It depends neither on
    the writer's cache nor on the file system, so a destination that was left
    unchanged is reported exactly like one that was rewritten. *)
Theorem sync_console_ignores_cache (remote : Remote) (config : SyncConfig)
  (a b a1 b1 : SyncState) (rawTokens : DesignTokens) :
  extract remote (sc_figma config) = inr rawTokens ->
  sync remote config a = (None, a1) ->
  sync remote config b = (None, b1) ->
  let lines :=
    [ art ++ lit " Starting Figma design token sync..." ++ nl;
      inbox ++ lit " Extracting tokens from Figma...";
      found (length (keys (colors rawTokens))) "colors";
      found (length (keys (typography rawTokens))) "typography styles";
      found (length (keys (spacing rawTokens))) "spacing values";
      found (length (keys (effects rawTokens))) "effects" ++ nl;
      cycle ++ lit " Transforming tokens..." ]
    ++ reported (out_css (sc_output config)) (lit "CSS variables")
    ++ reported (out_tailwind (sc_output config)) (lit "Tailwind config")
    ++ reported (out_json (sc_output config)) (lit "JSON tokens")
    ++ reported (out_scss (sc_output config)) (lit "SCSS variables")
    ++ [ nl ++ done_mark ++ lit " Design token sync complete!" ] in
  console a1 = console a ++ lines /\ console b1 = console b ++ lines.
Proof.
  intros He Ha Hb lines.
  assert (G : forall st st1,
             sync remote config st = (None, st1) ->
             console st1 = console st ++ lines).
  { intros st st1. unfold sync. rewrite He.
    match goal with
    | |- context [writeOutputs ?o ?s] =>
        destruct (writeOutputs o s) as [ok st'] eqn:Ew
    end.
    destruct ok; [|discriminate]. intros [= <-].
    apply writeOutputs_console in Ew.
    unfold log. cbn [console]. rewrite Ew. unfold log. cbn [console].
    unfold outputs_of. cbn [flat_map fst snd]. subst lines.
    rewrite <- !app_assoc. reflexivity. }
  split; apply G; assumption.
Qed.

End SyncFacts.

Section SyncAgain.
Context {host : JsHost} {node : NodeHost}.

Lemma writeOutputs_unconfigured
  (before rest : list (option jsstring * jsstring * jsstring))
  (st : SyncState) :
  Forall (fun o => configured (fst (fst o)) = None) before ->
  writeOutputs (before ++ rest) st = writeOutputs rest st.
Proof.
  induction 1 as [|[[path content] label] l Hx _ IH]; [reflexivity|].
  simpl in Hx. simpl. unfold writeOutput. rewrite Hx. exact IH.
Qed.

(** X18.  When the first configured destination, whichever of the four it
    is, has its write rejected, [sync] rejects: the destinations behind it are
    not attempted, the file system is the one the rejected write left, the
    cache is unchanged, and the console holds neither a tick nor the closing
    line. *)
Theorem sync_stops_at_rejected_write (remote : Remote) (config : SyncConfig)
  (st : SyncState) (rawTokens : DesignTokens)
  (before after : list (option jsstring * jsstring * jsstring))
  (path : option jsstring) (content label p : jsstring)
  (h : Dict jsstring) (d : fs_state) :
  extract remote (sc_figma config) = inr rawTokens ->
  outputs_of (sc_output config) rawTokens
  = before ++ (path, content, label) :: after ->
  Forall (fun o => configured (fst (fst o)) = None) before ->
  configured path = Some p ->
  write (hashes st) (disk st) p content = (WriteFailed, h, d) ->
  sync remote config st
  = (Some HostError,
     {| hashes := hashes st;
        disk := d;
        console :=
          console st
          ++ [ art ++ lit " Starting Figma design token sync..." ++ nl;
               inbox ++ lit " Extracting tokens from Figma...";
               found (length (keys (colors rawTokens))) "colors";
               found (length (keys (typography rawTokens)))
                 "typography styles";
               found (length (keys (spacing rawTokens))) "spacing values";
               found (length (keys (effects rawTokens))) "effects" ++ nl;
               cycle ++ lit " Transforming tokens..." ] |}).
Proof.
  intros He Ho Hb Hc Hw.
  destruct (write_cache _ _ _ _ Hw) as (_ & _ & HF). specialize (HF eq_refl).
  subst h. unfold sync. rewrite He, Ho.
  rewrite writeOutputs_unconfigured by exact Hb.
  cbn [writeOutputs]. unfold writeOutput at 1. rewrite Hc.
  unfold log. cbn [hashes disk console]. rewrite Hw.
  cbn [hashes disk console]. rewrite <- !app_assoc. reflexivity.
Qed.

Lemma writeOutput_other (path : option jsstring) (content label : jsstring)
  (st : SyncState) (q : jsstring) :
  configured path <> Some q ->
  rget q (hashes (snd (writeOutput path content label st)))
  = rget q (hashes st).
Proof.
  intros Hq. unfold writeOutput.
  destruct (configured path) as [p|]; [|reflexivity].
  pose proof (write_other_path (hashes st) (disk st) content
                (p := p) (q := q)) as W.
  destruct (write (hashes st) (disk st) p content) as [[o h'] d'].
  simpl in W. destruct o; simpl; apply W; congruence.
Qed.

Lemma writeOutputs_other
  (outputs : list (option jsstring * jsstring * jsstring)) (st : SyncState)
  (q : jsstring) :
  ~ In q (output_paths outputs) ->
  rget q (hashes (snd (writeOutputs outputs st))) = rget q (hashes st).
Proof.
  revert st. induction outputs as [|[[path content] label] rest IH];
    intros st Hq; simpl; [reflexivity|].
  unfold output_paths in Hq. simpl in Hq.
  assert (H1 : configured path <> Some q).
  { intros E. rewrite E in Hq. apply Hq. left. reflexivity. }
  assert (H2 : ~ In q (output_paths rest)).
  { intros E. apply Hq. apply in_or_app. right. exact E. }
  pose proof (writeOutput_other path content label st H1) as W.
  destruct (writeOutput path content label st) as [ok st']. simpl in W.
  destruct ok; simpl; [rewrite IH by exact H2|]; exact W.
Qed.

Lemma writeOutput_records (path : option jsstring) (content label : jsstring)
  (st st' : SyncState) (p : jsstring) :
  writeOutput path content label st = (true, st') ->
  configured path = Some p ->
  rget p (hashes st') = Some (hashContent content).
Proof.
  unfold writeOutput. intros H Hc. rewrite Hc in H.
  destruct (write (hashes st) (disk st) p content) as [[o h'] d'] eqn:E.
  destruct (write_cache _ _ _ _ E) as (HC & HU & _).
  destruct o; inversion H; subst; simpl.
  - destruct (HC eq_refl) as [-> _]. apply rget_rupdate_same.
  - destruct (HU eq_refl) as [-> G]. exact G.
Qed.

Lemma writeOutputs_record
  (outputs : list (option jsstring * jsstring * jsstring))
  (st st' : SyncState) :
  writeOutputs outputs st = (true, st') ->
  NoDup (output_paths outputs) ->
  Forall (fun o => forall p, configured (fst (fst o)) = Some p ->
                             rget p (hashes st')
                             = Some (hashContent (snd (fst o)))) outputs.
Proof.
  revert st. induction outputs as [|[[path content] label] rest IH];
    intros st H Hnd; [constructor|].
  simpl in H.
  destruct (writeOutput path content label st) as [ok st1] eqn:E.
  destruct ok; [|discriminate].
  unfold output_paths in Hnd. simpl in Hnd.
  constructor.
  - simpl. intros p Hp. rewrite Hp in Hnd. simpl in Hnd.
    inversion Hnd as [|? ? Hnot _]; subst.
    pose proof (writeOutputs_other rest st1 p Hnot) as W.
    rewrite H in W. simpl in W. rewrite W.
    eapply writeOutput_records; eassumption.
  - apply (IH st1 H). apply NoDup_app_remove_l in Hnd. exact Hnd.
Qed.

Lemma writeOutputs_skip
  (outputs : list (option jsstring * jsstring * jsstring)) (st : SyncState) :
  (forall d dir, fst (fs_mkdir d dir) = true) ->
  Forall (fun o => forall p, configured (fst (fst o)) = Some p ->
                             rget p (hashes st)
                             = Some (hashContent (snd (fst o)))) outputs ->
  exists st',
    writeOutputs outputs st = (true, st')
    /\ hashes st' = hashes st
    /\ disk st' = mkdirs (output_paths outputs) (disk st).
Proof.
  intros Hm H. revert st H.
  induction outputs as [|[[path content] label] rest IH]; intros st H.
  - exists st. repeat split.
  - inversion H as [|? ? Hx Hrest]; subst. simpl in Hx.
    cbn [writeOutputs]. unfold writeOutput, output_paths. simpl flat_map.
    destruct (configured path) as [p|] eqn:Ec.
    + rewrite write_cases. cbv zeta. rewrite Hm. simpl negb. cbv iota.
      rewrite (proj2 (cached_hash (hashes st) p content) (Hx p eq_refl)).
      match goal with
      | |- context [writeOutputs rest ?s] =>
          destruct (IH s) as (st' & E1 & E2 & E3); [exact Hrest|]
      end.
      exists st'. rewrite E1. repeat split; assumption.
    + destruct (IH st Hrest) as (st' & E1 & E2 & E3).
      exists st'. rewrite E1. repeat split; assumption.
Qed.

(** X19.  When directories can always be made and the configured
    destinations are pairwise distinct, a run that follows a successful run
    and extracts the same Token Set succeeds without writing any file: the
    cache is unchanged and the file system has merely seen the directories
    made again. *)
Theorem second_sync_writes_nothing (remote remote' : Remote)
  (config : SyncConfig) (st st1 : SyncState) (rawTokens : DesignTokens) :
  (forall d dir, fst (fs_mkdir d dir) = true) ->
  NoDup (destinations (sc_output config)) ->
  extract remote (sc_figma config) = inr rawTokens ->
  extract remote' (sc_figma config) = inr rawTokens ->
  sync remote config st = (None, st1) ->
  exists st2,
    sync remote' config st1 = (None, st2)
    /\ hashes st2 = hashes st1
    /\ disk st2 = mkdirs (destinations (sc_output config)) (disk st1).
Proof.
  intros Hm Hnd He He' H1. unfold sync in H1. rewrite He in H1.
  match type of H1 with
  | context [writeOutputs ?o ?s] =>
      destruct (writeOutputs o s) as [ok stw] eqn:Ew
  end.
  destruct ok; [|discriminate]. injection H1 as <-.
  apply writeOutputs_record in Ew; [|exact Hnd].
  unfold sync. rewrite He'.
  match goal with
  | |- context [writeOutputs ?o ?s] =>
      destruct (@writeOutputs_skip o s Hm) as (st' & E1 & E2 & E3);
        [exact Ew|]
  end.
  rewrite E1. eexists. split; [reflexivity|].
  split; [exact E2 | exact E3].
Qed.

End SyncAgain.

(* ================================================================== *)
(** ** The command line *)

Lemma config_argument_first (before after : list jsstring)
  (flag value : jsstring) :
  Forall (fun a => is_config_flag a = false) before ->
  is_config_flag flag = true ->
  config_argument (before ++ flag :: value :: after)
  = match value with
    | [] => None
    | _ :: _ => Some value
    end.
Proof.
  intros Hb Hf. induction Hb as [|a l Ha _ IH]; simpl.
  - rewrite Hf. destruct value; reflexivity.
  - rewrite Ha. exact IH.
Qed.

Lemma includes_app (x : string) (l1 l2 : list jsstring) :
  includes x (l1 ++ l2) = includes x l1 || includes x l2.
Proof. unfold includes. apply existsb_app. Qed.

(** X20.  The argument that follows the first [--config] or [-c] is taken as
    the configuration path when it is a non-empty string, whatever stands
    behind it; when that flag is the last argument, or when no argument is
    such a flag, no path is taken.  The argument is taken even when it is
    itself an option: in [--config --watch] the path is "--watch" and watch
    mode is on as well. *)
Theorem config_flag_takes_next_argument (before after : list jsstring)
  (flag : jsstring) :
  Forall (fun a => is_config_flag a = false) before ->
  is_config_flag flag = true ->
  (forall c value,
      flag_config (parseFlags (before ++ flag :: (c :: value) :: after))
      = Some (c :: value))
  /\ flag_config (parseFlags (before ++ [flag])) = None
  /\ flag_config (parseFlags before) = None
  /\ flag_config (parseFlags (before ++ flag :: lit "--watch" :: after))
     = Some (lit "--watch")
  /\ flag_watch (parseFlags (before ++ flag :: lit "--watch" :: after)) = true.
Proof.
  intros Hb Hf. split; [|split; [|split; [|split]]].
  - intros c value. simpl. rewrite config_argument_first by assumption.
    reflexivity.
  - simpl. induction Hb as [|a l Ha _ IH]; simpl.
    + rewrite Hf. reflexivity.
    + rewrite Ha. exact IH.
  - simpl. induction Hb as [|a l Ha _ IH]; simpl.
    + reflexivity.
    + rewrite Ha. exact IH.
  - simpl. rewrite config_argument_first by assumption. reflexivity.
  - simpl. rewrite !includes_app.
    replace (includes "--watch" (flag :: lit "--watch" :: after)) with true.
    + rewrite orb_true_r. reflexivity.
    + unfold includes. simpl.
      replace (jsstring_eqb (lit "--watch") (lit "--watch")) with true
        by (symmetry; apply jsstring_eqb_refl).
      rewrite orb_true_r. reflexivity.
Qed.

(** X21.  A request for help wins over everything else.  Without one, the
    command runs exactly when the file key of the merged configuration is a
    non-empty string: then the driver gets that key and the watch flag given
    on the command line, and otherwise the command ends with its complaint
    about the file key. *)
Theorem cli_runs_only_with_a_file_key (args : list jsstring) (env : CliEnv) :
  (includes "--help" args || includes "-h" args = true ->
   cli args env = ShowHelp)
  /\ (includes "--help" args || includes "-h" args = false ->
      forall c key,
        fs_fileKey (merged_figma args env) = Some (c :: key) ->
        exists config,
          cli args env
          = Run (includes "--watch" args || includes "-w" args) config
          /\ fileKey (sc_figma config) = c :: key)
  /\ (includes "--help" args || includes "-h" args = false ->
      fs_fileKey (merged_figma args env) = None
      \/ fs_fileKey (merged_figma args env) = Some [] ->
      cli args env = MissingFileKey)
  /\ (forall watching config,
        cli args env = Run watching config ->
        includes "--help" args || includes "-h" args = false
        /\ watching = (includes "--watch" args || includes "-w" args)
        /\ fs_fileKey (merged_figma args env) = Some (fileKey (sc_figma config))
        /\ fileKey (sc_figma config) <> []).
Proof.
  unfold cli, merged_figma.
  cbn [parseFlags flag_help flag_watch flag_config].
  split; [intros ->; reflexivity|].
  split; [|split].
  - intros ->. intros c key.
    destruct (config_module env _) as [[[section|] paths]|];
      intros ->; eexists; split; reflexivity.
  - intros ->.
    destruct (config_module env _) as [[[section|] paths]|];
      intros [-> | ->]; reflexivity.
  - intros watching config.
    destruct (includes "--help" args || includes "-h" args); [discriminate|].
    destruct (config_module env _) as [[[section|] paths]|];
      match goal with
      | |- match fs_fileKey ?f with _ => _ end = _ -> _ =>
          destruct (fs_fileKey f) as [[|c key]|] eqn:E
      end; try discriminate;
      intros [= <- <-]; repeat split; try discriminate;
      cbn [fs_fileKey] in E |- *; try exact E; reflexivity.
Qed.

(** X22.  The configuration file is merged over the defaults key by key at
    the top level only: when the file has a [figma] section, the two
    environment variables play no part, and a section without a file key ends
    the command with the complaint about the missing key, whatever
    FIGMA_FILE_KEY holds. *)
Theorem config_file_replaces_figma_section (args : list jsstring)
  (env : CliEnv) (custom : CustomConfig) (section : FigmaSection) :
  config_module env
    (or_else (flag_config (parseFlags args)) (lit "./figma-sync.config.js"))
  = Some custom ->
  custom_figma custom = Some section ->
  (forall key token,
      cli args env
      = cli args {| FIGMA_FILE_KEY := key;
                    FIGMA_ACCESS_TOKEN := token;
                    config_module := config_module env |})
  /\ (includes "--help" args || includes "-h" args = false ->
      fs_fileKey section = None ->
      cli args env = MissingFileKey).
Proof.
  intros Hm Hc. unfold cli. cbn [config_module]. rewrite Hm.
  destruct custom as [figma output]. simpl in Hc. subst figma.
  split.
  - intros key token. reflexivity.
  - cbn [parseFlags flag_help]. intros -> ->. reflexivity.
Qed.

(* ================================================================== *)
(** ** From the document to the printed color *)

Section PrintedColors.
Context {host : JsHost}.

Lemma json_escape_plain (s : jsstring) :
  forallb json_plain_char s = true -> json_escape s = s.
Proof.
  induction s as [|c s IH]; [reflexivity|]. simpl. intros H.
  apply andb_prop in H. destruct H as [Hc Hs]. rewrite (IH Hs).
  unfold json_plain_char in Hc.
  repeat (apply andb_prop in Hc; destruct Hc as [Hc ?]).
  apply N.leb_le in Hc.
  repeat match goal with
         | H : negb _ = true |- _ => apply negb_true_iff, N.eqb_neq in H
         | H : N.ltb _ _ = true |- _ => apply N.ltb_lt in H
         end.
  repeat match goal with
         | |- context [N.eqb c ?n] =>
             destruct (N.eqb_spec c n); [lia|]
         end.
  destruct (N.ltb_spec c 32); [lia|].
  unfold is_high_surrogate, is_low_surrogate.
  destruct (N.leb_spec 55296 c); [lia|].
  destruct (N.leb_spec 56320 c); [lia|]. reflexivity.
Qed.

Lemma key_chars_plain (s : jsstring) :
  key_chars s -> forallb json_plain_char s = true.
Proof.
  intros H. apply forallb_forall. intros c Hc. unfold key_chars in H.
  rewrite Forall_forall in H. specialize (H c Hc).
  assert (Hlt : (c < 123)%N).
  { unfold is_key_char, is_hyphen, hyphen in H.
    destruct (N.leb_spec 97 c), (N.leb_spec c 122), (N.leb_spec 48 c),
      (N.leb_spec c 57), (N.eqb_spec c 45); simpl in H;
      try discriminate; lia. }
  assert (All : forallb (fun n => implb (is_key_char (N.of_nat n))
                                    (json_plain_char (N.of_nat n)))
                  (seq 0 123) = true) by (vm_compute; reflexivity).
  rewrite forallb_forall in All. specialize (All (N.to_nat c)).
  rewrite N2Nat.id, H in All. apply All, in_seq. lia.
Qed.

Lemma two_digit_hex_plain (z : Z) :
  (0 <= z <= 255)%Z -> forallb json_plain_char (two_digit_hex z) = true.
Proof.
  intros Hz.
  assert (All : forallb (fun n => forallb json_plain_char
                                    (two_digit_hex (Z.of_nat n)))
                  (seq 0 256) = true) by (vm_compute; reflexivity).
  rewrite forallb_forall in All.
  specialize (All (Z.to_nat z)).
  rewrite Z2Nat.id in All by lia.
  apply All, in_seq. lia.
Qed.

Lemma figmaColorToHex_plain (color : FigmaColor) :
  unit_interval (col_r color) -> unit_interval (col_g color) ->
  unit_interval (col_b color) ->
  forallb json_plain_char (figmaColorToHex color) = true.
Proof.
  intros Hr Hg Hb. unfold figmaColorToHex. cbv zeta.
  destruct (channel_byte Hr) as (r & -> & ?).
  destruct (channel_byte Hg) as (g & -> & ?).
  destruct (channel_byte Hb) as (b & -> & ?).
  rewrite !hex_byte_two_digits by assumption.
  rewrite !forallb_app, !two_digit_hex_plain by assumption. reflexivity.
Qed.

Lemma colorStyleStep_other fileData colors style k :
  malformed fileData style \/ tokenizeName (style_name style) <> k ->
  has_type "FILL" style = true ->
  rget k (colorStyleStep fileData colors style) = rget k colors.
Proof.
  intros [H|H] Ht.
  - rewrite colorStyleStep_malformed by assumption. reflexivity.
  - unfold colorStyleStep.
    destruct (findNodeByStyleId _ _) as [node|]; [|reflexivity].
    destruct (node_fills node) as [[|fill fills]|]; try reflexivity.
    destruct (paint_color fill); [|reflexivity].
    apply rget_rset_other. congruence.
Qed.

(** The token of a fill style that no later style and no variable
    rewrites. *)
Lemma color_last_style_wins (fileData : FileData) (before after : list Style)
  (style : Style) (node : Node) (fill : Paint) (fills : list Paint)
  (color : FigmaColor) :
  has_type "FILL" style = true ->
  findNodeByStyleId (fd_document fileData) (style_node_id style) = Some node ->
  node_fills node = Some (fill :: fills) ->
  paint_color fill = Some color ->
  Forall (fun later =>
            malformed fileData later
            \/ tokenizeName (style_name later)
               <> tokenizeName (style_name style)) after ->
  match fd_variables fileData with
  | Some variables =>
      Forall (fun entry =>
                writes_color (snd entry) = false
                \/ tokenizeName (var_name (snd entry))
                   <> tokenizeName (style_name style)) (entries variables)
  | None => True
  end ->
  rget (tokenizeName (style_name style))
    (extractColors fileData (before ++ style :: after))
  = Some {| ct_name := style_name style;
            ct_value := figmaColorToHex color;
            ct_opacity := Some (match paint_opacity fill with
                                | Some o => o
                                | None => 1
                                end);
            ct_description := style_description style;
            ct_figmaId := Some (style_key style) |}.
Proof.
  intros Ht Hn Hf Hc Hafter Hvars.
  unfold extractColors, extractColorVariables.
  assert (S : rget (tokenizeName (style_name style))
                (fold_left (colorStyleStep fileData)
                   (filter (has_type "FILL") (before ++ style :: after)) [])
              = Some {| ct_name := style_name style;
                        ct_value := figmaColorToHex color;
                        ct_opacity := Some (match paint_opacity fill with
                                            | Some o => o
                                            | None => 1
                                            end);
                        ct_description := style_description style;
                        ct_figmaId := Some (style_key style) |}).
  { apply fold_filter_last.
    - exact Ht.
    - intros acc. unfold colorStyleStep. rewrite Hn, Hf, Hc.
      apply rget_rset_same, tokenizeName_not_proto.
    - eapply Forall_impl; [|exact Hafter]. intros later H Hl acc.
      apply colorStyleStep_other; assumption. }
  destruct (fd_variables fileData) as [variables|]; [|exact S].
  rewrite variables_fold_other by exact Hvars. exact S.
Qed.

Lemma tailwind_colors_lookup tokens key color :
  NoDup (map fst (colors tokens)) -> In (key, color) (colors tokens) ->
  key <> proto_key ->
  rget key (tailwind_colors tokens) = Some (JStr (ct_value color)).
Proof.
  intros Hnd Hin Hk. unfold tailwind_colors.
  set (value := fun kv : jsstring * ColorToken =>
                  Some (JStr (ct_value (snd kv)))).
  assert (Hs : forall (acc : Dict jsval) (kv : jsstring * ColorToken),
             (let (key, color) := kv in rset key (JStr (ct_value color)) acc)
             = match value kv with
               | Some v => rset (fst kv) v acc
               | None => acc
               end).
  { intros acc [k c]. reflexivity. }
  rewrite (fill_lookup _ value Hs _ _ color).
  - reflexivity.
  - apply entries_NoDup. exact Hnd.
  - apply In_entries. exact Hin.
  - exact Hk.
Qed.

(** X23.  A fill style that resolves to a node whose first fill has a color
    with unit-interval channels, and whose key no later style and no color
    variable rewrites, reaches the outputs: the CSS output holds the
    declaration [--color-key: hex;] and the Tailwind output the member
    ["key": "hex"], where key is the canonical key of the style's name and hex
    the hex conversion of that fill color, both standing there unescaped. *)
Theorem extracted_colors_are_printed (fileData : FileData)
  (before after : list Style) (style : Style) (node : Node) (fill : Paint)
  (fills : list Paint) (color : FigmaColor) (tokens : DesignTokens) :
  has_type "FILL" style = true ->
  findNodeByStyleId (fd_document fileData) (style_node_id style) = Some node ->
  node_fills node = Some (fill :: fills) ->
  paint_color fill = Some color ->
  unit_interval (col_r color) -> unit_interval (col_g color) ->
  unit_interval (col_b color) ->
  Forall (fun later =>
            malformed fileData later
            \/ tokenizeName (style_name later)
               <> tokenizeName (style_name style)) after ->
  match fd_variables fileData with
  | Some variables =>
      Forall (fun entry =>
                writes_color (snd entry) = false
                \/ tokenizeName (var_name (snd entry))
                   <> tokenizeName (style_name style)) (entries variables)
  | None => True
  end ->
  colors tokens = extractColors fileData (before ++ style :: after) ->
  contains (toCSSVariables tokens)
    (lit "  --color-" ++ tokenizeName (style_name style) ++ lit ": "
       ++ figmaColorToHex color ++ lit ";")
  /\ contains (toTailwindConfig tokens)
       (dq ++ tokenizeName (style_name style) ++ dq ++ lit ": " ++ dq
          ++ figmaColorToHex color ++ dq).
Proof.
  intros Ht Hn Hf Hcol Ur Ug Ub Hafter Hvars Hc.
  pose proof (@color_last_style_wins fileData before after style node fill
                fills color Ht Hn Hf Hcol Hafter Hvars) as Hg.
  rewrite <- Hc in Hg.
  set (key := tokenizeName (style_name style)) in *.
  set (token := {| ct_name := style_name style;
                   ct_value := figmaColorToHex color;
                   ct_opacity := Some (match paint_opacity fill with
                                       | Some o => o
                                       | None => 1
                                       end);
                   ct_description := style_description style;
                   ct_figmaId := Some (style_key style) |}) in *.
  pose proof (rget_In _ _ Hg) as Hin.
  destruct (extractColors_canonical fileData (before ++ style :: after))
    as [Hnd _].
  rewrite <- Hc in Hnd.
  pose proof (tokenizeName_key_chars (style_name style)) as Hk. fold key in Hk.
  pose proof (@figmaColorToHex_plain color Ur Ug Ub) as Hval.
  assert (Hp : key <> proto_key).
  { apply jsstring_eqb_neq. apply tokenizeName_not_proto. }
  split.
  - apply join_contains. unfold toCSSVariables_lines.
    apply in_or_app. right. apply in_or_app. left.
    eapply section_In; [exact Hin|]. right. apply in_or_app. left.
    apply in_flat_map. exists (key, token).
    split; [apply In_entries, Hin | left; reflexivity].
  - replace (dq ++ key ++ dq ++ lit ": " ++ dq ++ figmaColorToHex color ++ dq)
      with (json_quote key ++ lit ": " ++ json_quote (ct_value token)).
    + apply tailwind_extend_printed. intros text.
      eapply json_nested_printed;
        [unfold tailwind_extend; left; reflexivity|].
      intros text'. eapply json_member_printed;
        [apply rget_In, tailwind_colors_lookup; eassumption|].
      reflexivity.
    + unfold json_quote. simpl ct_value.
      rewrite (json_escape_plain _ (key_chars_plain Hk)).
      rewrite (json_escape_plain _ Hval).
      rewrite <- !app_assoc. reflexivity.
Qed.

End PrintedColors.

(* ================================================================== *)
(** ** Further concrete runs *)

Lemma tokenizeName_idempotent_witness :
  tokenizeName (host := plain_host) (lit "colors-primary-500")
  = lit "colors-primary-500".
Proof.
  apply (proj1 (tokenizeName_idempotent (host := plain_host))).
  unfold canonical_form, key_chars. repeat split; repeat constructor;
    simpl; intros; try discriminate.
Defined.

Lemma typography_last_style_wins_witness :
  rget (tokenizeName (host := plain_host) (style_name heading_style))
    (extractTypography (host := plain_host) sample_file
       ([heading_alias_style] ++ heading_style :: [elevation_style]))
  = Some {| tt_name := lit "Heading 1";
            tt_fontFamily := lit "Inter";
            tt_fontSize := 32;
            tt_fontWeight := 700;
            tt_lineHeight := LhNumber 40;
            tt_letterSpacing := 0;
            tt_description := None;
            tt_figmaId := Some (lit "key-heading") |}
  /\ tokenizeName (host := plain_host) (style_name heading_alias_style)
     = tokenizeName (host := plain_host) (style_name heading_style).
Proof.
  split; [|vm_compute; reflexivity].
  apply (@typography_last_style_wins plain_host sample_file
           [heading_alias_style] [elevation_style] heading_style heading_node
           (mkFigmaTextStyle (lit "Inter") 32 700 0 40)).
  - reflexivity.
  - vm_compute. reflexivity.
  - reflexivity.
  - constructor; [right; differ | constructor].
Defined.

Lemma effect_last_style_wins_witness :
  rget (lit "elevation-1")
    (extractEffects (host := plain_host) effects_file
       ([primary_style; elevation_style] ++ elevation_alias_style
          :: [elevation_gone_style; heading_style]))
  = Some {| et_name := lit "elevation / 1";
            et_type := blur;
            et_value :=
              {| ev_color := None;
                 ev_offsetX := Some 0;
                 ev_offsetY := Some 0;
                 ev_blur := Some 8;
                 ev_spread := Some 0 |};
            et_description := None;
            et_figmaId := Some (lit "key-frosted") |}
  /\ tokenizeName (host := plain_host) (style_name elevation_style)
     = tokenizeName (host := plain_host) (style_name elevation_alias_style)
  /\ rget (lit "elevation-1")
       (extractEffects (host := plain_host) effects_file [elevation_style])
     = Some {| et_name := lit "Elevation/1";
               et_type := shadow;
               et_value :=
                 {| ev_color := Some (figmaColorToRgba (host := plain_host)
                                        black_quarter);
                    ev_offsetX := Some 0;
                    ev_offsetY := Some 2;
                    ev_blur := Some 4;
                    ev_spread := Some 0 |};
               et_description := None;
               et_figmaId := Some (lit "key-elevation") |}.
Proof.
  split; [|split; vm_compute; reflexivity].
  apply (@effect_last_style_wins plain_host effects_file
           [primary_style; elevation_style]
           [elevation_gone_style; heading_style]
           elevation_alias_style frosted_node
           (mkFigmaEffect (lit "LAYER_BLUR") None None 8 None) []).
  - reflexivity.
  - vm_compute. reflexivity.
  - reflexivity.
  - constructor; [left; vm_compute; exact I|].
    constructor; [right; differ | constructor].
Defined.

Lemma spacing_read_from_frame_witness :
  rget (lit "base-8") (extractSpacing (host := plain_host) spacing_file)
  = Some {| st_name := lit "Base/8";
            st_value := inject_Z 8;
            st_description := Some (lit "Spacing unit: Base/8") |}
  /\ length (extractSpacing (host := plain_host) spacing_file) = 2%nat.
Proof.
  split; [|vm_compute; reflexivity].
  refine (proj1 (@spacing_read_from_frame plain_host spacing_file
                   (bare_node "spacing" None
                      (Some [boxed "Base/4" 4; bare_node "label" None None;
                             boxed "Base/8" (33 # 4)]))
                   [boxed "Base/4" 4; bare_node "label" None None] []
                   (boxed "Base/8" (33 # 4))
                   (mkBoundingBox 0 0 (33 # 4) (33 # 4)) _ _ _ _)).
  - vm_compute. reflexivity.
  - reflexivity.
  - reflexivity.
  - constructor.
Defined.

Lemma hex_equal_iff_bytes_equal_witness :
  figmaColorToHex (host := plain_host) red
  = figmaColorToHex (host := plain_host)
      (mkFigmaColor 1 (1 # 1024) 0 (Some (1 # 2))).
Proof.
  apply (hex_equal_iff_bytes_equal (host := plain_host) red
           (mkFigmaColor 1 (1 # 1024) 0 (Some (1 # 2))));
    try (split; vm_compute; discriminate).
  repeat split; vm_compute; reflexivity.
Defined.

Lemma tailwind_first_family_wins_witness :
  rget (lit "inter") (tailwind_fontFamilies (host := plain_host) type_tokens)
  = Some [lit "Inter"]
  /\ slugify (host := plain_host) (tt_fontFamily inter_body) = lit "inter".
Proof.
  split; [|vm_compute; reflexivity].
  apply (@tailwind_first_family_wins plain_host type_tokens []
           [(lit "body", inter_body)] (lit "heading-1") inter_heading).
  - vm_compute. reflexivity.
  - constructor.
  - differ.
Defined.

Lemma tailwind_families_shape_witness :
  exists other_key other,
    In (other_key, other) (typography type_tokens)
    /\ slugify (host := plain_host) (tt_fontFamily other)
       = slugify (host := plain_host) (tt_fontFamily inter_body)
    /\ rget (slugify (host := plain_host) (tt_fontFamily inter_body))
         (tailwind_fontFamilies (host := plain_host) type_tokens)
       = Some [tt_fontFamily other].
Proof.
  apply (proj1 (proj2 (tailwind_families_shape (host := plain_host)
                         type_tokens)) (lit "body") inter_body).
  - right. left. reflexivity.
  - differ.
Defined.

Lemma write_updates_cache_only_on_change_witness :
  rget (lit "a.css")
    (rupdate (lit "a.css") (lit "body {}") [(lit "b.css", lit "old")])
  = Some (lit "body {}")
  /\ rget (lit "b.css")
       (rupdate (lit "a.css") (lit "body {}") [(lit "b.css", lit "old")])
     = Some (lit "old").
Proof.
  destruct (@write_updates_cache_only_on_change memory_disk
              [(lit "b.css", lit "old")] [] (lit "a.css") (lit "body {}")
              Changed
              (rupdate (lit "a.css") (lit "body {}") [(lit "b.css", lit "old")])
              [(lit "a.css", lit "body {}")] eq_refl) as (HC & _ & _ & HO).
  split.
  - apply (HC eq_refl).
  - apply (HO (lit "b.css")). differ.
Defined.

Lemma write_again_is_skipped_witness :
  write (node := memory_disk)
    (fst (write_all (node := memory_disk) [(lit "b.css", lit "x")]
            ([(lit "a.css", lit "body {}")], [(lit "a.css", lit "body {}")])))
    (snd (write_all (node := memory_disk) [(lit "b.css", lit "x")]
            ([(lit "a.css", lit "body {}")], [(lit "a.css", lit "body {}")])))
    (lit "a.css") (lit "body {}")
  = (Unchanged,
     [(lit "a.css", lit "body {}"); (lit "b.css", lit "x")],
     [(lit "a.css", lit "body {}"); (lit "b.css", lit "x")]).
Proof.
  refine (proj1 (@write_again_is_skipped memory_disk [] [] (lit "a.css")
                   (lit "body {}") [(lit "a.css", lit "body {}")]
                   [(lit "a.css", lit "body {}")] [(lit "b.css", lit "x")]
                   eq_refl _ eq_refl)).
  repeat constructor. differ.
Defined.

Lemma loaded_hash_skips_write_witness :
  write (node := memory_disk)
    (loadExistingHash (node := memory_disk) [] [(lit "a.css", lit "body {}")]
       (lit "a.css"))
    [(lit "a.css", lit "body {}")] (lit "a.css") (lit "body {}")
  = (Unchanged, [(lit "a.css", lit "body {}")], [(lit "a.css", lit "body {}")])
  /\ loadExistingHash (node := memory_disk) [] [] (lit "a.css") = [].
Proof.
  destruct (@loaded_hash_skips_write memory_disk [] [(lit "a.css", lit "body {}")]
              (lit "a.css")) as [H1 _].
  destruct (@loaded_hash_skips_write memory_disk [] [] (lit "a.css"))
    as [_ H2].
  split; [exact (H1 (lit "body {}") eq_refl eq_refl) | exact (H2 eq_refl)].
Defined.

Lemma extract_rejects_on_api_error_witness :
  extract (host := plain_host) forbidden_remote sample_figma_config
  = inl (ApiError (lit "Figma API error: Forbidden")).
Proof.
  apply (proj1 (@extract_rejects_on_api_error plain_host forbidden_remote
                  sample_figma_config) (lit "Forbidden") None).
  reflexivity.
Defined.

Lemma extract_without_styles_witness :
  typography
    match extract (host := plain_host) bare_remote sample_figma_config with
    | inr tokens => tokens
    | inl _ => sample_tokens
    end = [].
Proof.
  rewrite (@extract_without_styles plain_host bare_remote sample_figma_config
             (lit "OK") (lit "OK") sample_file (Some None) eq_refl eq_refl
             (or_intror (or_introl eq_refl))).
  reflexivity.
Defined.

Lemma extract_ignores_filters_witness :
  extract (host := plain_host) sample_remote sample_figma_config
  = extract (host := plain_host) sample_remote filtered_figma_config.
Proof.
  apply extract_ignores_filters; reflexivity.
Defined.

Lemma sync_rejects_with_extract_witness :
  fst (sync (host := plain_host) (node := memory_disk) forbidden_remote
         sample_sync_config fresh_memory)
  = Some (ApiError (lit "Figma API error: Forbidden")).
Proof.
  rewrite (@sync_rejects_with_extract plain_host memory_disk forbidden_remote
             sample_sync_config fresh_memory
             (ApiError (lit "Figma API error: Forbidden")));
    [reflexivity | vm_compute; reflexivity].
Defined.

Lemma sync_stops_at_rejected_write_witness :
  fst (sync (host := plain_host) (node := readonly_disk) sample_remote
         json_first_config fresh_readonly)
  = Some HostError
  /\ configured (out_css (sc_output json_first_config)) = None
  /\ configured (out_tailwind (sc_output json_first_config)) = None.
Proof.
  split; [|split; reflexivity].
  rewrite (@sync_stops_at_rejected_write plain_host readonly_disk
             sample_remote json_first_config fresh_readonly sample_extracted
             [ (Some [], toCSSVariables (host := plain_host) sample_extracted,
                lit "CSS variables");
               (None, toTailwindConfig (host := plain_host) sample_extracted,
                lit "Tailwind config") ]
             [ (Some (lit "tokens/_variables.scss"),
                toSCSS (host := plain_host) sample_extracted,
                lit "SCSS variables") ]
             (Some (lit "tokens/tokens.json"))
             (toJSON (host := plain_host) sample_extracted)
             (lit "JSON tokens") (lit "tokens/tokens.json") [] tt).
  - reflexivity.
  - vm_compute. reflexivity.
  - reflexivity.
  - repeat constructor.
  - reflexivity.
  - reflexivity.
Defined.

Lemma sync_console_ignores_cache_witness :
  console (snd (sync (host := plain_host) (node := memory_disk) sample_remote
                  sample_sync_config fresh_memory))
  = console
      (snd (sync (host := plain_host) (node := memory_disk) sample_remote
              sample_sync_config
              (@mkSyncState memory_disk
                 [(lit "tokens/variables.css", lit "stale")]
                 [(lit "tokens/tokens.json", lit "{}")] []))).
Proof.
  pose proof (@sync_console_ignores_cache plain_host memory_disk sample_remote
                sample_sync_config fresh_memory
                (@mkSyncState memory_disk
                   [(lit "tokens/variables.css", lit "stale")]
                   [(lit "tokens/tokens.json", lit "{}")] [])
                (snd (sync (host := plain_host) (node := memory_disk)
                        sample_remote sample_sync_config fresh_memory))
                (snd (sync (host := plain_host) (node := memory_disk)
                        sample_remote sample_sync_config
                        (@mkSyncState memory_disk
                           [(lit "tokens/variables.css", lit "stale")]
                           [(lit "tokens/tokens.json", lit "{}")] [])))
                sample_extracted) as H.
  cbv zeta in H.
  destruct H as [Ha Hb]; [vm_compute; reflexivity..|].
  rewrite Ha, Hb. reflexivity.
Defined.

Lemma second_sync_writes_nothing_witness :
  exists st2,
    sync (host := plain_host) (node := memory_disk) sample_remote
      sample_sync_config
      (snd (sync (host := plain_host) (node := memory_disk) sample_remote
              sample_sync_config fresh_memory))
    = (None, st2)
    /\ hashes st2
       = hashes (snd (sync (host := plain_host) (node := memory_disk)
                        sample_remote sample_sync_config fresh_memory)).
Proof.
  destruct (@second_sync_writes_nothing plain_host memory_disk sample_remote
              sample_remote sample_sync_config fresh_memory
              (snd (sync (host := plain_host) (node := memory_disk)
                      sample_remote sample_sync_config fresh_memory))
              sample_extracted) as (st2 & E1 & E2 & _).
  - intros d dir. reflexivity.
  - repeat constructor; simpl; intuition discriminate.
  - vm_compute. reflexivity.
  - vm_compute. reflexivity.
  - vm_compute. reflexivity.
  - exists st2. split; assumption.
Defined.

Lemma config_flag_takes_next_argument_witness :
  flag_config (parseFlags [lit "--watch"; lit "-c"; lit "my.config.js"])
  = Some (lit "my.config.js")
  /\ flag_config (parseFlags [lit "--watch"; lit "-c"]) = None
  /\ flag_config (parseFlags [lit "--watch"]) = None.
Proof.
  assert (Hb : Forall (fun a => is_config_flag a = false) [lit "--watch"])
    by (repeat constructor).
  destruct (@config_flag_takes_next_argument [lit "--watch"] [] (lit "-c")
              Hb eq_refl) as (H1 & H2 & H3 & _).
  split; [exact (H1 _ _) | split; [exact H2 | exact H3]].
Defined.

Lemma cli_runs_only_with_a_file_key_witness :
  cli [lit "-w"; lit "--help"] sample_env = ShowHelp
  /\ (exists config,
        cli [lit "-c"; lit "none.js"; lit "-w"] sample_env = Run true config
        /\ fileKey (sc_figma config) = lit "FILEKEY123")
  /\ cli [lit "-w"] sample_env = MissingFileKey.
Proof.
  split; [|split].
  - apply (proj1 (cli_runs_only_with_a_file_key [lit "-w"; lit "--help"]
                    sample_env)).
    reflexivity.
  - exact (proj1 (proj2 (cli_runs_only_with_a_file_key
                           [lit "-c"; lit "none.js"; lit "-w"] sample_env))
             eq_refl 70%N (lit "ILEKEY123") eq_refl).
  - apply (proj1 (proj2 (proj2 (cli_runs_only_with_a_file_key [lit "-w"]
                                  sample_env)))).
    + reflexivity.
    + left. reflexivity.
Defined.

Lemma config_file_replaces_figma_section_witness :
  cli [] sample_env = MissingFileKey.
Proof.
  apply (proj2 (@config_file_replaces_figma_section [] sample_env
                  (mkCustomConfig (Some file_section) None) file_section
                  eq_refl eq_refl)); reflexivity.
Defined.

Lemma extracted_colors_are_printed_witness :
  contains (toCSSVariables (host := plain_host) styles_only_tokens)
    (lit "  --color-colors-primary: #ff0000;")
  /\ contains (toTailwindConfig (host := plain_host) styles_only_tokens)
       (litq "'colors-primary': '#ff0000'").
Proof.
  apply (@extracted_colors_are_printed plain_host styles_only_file
           [heading_style] [outline_style; dangling_style] primary_style
           primary_node (mkPaint (Some red) (Some (1 # 2))) [] red
           styles_only_tokens).
  - reflexivity.
  - vm_compute. reflexivity.
  - reflexivity.
  - reflexivity.
  - split; vm_compute; discriminate.
  - split; vm_compute; discriminate.
  - split; vm_compute; discriminate.
  - constructor; [|constructor; [|constructor]]; left.
    + vm_compute. repeat split; intros; try reflexivity; discriminate.
    + vm_compute. exact I.
  - exact I.
  - reflexivity.
Defined.

(* ================================================================== *)
(** ** What a first run leaves on disk *)

Section SyncWrites.
Context {host : JsHost} {node : NodeHost}.

Hypothesis written_is_read :
  forall d p c d', fs_writeFile d p c = (true, d') -> fs_readFile d' p = Some c.
Hypothesis write_keeps_others :
  forall d p c d' q,
    fs_writeFile d p c = (true, d') -> q <> p ->
    fs_readFile d' q = fs_readFile d q.
Hypothesis mkdir_keeps_files :
  forall d dir d' q,
    fs_mkdir d dir = (true, d') -> fs_readFile d' q = fs_readFile d q.

Lemma write_disk (h : Dict jsstring) (d : fs_state) (p c : jsstring)
  (o : WriteOutcome) (h' : Dict jsstring) (d' : fs_state) :
  write h d p c = (o, h', d') ->
  (o = Changed -> fs_readFile d' p = Some c)
  /\ (o <> WriteFailed -> forall q, q <> p ->
                                    fs_readFile d' q = fs_readFile d q).
Proof.
  unfold write. destruct (fs_mkdir d (path_dirname p)) as [made d1] eqn:Em.
  destruct made; simpl; [|intros [= <- <- <-]; split; congruence].
  destruct (match rget p h with Some _ => _ | None => _ end).
  { intros [= <- <- <-]. split; [discriminate|]. intros _ q _.
    eapply mkdir_keeps_files, Em. }
  destruct (fs_writeFile d1 p c) as [written d2] eqn:Ew.
  destruct written; simpl; intros [= <- <- <-]; [|split; congruence].
  split.
  - intros _. eapply written_is_read, Ew.
  - intros _ q Hq. rewrite (write_keeps_others _ _ Ew Hq).
    eapply mkdir_keeps_files, Em.
Qed.

Lemma writeOutput_disk (path : option jsstring) (content label : jsstring)
  (st st' : SyncState) (q : jsstring) :
  writeOutput path content label st = (true, st') ->
  configured path <> Some q ->
  fs_readFile (disk st') q = fs_readFile (disk st) q.
Proof.
  unfold writeOutput. destruct (configured path) as [p|];
    [|intros [= <-]; reflexivity].
  destruct (write (hashes st) (disk st) p content) as [[o h'] d'] eqn:E.
  destruct (write_disk _ _ _ _ E) as [_ HF].
  intros H Hq. destruct o; inversion H; subst; simpl;
    apply HF; congruence.
Qed.

Lemma writeOutputs_disk
  (outputs : list (option jsstring * jsstring * jsstring))
  (st st' : SyncState) (q : jsstring) :
  writeOutputs outputs st = (true, st') ->
  ~ In q (output_paths outputs) ->
  fs_readFile (disk st') q = fs_readFile (disk st) q.
Proof.
  revert st. induction outputs as [|[[path content] label] rest IH];
    intros st H Hq; simpl in H.
  - injection H as <-. reflexivity.
  - destruct (writeOutput path content label st) as [ok st1] eqn:E.
    destruct ok; [|discriminate].
    unfold output_paths in Hq. simpl in Hq.
    rewrite (IH st1 H).
    + eapply writeOutput_disk; [exact E|].
      intros Ec. rewrite Ec in Hq. apply Hq. left. reflexivity.
    + intros Hin. apply Hq. apply in_or_app. right. exact Hin.
Qed.

Lemma writeOutputs_files
  (outputs : list (option jsstring * jsstring * jsstring))
  (st st' : SyncState) :
  writeOutputs outputs st = (true, st') ->
  NoDup (output_paths outputs) ->
  (forall p, In p (output_paths outputs) -> rget p (hashes st) = None) ->
  Forall (fun o => forall p, configured (fst (fst o)) = Some p ->
                             fs_readFile (disk st') p = Some (snd (fst o)))
    outputs.
Proof.
  revert st. induction outputs as [|[[path content] label] rest IH];
    intros st H Hnd Hfresh; [constructor|].
  simpl in H.
  destruct (writeOutput path content label st) as [ok st1] eqn:E.
  destruct ok; [|discriminate].
  unfold output_paths in Hnd, Hfresh. simpl in Hnd, Hfresh.
  constructor.
  - simpl. intros p Hp. rewrite Hp in Hnd, Hfresh. simpl in Hnd, Hfresh.
    inversion Hnd as [|? ? Hnot _]; subst.
    rewrite (writeOutputs_disk rest st1 p H Hnot).
    unfold writeOutput in E. rewrite Hp in E.
    destruct (write (hashes st) (disk st) p content) as [[o h'] d'] eqn:Ew.
    destruct (write_disk _ _ _ _ Ew) as [HC _].
    destruct (write_cache _ _ _ _ Ew) as (_ & HU & _).
    destruct o; inversion E; subst; simpl.
    + apply HC. reflexivity.
    + destruct (HU eq_refl) as [_ G].
      rewrite Hfresh in G by (left; reflexivity). discriminate.
  - apply (IH st1 H).
    + apply NoDup_app_remove_l in Hnd. exact Hnd.
    + intros p Hp.
      assert (Hc : configured path <> Some p).
      { intros Ec. rewrite Ec in Hnd. simpl in Hnd.
        inversion Hnd as [|? ? Hnot _]; subst. exact (Hnot Hp). }
      pose proof (writeOutput_other path content label st Hc) as W.
      rewrite E in W. simpl in W. rewrite W.
      apply Hfresh. apply in_or_app. right. exact Hp.
Qed.

(** X24.  On a file system where a written file reads back as written and
    where writing a file or making a directory leaves the other files alone,
    a successful run that starts with an empty cache and has pairwise distinct
    destinations leaves in every configured destination the text of its
    format: the CSS variables, the Tailwind configuration, the JSON document
    and the SCSS variables of the extracted Token Set. *)
Theorem first_sync_writes_every_destination (remote : Remote)
  (config : SyncConfig) (st st1 : SyncState) (rawTokens : DesignTokens) :
  hashes st = [] ->
  NoDup (destinations (sc_output config)) ->
  extract remote (sc_figma config) = inr rawTokens ->
  sync remote config st = (None, st1) ->
  (forall p, configured (out_css (sc_output config)) = Some p ->
             fs_readFile (disk st1) p = Some (toCSSVariables rawTokens))
  /\ (forall p, configured (out_tailwind (sc_output config)) = Some p ->
                fs_readFile (disk st1) p = Some (toTailwindConfig rawTokens))
  /\ (forall p, configured (out_json (sc_output config)) = Some p ->
                fs_readFile (disk st1) p = Some (toJSON rawTokens))
  /\ (forall p, configured (out_scss (sc_output config)) = Some p ->
                fs_readFile (disk st1) p = Some (toSCSS rawTokens)).
Proof.
  intros Hh Hnd He H. unfold sync in H. rewrite He in H.
  match type of H with
  | context [writeOutputs ?o ?s] =>
      destruct (writeOutputs o s) as [ok stw] eqn:Ew
  end.
  destruct ok; [|discriminate]. injection H as <-.
  apply writeOutputs_files in Ew.
  - unfold outputs_of in Ew.
    inversion Ew as [|? ? H1 Ew1]; subst. inversion Ew1 as [|? ? H2 Ew2]; subst.
    inversion Ew2 as [|? ? H3 Ew3]; subst. inversion Ew3 as [|? ? H4 _]; subst.
    repeat split; assumption.
  - exact Hnd.
  - intros p _. unfold log. cbn [hashes]. rewrite Hh. reflexivity.
Qed.

End SyncWrites.

(* ================================================================== *)
(** ** The resolver by name *)

(** X25.  [findNodeByName] returns the first node, in depth-first pre-order,
    whose name equals the wanted name once both are lower-cased, and nothing
    when the tree has no such node. *)
Theorem findNodeByName_first_in_preorder {host : JsHost} (root : Node)
  (name : jsstring) :
  findNodeByName root name = find (same_name name) (preorder root)
  /\ (findNodeByName root name = None
      <-> Forall (fun node => toLowerCase (node_name node)
                              <> toLowerCase name) (preorder root)).
Proof.
  rewrite findNodeByName_find. split; [reflexivity|]. split.
  - intros H. apply Forall_forall. intros node Hin E.
    apply (find_none _ _ H) in Hin. unfold same_name in Hin.
    apply jsstring_eqb_neq in Hin. contradiction.
  - intros H. apply find_none_Forall.
    eapply Forall_impl; [|exact H]. intros node Hn. unfold same_name.
    apply jsstring_eqb_neq. exact Hn.
Qed.

Lemma first_sync_writes_every_destination_witness :
  fs_readFile (NodeHost := memory_disk)
    (disk (snd (sync (host := plain_host) (node := memory_disk) sample_remote
                  sample_sync_config fresh_memory)))
    (lit "tokens/tokens.json")
  = Some (toJSON (host := plain_host) sample_extracted).
Proof.
  refine (proj1 (proj2 (proj2
            (@first_sync_writes_every_destination plain_host memory_disk
               _ _ _ sample_remote sample_sync_config fresh_memory
               (snd (sync (host := plain_host) (node := memory_disk)
                       sample_remote sample_sync_config fresh_memory))
               sample_extracted eq_refl _ _ _)))
            (lit "tokens/tokens.json") eq_refl).
  - intros d p c d'. simpl. destruct p; [discriminate|].
    intros [= <-]. apply rget_rupdate_same.
  - intros d p c d' q. simpl. destruct p; [discriminate|].
    intros [= <-] Hq. apply rget_rupdate_other. exact Hq.
  - intros d dir d' q. simpl. intros [= <-]. reflexivity.
  - repeat constructor; simpl; intuition discriminate.
  - vm_compute. reflexivity.
  - vm_compute. reflexivity.
Defined.

Lemma findNodeByName_first_in_preorder_witness :
  findNodeByName (host := plain_host) two_matches (lit "Spacing") = None.
Proof.
  apply (proj2 (findNodeByName_first_in_preorder (host := plain_host)
                  two_matches (lit "Spacing"))).
  repeat constructor; differ.
Defined.
